(** * Nightingale VoiceAI: the consent-gated privacy pipeline

    A shallow embedding of the core of the repository
    (src/redaction/phi_redactor.py, src/redaction/simple_phi_redactor.py,
    src/auth/consent_manager.py, src/provenance/provenance_engine.py)
    together with the properties its specification states about it, and
    of what the pipeline runs on (src/database/db_manager.py, the mock
    transcriber and summaries, the audio and authentication handlers of
    src/main.py) with further properties of the code.

    Conventions of the embedding.
    - A Python [str] that the code reads character by character is a
      [list ascii]; a character is its code point, so the texts covered
      are those whose code points are below 256. Dict keys and other
      names are [string]s.
    - Python's [re] module is embedded as a backtracking matcher with the
      priorities of the original engine (greedy repetition, leftmost
      alternative first, leftmost start position first).
    - [dict]s looked up by key are [gmap]s; the dict of patterns, which the
      code iterates in insertion order, is an association list.
    - A function that can raise returns a [result]; [try]/[except] is a
      match on it.
    - The wall clock (in whole seconds), [uuid4] and SHA-256 are inputs of
      the functions that read them; a JWT is its payload with the key of
      its signature.
    - A confidence score is a double as IEEE 754 has it, and the
      arithmetic on it rounds as Python's does; the timestamps of audio,
      which the code only stores, are exact rationals.
    - The records of the database are dict objects behind references,
      and so are their lists of chunks: two entries can share an object.
    - Logging changes no result and is left out. *)

From Stdlib Require Import Ascii String ZArith QArith Qminmax Lia Lqa Sorted
  SpecFloat.
From stdpp Require Import base list strings pretty gmap.

Open Scope string_scope.
Open Scope list_scope.
Open Scope nat_scope.

(* ===================================================================== *)
(** * Python strings *)
(* ===================================================================== *)

Module PyStr.

Abbreviation str := (list ascii).

(** A string literal as a Python [str]. *)
Definition py (s : string) : str := list_ascii_of_string s.

Definition code (c : ascii) : N := N_of_ascii c.

Definition in_range (lo hi c : ascii) : bool :=
  (code lo <=? code c)%N && (code c <=? code hi)%N.

Definition is_char (a c : ascii) : bool := (code a =? code c)%N.

Definition one_of (cs : string) (c : ascii) : bool :=
  existsb (fun a => is_char a c) (py cs).

Definition is_upper (c : ascii) : bool := in_range "A" "Z" c.
Definition is_lower (c : ascii) : bool := in_range "a" "z" c.

(** The letters of code points 192 to 222 and 224 to 254, but for the
    signs at 215 and 247, come in pairs 32 apart as the ASCII ones do. *)
Definition is_upper_latin (c : ascii) : bool :=
  ((192 <=? code c) && (code c <=? 222) && negb (code c =? 215))%N.
Definition is_lower_latin (c : ascii) : bool :=
  ((224 <=? code c) && (code c <=? 254) && negb (code c =? 247))%N.

(** [str.lower] and the simple upper-case mapping on one character; a
    character whose other case lies at or above 256 is left in place. *)
Definition to_lower (c : ascii) : ascii :=
  if is_upper c || is_upper_latin c then ascii_of_N (code c + 32) else c.
Definition to_upper (c : ascii) : ascii :=
  if is_lower c || is_lower_latin c then ascii_of_N (code c - 32) else c.

(** [old] is a prefix of [s] ([s.startswith(old)]). *)
Fixpoint starts_with (old s : str) : bool :=
  match old, s with
  | [], _ => true
  | a :: old', c :: s' => is_char a c && starts_with old' s'
  | _ :: _, [] => false
  end.

(** [x in s] on strings: [x] occurs in [s] as a contiguous substring. *)
Fixpoint contains (s x : str) : bool :=
  starts_with x s || match s with [] => false | _ :: s' => contains s' x end.

Definition occurs (x s : str) : Prop := exists a b, s = a ++ x ++ b.

(** [s.replace(old, new)] for a non-empty [old]: scan from the left, and
    at every occurrence emit [new] and skip over the occurrence. [skip]
    counts the characters of the current occurrence still to pass. *)
Fixpoint replace_from (old new : str) (skip : nat) (s : str) : str :=
  match s with
  | [] => []
  | c :: s' =>
      match skip with
      | S k => replace_from old new k s'
      | O =>
          if starts_with old s
          then new ++ replace_from old new (length old - 1) s'
          else c :: replace_from old new 0 s'
      end
  end.

(** [s.replace(old, new)]. With an empty [old] Python inserts [new] before
    every character and at the end. *)
Definition str_replace (s old new : str) : str :=
  match old with
  | [] => new ++ flat_map (fun c => c :: new) s
  | _ :: _ => replace_from old new 0 s
  end.

(** [str(n)] for a natural number. *)
Definition str_of_nat (n : nat) : str := py (pretty n).

End PyStr.

Import PyStr.

(* ===================================================================== *)
(** * The regular expressions of [re] *)
(* ===================================================================== *)

Module Re.

(** Character categories of [re] on [str] patterns (Unicode tables
    restricted to code points below 256). *)

(** [\d] *)
Definition is_digit (c : ascii) : bool := in_range "0" "9" c.

(** [\s] *)
Definition is_space (c : ascii) : bool :=
  let n := code c in
  ((9 <=? n) && (n <=? 13) || (28 <=? n) && (n <=? 32)
   || (n =? 133) || (n =? 160))%N.

(** [\w]: alphanumeric or underscore. *)
Definition is_word (c : ascii) : bool :=
  let n := code c in
  is_digit c || is_upper c || is_lower c || is_char "_" c
  || ((n =? 170) || (n =? 178) || (n =? 179) || (n =? 181) || (n =? 185)
      || (n =? 186) || (188 <=? n) && (n <=? 190)
      || (192 <=? n) && (n <=? 214) || (216 <=? n) && (n <=? 246)
      || (248 <=? n) && (n <=? 255))%N.

(** Syntax. [Chr p] consumes one character satisfying [p]; [Bnd] is [\b];
    [Rep r lo hi] is the greedy [r{lo,hi}], with [hi = None] for no upper
    bound. Groups capture nothing that the code reads ([match.group()] is
    the whole match), so they are not represented. *)
Inductive re : Type :=
| Eps
| Chr (p : ascii -> bool)
| Bnd
| Cat (a b : re)
| Alt (a b : re)
| Rep (a : re) (lo : nat) (hi : option nat).

Definition cat_all (rs : list re) : re := foldr Cat Eps rs.
Definition alt_all (rs : list re) : re :=
  match rs with
  | [] => Eps
  | r :: rs' => foldl Alt r rs'
  end.

Definition Opt (a : re) : re := Rep a 0 (Some 1).
Definition Plus (a : re) : re := Rep a 1 None.
Definition Star (a : re) : re := Rep a 0 None.
Definition Times (n : nat) (a : re) : re := Rep a n (Some n).

(** A literal string, character by character. *)
Definition Lit (s : string) : re := cat_all (map (fun a => Chr (is_char a)) (py s)).

(** [re.IGNORECASE]: a character matches when it or one of its case
    variants is in the class. *)
Definition fold_case (p : ascii -> bool) (c : ascii) : bool :=
  p c || p (to_lower c) || p (to_upper c).

Fixpoint ignorecase (r : re) : re :=
  match r with
  | Eps => Eps
  | Chr p => Chr (fold_case p)
  | Bnd => Bnd
  | Cat a b => Cat (ignorecase a) (ignorecase b)
  | Alt a b => Alt (ignorecase a) (ignorecase b)
  | Rep a lo hi => Rep (ignorecase a) lo hi
  end.

(** The matcher threads the character before the current position (for
    [\b]) and the rest of the subject; the continuation receives both at
    the end of the sub-match and returns the rest after the whole match. *)
Definition cont : Type := option ascii -> str -> option str.

Definition word_before (prev : option ascii) : bool :=
  match prev with Some c => is_word c | None => false end.
Definition word_after (s : str) : bool :=
  match s with c :: _ => is_word c | [] => false end.

(** [\b]: exactly one side of the position is a word character. *)
Definition at_boundary (prev : option ascii) (s : str) : bool :=
  xorb (word_before prev) (word_after s).

Definition below (hi : option nat) (n : nat) : bool :=
  match hi with Some h => n <? h | None => true end.

(** Greedy repetition: one more iteration is tried first, then the
    continuation once [lo] iterations are done. Past [lo], an iteration
    that consumes nothing is not taken (the engine's guard against empty
    loops), so [lo + length s] bounds the number of iterations. *)
Fixpoint rep_loop (step : option ascii -> str -> cont -> option str)
    (lo : nat) (hi : option nat) (k : cont)
    (fuel n : nat) (prev : option ascii) (s : str) : option str :=
  let stop := if lo <=? n then k prev s else None in
  match fuel with
  | O => stop
  | S fuel' =>
      let more :=
        if below hi n then
          step prev s (fun prev' s' =>
            if (n <? lo) || (length s' <? length s)
            then rep_loop step lo hi k fuel' (S n) prev' s'
            else None)
        else None in
      match more with
      | Some e => Some e
      | None => stop
      end
  end.

Fixpoint run (r : re) {struct r} : option ascii -> str -> cont -> option str :=
  match r with
  | Eps => fun prev s k => k prev s
  | Chr p => fun prev s k =>
      match s with
      | c :: s' => if p c then k (Some c) s' else None
      | [] => None
      end
  | Bnd => fun prev s k => if at_boundary prev s then k prev s else None
  | Cat a b => fun prev s k => run a prev s (fun prev' s' => run b prev' s' k)
  | Alt a b => fun prev s k =>
      match run a prev s k with
      | Some e => Some e
      | None => run b prev s k
      end
  | Rep a lo hi => fun prev s k =>
      rep_loop (run a) lo hi k (lo + length s) 0 prev s
  end.

(** [pattern.match] at the current position: the rest after the match. *)
Definition match_here (r : re) (prev : option ascii) (s : str) : option str :=
  run r prev s (fun _ rest => Some rest).

(** A match object: [m.start()], [m.end()], [m.group()]. *)
Record rmatch : Type := RMatch {
  m_start : nat;
  m_end : nat;
  m_group : str
}.

Definition last_char (prev : option ascii) (w : str) : option ascii :=
  match last w with Some c => Some c | None => prev end.

(** [re.finditer]: the leftmost match from the current position, then on
    from its end. [pos] is the index of the head of [s] in the subject.
    After an empty match the scan moves on by one character; no pattern
    of this program matches the empty string. *)
Fixpoint finditer_from (fuel : nat) (r : re) (prev : option ascii)
    (pos : nat) (s : str) : list rmatch :=
  match fuel with
  | O => []
  | S fuel' =>
      let advance :=
        match s with
        | [] => []
        | c :: s' => finditer_from fuel' r (Some c) (S pos) s'
        end in
      match match_here r prev s with
      | None => advance
      | Some rest =>
          let n := length s - length rest in
          let m := RMatch pos (pos + n) (take n s) in
          match n with
          | O => m :: advance
          | S _ =>
              m :: finditer_from fuel' r (last_char prev (take n s))
                     (pos + n) (drop n s)
          end
      end
  end.

Definition finditer (r : re) (s : str) : list rmatch :=
  finditer_from (S (length s)) r None 0 s.

(** The words a pattern can match, forgetting the context that [\b]
    inspects. *)
Fixpoint iter (L : str -> Prop) (n : nat) (w : str) : Prop :=
  match n with
  | O => w = []
  | S n' => exists u v, w = u ++ v /\ L u /\ iter L n' v
  end.

Definition within (hi : option nat) (n : nat) : Prop :=
  match hi with Some h => n <= h | None => True end.

Fixpoint lang (r : re) (w : str) : Prop :=
  match r with
  | Eps => w = []
  | Chr p => exists c, w = [c] /\ p c = true
  | Bnd => w = []
  | Cat a b => exists u v, w = u ++ v /\ lang a u /\ lang b v
  | Alt a b => lang a w \/ lang b w
  | Rep a lo hi => exists n, lo <= n /\ within hi n /\ iter (lang a) n w
  end.

(** Every code point below 256. *)
Definition all_ascii : list ascii := map ascii_of_nat (seq 0 256).

(** [p] is included in [q]. *)
Definition class_sub (p q : ascii -> bool) : bool :=
  forallb (fun c => implb (p c) (q c)) all_ascii.

(** Every character a match of [r] consumes satisfies [q]. *)
Fixpoint all_chars (q : ascii -> bool) (r : re) : bool :=
  match r with
  | Eps | Bnd => true
  | Chr p => class_sub p q
  | Cat a b | Alt a b => all_chars q a && all_chars q b
  | Rep a _ _ => all_chars q a
  end.

(** Every match of [r] has a character satisfying [q]. *)
Fixpoint some_char (q : ascii -> bool) (r : re) : bool :=
  match r with
  | Eps | Bnd => false
  | Chr p => class_sub p q
  | Cat a b => some_char q a || some_char q b
  | Alt a b => some_char q a && some_char q b
  | Rep a lo _ => (0 <? lo) && some_char q a
  end.

End Re.

Import Re.

(* ===================================================================== *)
(** * Exceptions *)
(* ===================================================================== *)

(** The exceptions the modelled code raises or catches. *)
Inductive exn : Type :=
| ValueError (msg : string)
| TypeError (msg : string)
| ExpiredSignatureError (msg : string)
| InvalidTokenError (msg : string)
| Exception (msg : string).

(** A computation that returns a value or raises. *)
Inductive result (A : Type) : Type :=
| Ok (a : A)
| Raise (e : exn).
Arguments Ok {A} a.
Arguments Raise {A} e.

Definition bind {A B : Type} (m : result A) (f : A -> result B) : result B :=
  match m with
  | Ok a => f a
  | Raise e => Raise e
  end.

Notation "'let*' x ':=' m 'in' f" := (bind m (fun x => f))
  (at level 10, x name, m at level 100, f at level 200).

(* ===================================================================== *)
(** * Python floats *)
(* ===================================================================== *)

Module PyFloat.

(** A Python [float] is an IEEE 754 double: 53 bits of mantissa, and
    every operation gives the double nearest to the exact result, ties
    to even. *)
Abbreviation float := spec_float.

Definition prec : Z := 53%Z.
Definition emax : Z := 1024%Z.

(** [float(n)] for an integer; the integers converted here are lengths
    of lists, far below the doubles' largest. *)
Definition of_Z (n : Z) : float := binary_normalize prec emax n 0%Z false.
Definition of_nat (n : nat) : float := of_Z (Z.of_nat n).

Definition mul : float -> float -> float := SFmul prec emax.
Definition add : float -> float -> float := SFadd prec emax.

(** [x / y]; the divisors here are lengths of lists that are not empty. *)
Definition div : float -> float -> float := SFdiv prec emax.

Definition ltb : float -> float -> bool := SFltb.
Definition leb : float -> float -> bool := SFleb.

(** The built-in [min(a, b)]: [b] when [b < a], else [a]. *)
Definition min (a b : float) : float := if ltb b a then b else a.

(** The double that the decimal literal for [num/den] denotes, for two
    integers that are doubles themselves (the division rounds once). *)
Definition literal (num den : Z) : float := div (of_Z num) (of_Z den).

(** [0.0] and [1.0] *)
Definition zero : float := S754_zero false.
Definition one : float := of_Z 1.

(** Not below zero: no sign bit (a NaN has none). *)
Definition not_negative (x : float) : Prop :=
  match x with
  | S754_nan => True
  | S754_zero s | S754_infinity s | S754_finite s _ _ => s = false
  end.

(** The rational that a finite double is. *)
Definition value (x : float) : option Q :=
  match x with
  | S754_zero _ => Some 0%Q
  | S754_finite s m e =>
      Some (inject_Z (if s then Z.neg m else Z.pos m) * Qpower 2 e)%Q
  | S754_infinity _ | S754_nan => None
  end.

End PyFloat.

(* ===================================================================== *)
(** * PHI redaction (src/redaction) *)
(* ===================================================================== *)

Module Redaction.

(** One entry of [detected_phi]: the dict built by the detectors. *)
Record detection : Type := Detection {
  type : string;
  original : str;
  replacement : str;
  start_pos : nat;
  end_pos : nat;
  method : string
}.

Record RedactionResult : Type := mkRedactionResult {
  original_text : str;
  redacted_text : str;
  detected_phi : list detection;
  confidence_score : PyFloat.float
}.

(** Character classes of the patterns. *)
Definition alnum (c : ascii) : bool := is_upper c || is_lower c || is_digit c.
Definition sep (c : ascii) : bool := one_of "-." c || is_space c.

(** [\b(?:\d{3}-?\d{2}-?\d{4})\b] *)
Definition ssn_pattern : re :=
  cat_all [Bnd; Times 3 (Chr is_digit); Opt (Lit "-"); Times 2 (Chr is_digit);
           Opt (Lit "-"); Times 4 (Chr is_digit); Bnd].

(** [\b(?:\+?1[-.\s]?)?\(?([0-9]{3})\)?[-.\s]?([0-9]{3})[-.\s]?([0-9]{4})\b] *)
Definition phone_pattern : re :=
  cat_all [Bnd; Opt (cat_all [Opt (Lit "+"); Lit "1"; Opt (Chr sep)]);
           Opt (Lit "("); Times 3 (Chr (in_range "0" "9")); Opt (Lit ")");
           Opt (Chr sep); Times 3 (Chr (in_range "0" "9"));
           Opt (Chr sep); Times 4 (Chr (in_range "0" "9")); Bnd].

(** [\b[A-Za-z0-9._%+-]+@[A-Za-z0-9.-]+\.[A-Z|a-z]{2,}\b] *)
Definition email_pattern : re :=
  cat_all [Bnd; Plus (Chr (fun c => alnum c || one_of "._%+-" c)); Lit "@";
           Plus (Chr (fun c => alnum c || one_of ".-" c)); Lit ".";
           Rep (Chr (fun c => is_upper c || is_char "|" c || is_lower c)) 2 None;
           Bnd].

(** [\b(?:0[1-9]|1[0-2])[/-](?:0[1-9]|[12]\d|3[01])[/-](?:19|20)\d{2}\b] *)
Definition date_birth_pattern : re :=
  cat_all [Bnd;
           Alt (Cat (Lit "0") (Chr (in_range "1" "9")))
               (Cat (Lit "1") (Chr (in_range "0" "2")));
           Chr (one_of "/-");
           alt_all [Cat (Lit "0") (Chr (in_range "1" "9"));
                    Cat (Chr (one_of "12")) (Chr is_digit);
                    Cat (Lit "3") (Chr (one_of "01"))];
           Chr (one_of "/-");
           Alt (Lit "19") (Lit "20"); Times 2 (Chr is_digit); Bnd].

(** [\b(?:MRN|mrn|Medical Record Number)[\s:]*(\d{6,10})\b] *)
Definition mrn_pattern : re :=
  cat_all [Bnd; alt_all [Lit "MRN"; Lit "mrn"; Lit "Medical Record Number"];
           Star (Chr (fun c => is_space c || is_char ":" c));
           Rep (Chr is_digit) 6 (Some 10); Bnd].

(** [\b\d+\s+[A-Za-z0-9\s,]+(?:Street|St|Avenue|Ave|Road|Rd|Boulevard|Blvd|Lane|Ln|Drive|Dr|Court|Ct|Place|Pl)\b] *)
Definition address_pattern : re :=
  cat_all [Bnd; Plus (Chr is_digit); Plus (Chr is_space);
           Plus (Chr (fun c => alnum c || is_space c || is_char "," c));
           alt_all [Lit "Street"; Lit "St"; Lit "Avenue"; Lit "Ave";
                    Lit "Road"; Lit "Rd"; Lit "Boulevard"; Lit "Blvd";
                    Lit "Lane"; Lit "Ln"; Lit "Drive"; Lit "Dr";
                    Lit "Court"; Lit "Ct"; Lit "Place"; Lit "Pl"];
           Bnd].

(** [self.phi_patterns], in insertion order (both redactors). *)
Definition phi_patterns : list (string * re) :=
  [("ssn", ssn_pattern); ("phone", phone_pattern); ("email", email_pattern);
   ("date_birth", date_birth_pattern); ("mrn", mrn_pattern);
   ("address", address_pattern)].

(** [_detect_patterns], over the [self.replacements] of the class: every
    pattern is compiled with [re.IGNORECASE] and each match appended. *)
Definition detect_patterns_with (replacements : gmap string str) (text : str)
    : list detection :=
  flat_map (fun '(phi_type, pattern) =>
    map (fun m =>
      {| type := phi_type;
         original := m_group m;
         replacement := default (py "[PHI_REDACTED]") (replacements !! phi_type);
         start_pos := m_start m;
         end_pos := m_end m;
         method := "regex" |})
      (finditer (ignorecase pattern) text))
    phi_patterns.

(** The loops [for detection in ...: redacted_text = redacted_text.replace(...)]. *)
Definition apply_redactions (ds : list detection) (text : str) : str :=
  foldl (fun acc d => str_replace acc (original d) (replacement d)) text ds.

(** The shape of the placeholder tokens: capitals and underscores
    between square brackets. *)
Definition bracket (c : ascii) : bool := is_char "[" c || is_char "]" c.
Definition token_mid (c : ascii) : bool := is_upper c || is_char "_" c.

Fixpoint token_tail (t : str) : bool :=
  match t with
  | [] => false
  | c :: t' =>
      match t' with
      | [] => is_char "]" c
      | _ :: _ => token_mid c && token_tail t'
      end
  end.

Definition is_token (t : str) : bool :=
  match t with
  | c :: t' => is_char "[" c && token_tail t'
  | [] => false
  end.

(** A matched text that no replacement can hide inside a token or glue
    together again: it has no square bracket and it has a character that
    no token has between its brackets. *)
Definition safe (x : str) : Prop :=
  Forall (fun c => bracket c = false) x /\ Exists (fun c => token_mid c = false) x.

(** The same, decided on a pattern for all of its matches. *)
Definition safe_pattern (r : re) : bool :=
  all_chars (fun c => negb (bracket c)) r
  && some_char (fun c => negb (token_mid c)) r.

(** The replacement that [_detect_patterns] takes for every pattern type
    is a token. *)
Definition tokens_ok (replacements : gmap string str) : bool :=
  forallb (fun '(phi_type, _) =>
             is_token (default (py "[PHI_REDACTED]") (replacements !! phi_type)))
          phi_patterns.

Definition safe_detection (d : detection) : Prop :=
  safe (original d) /\ is_token (replacement d) = true.

(** The result of the [except Exception] branch. *)
Definition redaction_failed (text : str) : RedactionResult :=
  {| original_text := text;
     redacted_text := py "[TEXT_REDACTION_FAILED]";
     detected_phi := [];
     confidence_score := PyFloat.zero |}.

(** The body both [redact_phi] methods share: pattern detection on the
    input, a second detector on the text redacted so far, the confidence
    score; any exception of a step leads to [redaction_failed]. *)
Section RedactPhi.

Variable detect_patterns : str -> result (list detection).
Variable detect_second : str -> result (list detection).
Variable calculate_confidence : list detection -> str -> result PyFloat.float.

Definition redact_try (text : str) : result RedactionResult :=
  let* pattern_detections := detect_patterns text in
  let redacted1 := apply_redactions pattern_detections text in
  let* second_detections := detect_second redacted1 in
  let redacted2 := apply_redactions second_detections redacted1 in
  let detected := pattern_detections ++ second_detections in
  let* confidence := calculate_confidence detected text in
  Ok {| original_text := text;
        redacted_text := redacted2;
        detected_phi := detected;
        confidence_score := confidence |}.

Definition redact_phi_with (text : str) : RedactionResult :=
  match redact_try text with
  | Ok r => r
  | Raise _ => redaction_failed text
  end.

(** [validate_redaction]: detection is run again on [redacted]; the
    [except] branch answers [False], and [redact_phi] raises nothing. *)
Definition validate_redaction_with (original redacted : str) : bool :=
  let r := redact_phi_with redacted in
  length (detected_phi r) =? 0.

End RedactPhi.

(** [sum(1 for d in detections if d['method'] == name)] *)
Definition count_method (name : string) (ds : list detection) : nat :=
  sum_list (flat_map (fun d => if bool_decide (method d = name) then [1] else [])
                     ds).

(** A detection by a structured pattern, as against a heuristic one. *)
Definition structured (d : detection) : Prop := method d = "regex".

(** The weighted ratio of the specification, in exact arithmetic: the
    structured detections weigh [w_structured], the heuristic ones
    [w_heuristic], and the sum is divided by the number of detections. *)
Definition weighted_ratio (w_structured w_heuristic : Q) (ds : list detection)
    : Q :=
  ((inject_Z (Z.of_nat (length (filter structured ds))) * w_structured
    + inject_Z (Z.of_nat (length (filter (fun d => ~ structured d) ds)))
      * w_heuristic)
   / inject_Z (Z.of_nat (length ds)))%Q.

(** What the specification says of the score of a result with
    detections: it is that ratio, for the two weights. *)
Definition scores_weighted_ratio (w_structured w_heuristic : Q)
    (r : RedactionResult) : Prop :=
  exists q, PyFloat.value (confidence_score r) = Some q
            /\ (q == weighted_ratio w_structured w_heuristic (detected_phi r))%Q.

(** The score of [k] detections that are all by pattern, as
    [_calculate_confidence] computes it. *)
Definition score_of_count (k : nat) : PyFloat.float :=
  match k with
  | 0 => PyFloat.one
  | S _ =>
      PyFloat.min PyFloat.one
        (PyFloat.div (PyFloat.mul (PyFloat.of_nat k) (PyFloat.literal 9 10))
                     (PyFloat.of_nat k))
  end.

(** src/redaction/phi_redactor.py *)
Module PHIRedactor.

Definition replacements : gmap string str :=
  list_to_map
    [("ssn", py "[SSN_REDACTED]"); ("phone", py "[PHONE_REDACTED]");
     ("email", py "[EMAIL_REDACTED]"); ("date_birth", py "[DOB_REDACTED]");
     ("mrn", py "[MRN_REDACTED]"); ("address", py "[ADDRESS_REDACTED]");
     ("person_name", py "[NAME_REDACTED]");
     ("organization", py "[ORG_REDACTED]");
     ("location", py "[LOCATION_REDACTED]"); ("date", py "[DATE_REDACTED]");
     ("number", py "[NUMBER_REDACTED]")].

Definition _detect_patterns (text : str) : list detection :=
  detect_patterns_with replacements text.

(** Without spaCy the entity detector finds nothing. *)
Definition _detect_entities (text : str) : list detection := [].

Definition _calculate_confidence (detections : list detection)
    (original_text : str) : PyFloat.float :=
  match detections with
  | [] => PyFloat.one
  | _ :: _ =>
      let regex_detections := count_method "regex" detections in
      let nlp_detections := count_method "nlp" detections in
      PyFloat.min PyFloat.one
        (PyFloat.div
           (PyFloat.add
              (PyFloat.mul (PyFloat.of_nat regex_detections) (PyFloat.literal 9 10))
              (PyFloat.mul (PyFloat.of_nat nlp_detections) (PyFloat.literal 7 10)))
           (PyFloat.of_nat (length detections)))
  end.

Definition redact_phi (text : str) : RedactionResult :=
  redact_phi_with (fun t => Ok (_detect_patterns t))
                  (fun t => Ok (_detect_entities t))
                  (fun ds t => Ok (_calculate_confidence ds t)) text.

Definition validate_redaction (original redacted : str) : bool :=
  let r := redact_phi redacted in
  length (detected_phi r) =? 0.

End PHIRedactor.

(** src/redaction/simple_phi_redactor.py *)
Module SimplePHIRedactor.

Definition replacements : gmap string str :=
  list_to_map
    [("ssn", py "[SSN_REDACTED]"); ("phone", py "[PHONE_REDACTED]");
     ("email", py "[EMAIL_REDACTED]"); ("date_birth", py "[DOB_REDACTED]");
     ("mrn", py "[MRN_REDACTED]"); ("address", py "[ADDRESS_REDACTED]");
     ("name", py "[NAME_REDACTED]")].

Definition capitalized : re := Cat (Chr is_upper) (Plus (Chr is_lower)).

(** [\b[A-Z][a-z]+\s+[A-Z][a-z]+\b], [\bDr\.\s+[A-Z][a-z]+\b],
    [\bPatient\s+[A-Z][a-z]+\b] *)
Definition name_patterns : list re :=
  [cat_all [Bnd; capitalized; Plus (Chr is_space); capitalized; Bnd];
   cat_all [Bnd; Lit "Dr."; Plus (Chr is_space); capitalized; Bnd];
   cat_all [Bnd; Lit "Patient"; Plus (Chr is_space); capitalized; Bnd]].

Definition medical_terms : gset string :=
  list_to_set
    ["patient reports"; "doctor smith"; "nurse jones"; "headache pain";
     "blood pressure"; "heart rate"; "pain level"; "medical history"].

Definition _is_medical_term (text : str) : bool :=
  bool_decide (string_of_list_ascii (map to_lower text) ∈ medical_terms).

Definition _detect_patterns (text : str) : list detection :=
  detect_patterns_with replacements text.

(** [self.replacements['name']]; the key is in the dict, so the lookup
    that the code makes for each match never raises. *)
Definition name_replacement : result str :=
  match replacements !! "name" with
  | Some t => Ok t
  | None => Raise (Exception "KeyError: 'name'")
  end.

Definition _detect_names (text : str) : result (list detection) :=
  let* token := name_replacement in
  Ok (flat_map (fun pattern =>
        flat_map (fun m =>
          let name_text := m_group m in
          if _is_medical_term name_text then []
          else [{| type := "name";
                   original := name_text;
                   replacement := token;
                   start_pos := m_start m;
                   end_pos := m_end m;
                   method := "name_pattern" |}])
          (finditer pattern text))
        name_patterns).

(** [confidence = 1.0 if detected_phi else 1.0] *)
Definition confidence (detected : list detection) : PyFloat.float :=
  match detected with
  | _ :: _ => PyFloat.one
  | [] => PyFloat.one
  end.

Definition redact_phi (text : str) : RedactionResult :=
  redact_phi_with (fun t => Ok (_detect_patterns t))
                  _detect_names
                  (fun ds _ => Ok (confidence ds)) text.

Definition validate_redaction (original redacted : str) : bool :=
  let r := redact_phi redacted in
  length (detected_phi r) =? 0.

End SimplePHIRedactor.

End Redaction.

Import Redaction.

(* ===================================================================== *)
(** * Authentication and consent (src/auth/consent_manager.py) *)
(* ===================================================================== *)

Module Consent.

Record ConsentFlags : Type := mkConsentFlags {
  audio_recording : bool;
  transcription : bool;
  ai_processing : bool;
  data_storage : bool;
  summary_generation : bool
}.

(** [datetime] values are seconds since the epoch. *)
Record PatientInfo : Type := mkPatientInfo {
  patient_id : str;
  session_id : string;
  consent : ConsentFlags;
  authenticated_at : Z;
  expires_at : Z
}.

Definition consent_fields : gset string :=
  list_to_set ["audio_recording"; "transcription"; "ai_processing";
               "data_storage"; "summary_generation"].

(** [ConsentFlags] called with the dict as keyword arguments: a key that
    is no field is a [TypeError], a missing field takes its default
    [False]. *)
Definition ConsentFlags_of (kw : gmap string bool) : result ConsentFlags :=
  if bool_decide (dom kw ⊆ consent_fields) then
    Ok {| audio_recording := default false (kw !! "audio_recording");
          transcription := default false (kw !! "transcription");
          ai_processing := default false (kw !! "ai_processing");
          data_storage := default false (kw !! "data_storage");
          summary_generation := default false (kw !! "summary_generation") |}
  else Raise (TypeError "__init__() got an unexpected keyword argument").

(** [dataclasses.asdict] on consent flags. *)
Definition asdict (c : ConsentFlags) : gmap string bool :=
  list_to_map
    [("audio_recording", audio_recording c); ("transcription", transcription c);
     ("ai_processing", ai_processing c); ("data_storage", data_storage c);
     ("summary_generation", summary_generation c)].

(** The claims of a token, the dict [token_payload]. *)
Record payload : Type := mkPayload {
  p_patient_id : str;
  p_session_id : string;
  p_consent : gmap string bool;
  iat : Z;
  exp : Z
}.

(** A token is a payload signed under a key; any other string is no
    token. The HS256 signature itself is not represented. *)
Inductive token : Type :=
| Signed (claims : payload) (key : string)
| Malformed (raw : str).

(** [jwt.encode] *)
Definition jwt_encode (claims : payload) (key : string) : token :=
  Signed claims key.

(** [jwt.decode(token, key, algorithms, leeway)] of PyJWT at the time
    [now]: the signature, then [iat] and [exp], each with the leeway.
    Every error other than the expiry is an [InvalidTokenError]. *)
Definition jwt_decode (t : token) (key : string) (leeway now : Z)
    : result payload :=
  match t with
  | Malformed _ => Raise (InvalidTokenError "Not enough segments")
  | Signed claims k =>
      if negb (bool_decide (k = key))
      then Raise (InvalidTokenError "Signature verification failed")
      else if (now + leeway <? iat claims)%Z
      then Raise (InvalidTokenError "The token is not yet valid (iat)")
      else if (exp claims <=? now - leeway)%Z
      then Raise (ExpiredSignatureError "Signature has expired")
      else Ok claims
  end.

(** The year of the day in which the second [t] after the epoch lies, in
    the Gregorian calendar carried on in both directions, as [gmtime]
    finds it. *)
Definition year_of_timestamp (t : Z) : Z :=
  (let days := t / 86400 in
   let z := days + 719468 in
   let era := z / 146097 in
   let doe := z - era * 146097 in
   let yoe := (doe - doe / 1460 + doe / 36524 - doe / 146096) / 365 in
   let y := yoe + era * 400 in
   let doy := doe - (365 * yoe + yoe / 4 - yoe / 100) in
   let mp := (5 * doy + 2) / 153 in
   let m := if mp <? 10 then mp + 3 else mp - 9 in
   if m <=? 2 then y + 1 else y)%Z.

(** What 32 bits keep of an integer (a C [int]). *)
Definition wrap32 (z : Z) : Z :=
  ((z + 2147483648) mod 4294967296 - 2147483648)%Z.

(** The first and the last second of the years 1 to 9999, which a
    [datetime] can hold. *)
Definition min_timestamp : Z := (-62135596800)%Z.
Definition max_timestamp : Z := 253402300799%Z.

Definition datetime_ok (t : Z) : bool :=
  (min_timestamp <=? t)%Z && (t <=? max_timestamp)%Z.

(** The message of the [ValueError] of a year that is not from 1 to 9999. *)
Definition year_out_of_range (year : Z) : string :=
  "year " +:+ pretty year +:+ " is out of range".

(** [datetime.utcfromtimestamp(t)] for an integer [t], as CPython has it
    where [time_t] has 64 bits and [int] has 32: a timestamp that is no
    [time_t] is an [OverflowError], one whose year [gmtime] cannot hold
    is an [OSError], and a year that is not from 1 to 9999 is a
    [ValueError]. The datetime is kept as its timestamp. *)
Definition utcfromtimestamp (t : Z) : result Z :=
  if ((t <? -9223372036854775808) || (9223372036854775808 <=? t))%Z
  then Raise (Exception
                "OverflowError: timestamp out of range for platform time_t")
  else
    let tm_year := (year_of_timestamp t - 1900)%Z in
    if ((tm_year <? -2147483648) || (2147483648 <=? tm_year))%Z
    then Raise (Exception
                  "OSError: [Errno 75] Value too large for defined data type")
    else
      let year := wrap32 (tm_year + 1900) in
      if ((year <? 1) || (9999 <? year))%Z
      then Raise (ValueError (year_out_of_range year))
      else Ok t.

(** The errors of [utcfromtimestamp]. *)
Definition range_error (e : exn) : Prop :=
  (exists year, e = ValueError (year_out_of_range year))
  \/ (exists msg, e = Exception msg).

Section ConsentManager.

(** [hashlib.sha256(data).hexdigest()] *)
Variable sha256_hexdigest : str -> str.

Definition secret_key : string :=
  "nightingale_jwt_secret_key_change_in_production".
Definition token_expiry_minutes : Z := 60.

Definition _hash_patient_id (patient_id : str) : str :=
  take 16 (sha256_hexdigest patient_id).

Definition _validate_minimum_consent (c : ConsentFlags) : bool :=
  audio_recording c && transcription c && ai_processing c.

(** [authenticate_patient]; [now] is the reading of [time.time()] and
    [uuid] the value drawn by [_generate_session_id]. The [except]
    branch logs and raises the exception again. *)
Definition authenticate_patient (now : Z) (uuid : string)
    (patient_id : str) (consent_flags : gmap string bool) : result token :=
  let hashed_patient_id := _hash_patient_id patient_id in
  let* consent := ConsentFlags_of consent_flags in
  if negb (_validate_minimum_consent consent)
  then Raise (ValueError "Insufficient consent for system operation")
  else
    let current_timestamp := now in
    let expiry_timestamp := (current_timestamp + token_expiry_minutes * 60)%Z in
    let token_payload :=
      {| p_patient_id := hashed_patient_id;
         p_session_id := uuid;
         p_consent := asdict consent;
         iat := current_timestamp;
         exp := expiry_timestamp |} in
    Ok (jwt_encode token_payload secret_key).

(** The token that [authenticate_patient] returns when it succeeds. *)
Definition issued (now : Z) (uuid : string) (patient_id : str)
    (c : ConsentFlags) : token :=
  jwt_encode
    {| p_patient_id := _hash_patient_id patient_id;
       p_session_id := uuid;
       p_consent := asdict c;
       iat := now;
       exp := now + token_expiry_minutes * 60 |} secret_key.

(** The [try] block of [verify_token]. *)
Definition verify_try (now : Z) (t : token) : result PatientInfo :=
  let current_timestamp := now in
  let* claims := jwt_decode t secret_key 30 now in
  let exp_timestamp := exp claims in
  if negb (exp_timestamp =? 0)%Z && (exp_timestamp <? current_timestamp)%Z
  then Raise (ExpiredSignatureError "Token has expired")
  else
    let* consent := ConsentFlags_of (p_consent claims) in
    let* authenticated_at := utcfromtimestamp (iat claims) in
    let* expires_at := utcfromtimestamp (exp claims) in
    Ok {| patient_id := p_patient_id claims;
          session_id := p_session_id claims;
          consent := consent;
          authenticated_at := authenticated_at;
          expires_at := expires_at |}.

(** [verify_token] at the time [now], with its [except] clauses. *)
Definition verify_token (now : Z) (t : token) : result PatientInfo :=
  match verify_try now t with
  | Raise (ExpiredSignatureError _) =>
      Raise (ValueError "Authentication token has expired")
  | Raise (InvalidTokenError _) =>
      Raise (ValueError "Invalid authentication token")
  | r => r
  end.

Definition has_required_consent (patient_info : PatientInfo) : bool :=
  let c := consent patient_info in
  forallb id [audio_recording c; transcription c; ai_processing c].

Definition operation_requirements (c : ConsentFlags) : gmap string bool :=
  list_to_map
    [("record_audio", audio_recording c); ("transcribe", transcription c);
     ("ai_process", ai_processing c); ("store_data", data_storage c);
     ("generate_summary", summary_generation c)].

Definition check_operation_consent (patient_info : PatientInfo)
    (operation : string) : bool :=
  default false (operation_requirements (consent patient_info) !! operation).

End ConsentManager.

(** The errors of the specification, as the code raises them. *)
Definition ConsentInsufficient : exn :=
  ValueError "Insufficient consent for system operation".
Definition TokenExpired : exn := ValueError "Authentication token has expired".
Definition TokenInvalid : exn := ValueError "Invalid authentication token".

(** The operations that [check_operation_consent] knows. *)
Definition operation_vocabulary : list string :=
  ["record_audio"; "transcribe"; "ai_process"; "store_data"; "generate_summary"].

(** The consent dict a caller sends for five given answers. *)
Definition consent_dict (recording transcribing ai storage summary : bool)
    : gmap string bool :=
  list_to_map
    [("audio_recording", recording); ("transcription", transcribing);
     ("ai_processing", ai); ("data_storage", storage);
     ("summary_generation", summary)].

End Consent.

(* ===================================================================== *)
(** * Provenance (src/provenance/provenance_engine.py) *)
(* ===================================================================== *)

Module Provenance.

(** The values found in a timestamp dict. *)
Inductive value : Type :=
| VFloat (x : Q)
| VStr (s : str).

Record ProvenanceChunk : Type := mkProvenanceChunk {
  chunk_id : string;
  text : str;
  start_time : value;
  end_time : value;
  provenance_refs : list str
}.

(** [f"S{i+1}" for i in range(n)] *)
Definition refs_upto (n : nat) : list str :=
  map (fun i => py "S" ++ str_of_nat (i + 1)) (seq 0 n).

(** [map_provenance] on the engine's [provenance_map]; [uuid] is the
    value drawn by [uuid.uuid4()]. Returns the chunk and the map with
    the chunk stored under its id. *)
Definition map_provenance (provenance_map : gmap string ProvenanceChunk)
    (uuid : string) (text : str) (timestamps : list (gmap string value))
    (session_id : string)
    : ProvenanceChunk * gmap string ProvenanceChunk :=
  let chunk_id := uuid in
  let '(start_time, end_time) :=
    match timestamps with
    | first_timestamp :: _ =>
        (default (VFloat 0) (first_timestamp !! "start_time"),
         default (VFloat 30) (first_timestamp !! "end_time"))
    | [] => (VFloat 0, VFloat 30)
    end in
  let provenance_refs := refs_upto (min 3 (length timestamps)) in
  let chunk :=
    {| chunk_id := chunk_id;
       text := text;
       start_time := start_time;
       end_time := end_time;
       provenance_refs := provenance_refs |} in
  (chunk, <[chunk_id := chunk]> provenance_map).

End Provenance.

(* ===================================================================== *)
(** * Positions of matches and detections *)
(* ===================================================================== *)

Module Span.

(** A match lies in the part of the subject that was still to scan, and
    its text is the slice between its two positions. *)
Definition in_span (pos : nat) (s : str) (m : rmatch) : Prop :=
  pos <= m_start m /\ m_start m <= m_end m /\ m_end m <= pos + length s
  /\ m_group m = take (m_end m - m_start m) (drop (m_start m - pos) s).

(** [m1] ends before [m2] starts. *)
Definition before (m1 m2 : rmatch) : Prop := m_end m1 <= m_start m2.

(** The same for two detections. *)
Definition precedes (d1 d2 : detection) : Prop := end_pos d1 <= start_pos d2.

End Span.

Import Span.

(* ===================================================================== *)
(** * Further notions about redaction *)
(* ===================================================================== *)

Module RedactionMore.

(** Every match of the pattern has a digit or an at sign. *)
Definition digit_or_at (c : ascii) : bool := is_digit c || is_char "@" c.

Definition needs_digit_or_at (r : re) : bool := some_char digit_or_at r.

(** The detections of one PHI type. *)
Definition of_type (ty : string) (ds : list detection) : list detection :=
  filter (fun d => type d = ty) ds.

(** [text[start:end]] for [start <= end]. *)
Definition slice (text : str) (start stop : nat) : str :=
  take (stop - start) (drop start text).

(** A detection carries the slice of [text] between its positions. *)
Definition spans (text : str) (d : detection) : Prop :=
  start_pos d < end_pos d /\ end_pos d <= length text
  /\ original d = slice text (start_pos d) (end_pos d).

End RedactionMore.

Import RedactionMore.

(* ===================================================================== *)
(** * The entity helpers of phi_redactor.py *)
(* ===================================================================== *)

Module Entities.

(** [self.sensitive_entities] *)
Definition sensitive_entities : gset string :=
  list_to_set ["PERSON"; "ORG"; "GPE"; "DATE"; "CARDINAL"].

(** The [medical_terms] of [_is_likely_phi]. *)
Definition medical_terms : gset string :=
  list_to_set ["headache"; "pain"; "medication"; "treatment"; "diagnosis";
               "symptoms"; "doctor"; "patient"; "clinic"; "hospital"].

(** [\b(?:19|20)\d{2}\b] *)
Definition year_pattern : re :=
  cat_all [Bnd; Alt (Lit "19") (Lit "20"); Times 2 (Chr is_digit); Bnd].

(** [re.match(pattern, text)]: a match at the start of the text. *)
Definition re_match (r : re) (text : str) : bool :=
  match match_here r None text with
  | Some _ => true
  | None => false
  end.

Definition _is_likely_phi (text : str) (entity_label : string) : bool :=
  if bool_decide (string_of_list_ascii (map to_lower text) ∈ medical_terms)
  then false
  else if bool_decide (entity_label = "PERSON") then true
  else if bool_decide (entity_label = "DATE") && re_match year_pattern text
  then true
  else if bool_decide (entity_label = "CARDINAL")
          && (6 <=? length (str_replace text (py " ") []))
  then true
  else false.

Definition entity_mapping : gmap string string :=
  list_to_map
    [("PERSON", "person_name"); ("ORG", "organization"); ("GPE", "location");
     ("DATE", "date"); ("CARDINAL", "number")].

Definition _map_entity_to_phi_type (entity_label : string) : string :=
  default "unknown" (entity_mapping !! entity_label).

End Entities.

(* ===================================================================== *)
(** * The other methods of the consent manager *)
(* ===================================================================== *)

Module ConsentMore.

Import Consent.

(** [refresh_token] at the time [now]. [datetime.utcnow()] gives a
    datetime without time zone and [timestamp()] reads such a datetime
    as local time, so the new timestamps are off by [utc_offset], the
    offset of the local time from UTC in seconds (0 for a host on UTC).
    The [except] branch logs and raises the exception again. *)
Definition refresh_token (utc_offset now : Z) (current_token : token)
    : result token :=
  let* patient_info := verify_token now current_token in
  let time_to_expiry := (expires_at patient_info - now)%Z in
  if (300 <? time_to_expiry)%Z
  then Raise (ValueError "Token does not need refresh yet")
  else
    let token_payload :=
      {| p_patient_id := patient_id patient_info;
         p_session_id := session_id patient_info;
         p_consent := asdict (consent patient_info);
         iat := (now - utc_offset)%Z;
         exp := (now + token_expiry_minutes * 60 - utc_offset)%Z |} in
    Ok (jwt_encode token_payload secret_key).

(** [revoke_consent]: [True] when the token verifies, [False] on any
    exception. *)
Definition revoke_consent (now : Z) (t : token) (consent_type : string) : bool :=
  match verify_token now t with
  | Ok _ => true
  | Raise _ => false
  end.

(** [len([k for k, v in consent.items() if v])] *)
Definition granted (consent : gmap string bool) : nat :=
  length (filter (fun kv => kv.2 = true) (map_to_list consent)).

(** [get_audit_info]; [isoformat t] stands for
    [datetime.fromtimestamp(t).isoformat()]. [jwt.decode] is called
    without leeway. *)
Definition get_audit_info (isoformat : Z -> str) (now : Z) (t : token)
    : gmap string str :=
  match jwt_decode t secret_key 0 now with
  | Ok claims =>
      list_to_map
        [("patient_id", take 8 (p_patient_id claims) ++ py "...");
         ("session_id", py (p_session_id claims));
         ("issued_at", isoformat (iat claims));
         ("expires_at", isoformat (exp claims));
         ("consent_flags", str_of_nat (granted (p_consent claims)))]
  | Raise _ => {[ "error" := py "Invalid token" ]}
  end.

(** The flags that [ConsentFlags] reads from a dict of known keys. *)
Definition flags_of_dict (kw : gmap string bool) : ConsentFlags :=
  {| audio_recording := default false (kw !! "audio_recording");
     transcription := default false (kw !! "transcription");
     ai_processing := default false (kw !! "ai_processing");
     data_storage := default false (kw !! "data_storage");
     summary_generation := default false (kw !! "summary_generation") |}.

End ConsentMore.

(* ===================================================================== *)
(** * The authentication of main.py *)
(* ===================================================================== *)

Module Api.

Import Consent.

(** What a handler can throw: an exception of the code below it, or the
    [HTTPException] that becomes the response. *)
Inductive thrown : Type :=
| Exn (e : exn)
| HTTPException (status_code : nat) (detail : string).

Inductive outcome (A : Type) : Type :=
| Returns (a : A)
| Throws (t : thrown).
Arguments Returns {A} a.
Arguments Throws {A} t.

(** The [try] block of [verify_auth_and_consent]. *)
Definition verify_auth_try (now : Z) (credentials : token) : outcome PatientInfo :=
  match verify_token now credentials with
  | Raise e => Throws (Exn e)
  | Ok patient_info =>
      if negb (has_required_consent patient_info)
      then Throws (HTTPException 403 "Insufficient consent permissions")
      else Returns patient_info
  end.

(** [verify_auth_and_consent]: [except Exception] also catches the
    [HTTPException] raised in the [try] block. *)
Definition verify_auth_and_consent (now : Z) (credentials : token)
    : outcome PatientInfo :=
  match verify_auth_try now credentials with
  | Returns patient_info => Returns patient_info
  | Throws _ => Throws (HTTPException 401 "Invalid authentication or consent")
  end.

Record AuthenticationResponse : Type := mkAuthenticationResponse {
  auth_status : string;
  auth_token : token;
  expires_in : Z
}.

(** The handler of [/api/v1/pre-care/authenticate]. *)
Definition authenticate_patient (sha256_hexdigest : str -> str) (now : Z)
    (uuid : string) (patient_id : str) (consent_flags : gmap string bool)
    : outcome AuthenticationResponse :=
  match Consent.authenticate_patient sha256_hexdigest now uuid patient_id
          consent_flags with
  | Ok t =>
      Returns {| auth_status := "success"; auth_token := t; expires_in := 900 |}
  | Raise _ => Throws (HTTPException 400 "Authentication failed")
  end.

End Api.

(* ===================================================================== *)
(** * The in-memory database (src/database/db_manager.py) *)
(* ===================================================================== *)

Module Database.

(** The values kept in the records. A list is kept by reference, as the
    record dicts are: [sessions] and [consultations] can hold the same
    dict object, and a dict holds its list of chunks. [PObj] stands for
    any other object (a transcription result, a dossier, a chunk, a
    summary); none of them has an [append] method. *)
Section Db.

Variable Any : Type.

Inductive pyval : Type :=
| PNone
| PStr (s : str)
| PInt (n : Z)
| PTime (t : Z)
| PObj (a : Any)
| PList (ref : nat).

Record db : Type := mkDb {
  dicts : gmap nat (gmap string pyval);
  lists : gmap nat (list pyval);
  next_ref : nat;
  sessions : gmap string nat;
  consultations : gmap string nat;
  summaries : gmap string (gmap string pyval);
  initialized : bool
}.

(** [DatabaseManager()] *)
Definition empty_db : db :=
  {| dicts := ∅; lists := ∅; next_ref := 0; sessions := ∅;
     consultations := ∅; summaries := ∅; initialized := false |}.

Definition initialize (d : db) : db :=
  {| dicts := dicts d; lists := lists d; next_ref := next_ref d;
     sessions := sessions d; consultations := consultations d;
     summaries := summaries d; initialized := true |}.

Definition health_check (d : db) : string :=
  if initialized d then "healthy" else "unhealthy".

(** The dict object behind a reference. *)
Definition deref (d : db) (r : nat) : gmap string pyval :=
  default ∅ (dicts d !! r).

(** A mutation of the dict object behind [r]. *)
Definition modify (r : nat) (f : gmap string pyval -> gmap string pyval)
    (d : db) : db :=
  {| dicts := <[r := f (deref d r)]> (dicts d); lists := lists d;
     next_ref := next_ref d; sessions := sessions d;
     consultations := consultations d; summaries := summaries d;
     initialized := initialized d |}.

(** A new dict object; its reference is the old [next_ref]. *)
Definition alloc_dict (o : gmap string pyval) (d : db) : db :=
  {| dicts := <[next_ref d := o]> (dicts d); lists := lists d;
     next_ref := S (next_ref d); sessions := sessions d;
     consultations := consultations d; summaries := summaries d;
     initialized := initialized d |}.

Definition alloc_list (l : list pyval) (d : db) : db :=
  {| dicts := dicts d; lists := <[next_ref d := l]> (lists d);
     next_ref := S (next_ref d); sessions := sessions d;
     consultations := consultations d; summaries := summaries d;
     initialized := initialized d |}.

Definition set_list (r : nat) (l : list pyval) (d : db) : db :=
  {| dicts := dicts d; lists := <[r := l]> (lists d);
     next_ref := next_ref d; sessions := sessions d;
     consultations := consultations d; summaries := summaries d;
     initialized := initialized d |}.

Definition set_session (sid : string) (r : nat) (d : db) : db :=
  {| dicts := dicts d; lists := lists d; next_ref := next_ref d;
     sessions := <[sid := r]> (sessions d);
     consultations := consultations d; summaries := summaries d;
     initialized := initialized d |}.

Definition set_consultation (sid : string) (r : nat) (d : db) : db :=
  {| dicts := dicts d; lists := lists d; next_ref := next_ref d;
     sessions := sessions d;
     consultations := <[sid := r]> (consultations d); summaries := summaries d;
     initialized := initialized d |}.

Definition set_summary (sid : string) (o : gmap string pyval) (d : db) : db :=
  {| dicts := dicts d; lists := lists d; next_ref := next_ref d;
     sessions := sessions d; consultations := consultations d;
     summaries := <[sid := o]> (summaries d);
     initialized := initialized d |}.

(** The [session_data] of [create_consultation_session]. *)
Definition session_data (session_id : string) (now : Z) (patient_id : str)
    (transcription dossier : pyval) : gmap string pyval :=
  list_to_map
    [("session_id", PStr (py session_id)); ("patient_id", PStr patient_id);
     ("transcription", transcription); ("dossier", dossier);
     ("created_at", PTime now); ("status", PStr (py "active"))].

(** [create_consultation_session]; [uuid] is the value drawn by
    [uuid.uuid4()] and [now] the reading of [datetime.utcnow()]. The
    same dict object goes into [sessions] and [consultations]. *)
Definition create_consultation_session (d : db) (uuid : string) (now : Z)
    (patient_id : str) (transcription dossier : pyval) : string * db :=
  let session_id := uuid in
  let r := next_ref d in
  let d := alloc_dict (session_data session_id now patient_id transcription dossier) d in
  let d := set_session session_id r d in
  let d := set_consultation session_id r d in
  (session_id, d).

(** [store_transcription_chunk]: nothing happens for an unknown session;
    a [chunks] entry that is no list has no [append]. *)
Definition store_transcription_chunk (d : db) (session_id : string)
    (chunk : pyval) : result db :=
  match sessions d !! session_id with
  | None => Ok d
  | Some r =>
      let d :=
        match deref d r !! "chunks" with
        | None =>
            let l := next_ref d in
            modify r (fun o => <["chunks" := PList l]> o) (alloc_list [] d)
        | Some _ => d
        end in
      match deref d r !! "chunks" with
      | Some (PList l) =>
          Ok (set_list l (default [] (lists d !! l) ++ [chunk]) d)
      | _ => Raise (Exception "AttributeError: object has no attribute 'append'")
      end
  end.

(** The minimal record that [update_consultation_session] creates. *)
Definition minimal_record (session_id : string) (now : Z) : gmap string pyval :=
  list_to_map
    [("session_id", PStr (py session_id)); ("created_at", PTime now);
     ("status", PStr (py "active"))].

Definition final_keys : list string :=
  ["clinician_summary"; "patient_summary"; "redacted_text"; "transcription"].

(** [any(k in data for k in [...])] *)
Definition looks_final (data : gmap string pyval) : bool :=
  existsb (fun k => bool_decide (is_Some (data !! k))) final_keys.

(** The second half of [update_consultation_session], on the dict
    objects [rs] of [sessions] and [rc] of [consultations]: the merge
    ([dict.update] lets the entries of [data] win), [updated_at], and the
    status when [data] looks final. *)
Definition merge_update (rs rc : nat) (data : gmap string pyval) (now_u : Z)
    (d : db) : db :=
  let d := modify rs (fun o => data ∪ o) d in
  let d := modify rc (fun o => data ∪ o) d in
  let d := modify rs (fun o => <["updated_at" := PTime now_u]> o) d in
  let d := modify rc (fun o =>
             <["updated_at" := default PNone (deref d rs !! "updated_at")]> o) d in
  if looks_final data then
    let d := modify rs (fun o => <["status" := PStr (py "completed")]> o) d in
    modify rc (fun o => <["status" := PStr (py "completed")]> o) d
  else d.

(** [update_consultation_session]; [now_s], [now_c] and [now_u] are the
    readings of [datetime.utcnow()] for the two minimal records and for
    [updated_at]. A missing record is created first, each on its own. *)
Definition update_consultation_session (d : db) (session_id : string)
    (data : gmap string pyval) (now_s now_c now_u : Z) : db :=
  let '(rs, d) :=
    match sessions d !! session_id with
    | Some r => (r, d)
    | None =>
        (next_ref d,
         set_session session_id (next_ref d)
           (alloc_dict (minimal_record session_id now_s) d))
    end in
  let '(rc, d) :=
    match consultations d !! session_id with
    | Some r => (r, d)
    | None =>
        (next_ref d,
         set_consultation session_id (next_ref d)
           (alloc_dict (minimal_record session_id now_c) d))
    end in
  merge_update rs rc data now_u d.

(** [get_consultation_data]: the record as it is now. *)
Definition get_consultation_data (d : db) (session_id : string)
    : option (gmap string pyval) :=
  match consultations d !! session_id with
  | Some r => Some (deref d r)
  | None => None
  end.

(** [store_summaries] *)
Definition store_summaries (d : db) (uuid : string) (now : Z)
    (session_id : string) (clinician_summary patient_summary : pyval) : db :=
  let summary_id := uuid in
  let summary_data : gmap string pyval :=
    list_to_map
      [("summary_id", PStr (py summary_id)); ("session_id", PStr (py session_id));
       ("clinician_summary", clinician_summary);
       ("patient_summary", patient_summary); ("created_at", PTime now)] in
  let d := set_summary summary_id summary_data d in
  match sessions d !! session_id with
  | Some r => modify r (fun o => <["summary_id" := PStr (py summary_id)]> o) d
  | None => d
  end.

(** What [session_data.get("chunks", [])] holds: the elements of the
    list, or the value itself when it is no list. *)
Inductive chunks_view : Type :=
| Chunks (l : list pyval)
| NotAList (v : pyval).

Record context : Type := mkContext {
  ctx_session_id : string;
  ctx_transcription : pyval;
  ctx_dossier : pyval;
  ctx_chunks : chunks_view;
  ctx_consultation : gmap string pyval
}.

Definition view_chunks (d : db) (o : gmap string pyval) : chunks_view :=
  match o !! "chunks" with
  | None => Chunks []
  | Some (PList l) => Chunks (default [] (lists d !! l))
  | Some v => NotAList v
  end.

(** [get_consultation_context] *)
Definition get_consultation_context (d : db) (session_id : string) : context :=
  let session_data :=
    match sessions d !! session_id with
    | Some r => deref d r
    | None => ∅
    end in
  let consultation_data :=
    match consultations d !! session_id with
    | Some r => deref d r
    | None => ∅
    end in
  {| ctx_session_id := session_id;
     ctx_transcription := default PNone (session_data !! "transcription");
     ctx_dossier := default PNone (session_data !! "dossier");
     ctx_chunks := view_chunks d session_data;
     ctx_consultation := consultation_data |}.

(** The chunks that are stored one after the other. *)
Fixpoint store_chunks (d : db) (session_id : string) (chunks : list pyval)
    : result db :=
  match chunks with
  | [] => Ok d
  | c :: chunks' =>
      let* d' := store_transcription_chunk d session_id c in
      store_chunks d' session_id chunks'
  end.

(** The dict object [r] holds the chunks [acc], in a list of its own or,
    when there are none, in no list yet. *)
Definition holds_chunks (d : db) (r : nat) (acc : list pyval) : Prop :=
  (deref d r !! "chunks" = None /\ acc = [])
  \/ (exists l, deref d r !! "chunks" = Some (PList l) /\ lists d !! l = Some acc).

(** The references of the records are references already given out. *)
Definition wf (d : db) : Prop :=
  (forall sid r, sessions d !! sid = Some r -> r < next_ref d)
  /\ (forall sid r, consultations d !! sid = Some r -> r < next_ref d).

(** The record that [update_consultation_session] leaves for a session
    whose consultation record was [old]. *)
Definition updated_record (data old : gmap string pyval) (now_u : Z)
    : gmap string pyval :=
  let o := <["updated_at" := PTime now_u]> (data ∪ old) in
  if looks_final data then <["status" := PStr (py "completed")]> o else o.

End Db.

Arguments PNone {Any}.
Arguments PStr {Any}.
Arguments PInt {Any}.
Arguments PTime {Any}.
Arguments PObj {Any}.
Arguments PList {Any}.
Arguments Chunks {Any}.
Arguments NotAList {Any}.
Arguments mkDb {Any}.
Arguments dicts {Any}.
Arguments lists {Any}.
Arguments next_ref {Any}.
Arguments sessions {Any}.
Arguments consultations {Any}.
Arguments summaries {Any}.
Arguments initialized {Any}.
Arguments empty_db {Any}.
Arguments initialize {Any}.
Arguments health_check {Any}.
Arguments deref {Any}.
Arguments modify {Any}.
Arguments alloc_dict {Any}.
Arguments alloc_list {Any}.
Arguments set_list {Any}.
Arguments set_session {Any}.
Arguments set_consultation {Any}.
Arguments set_summary {Any}.
Arguments session_data {Any}.
Arguments create_consultation_session {Any}.
Arguments store_transcription_chunk {Any}.
Arguments minimal_record {Any}.
Arguments looks_final {Any}.
Arguments update_consultation_session {Any}.
Arguments get_consultation_data {Any}.
Arguments store_summaries {Any}.
Arguments mkContext {Any}.
Arguments ctx_session_id {Any}.
Arguments ctx_transcription {Any}.
Arguments ctx_dossier {Any}.
Arguments ctx_chunks {Any}.
Arguments ctx_consultation {Any}.
Arguments view_chunks {Any}.
Arguments get_consultation_context {Any}.
Arguments store_chunks {Any}.
Arguments wf {Any}.
Arguments updated_record {Any}.
Arguments merge_update {Any}.
Arguments holds_chunks {Any}.

End Database.

(* ===================================================================== *)
(** * The mock transcriber (src/transcription/audio_processor.py) *)
(* ===================================================================== *)

Module AudioProcessor.

(** The values of a metadata dict: booleans, integers and strings. *)
Inductive meta : Type :=
| MBool (b : bool)
| MInt (n : Z)
| MStr (s : str).

(** [str(n)] for an integer. *)
Definition str_of_Z (n : Z) : str :=
  if (n <? 0)%Z then py "-" ++ str_of_nat (Z.to_nat (- n))
  else str_of_nat (Z.to_nat n).

(** The text that an f-string puts for a value. *)
Definition format (v : meta) : str :=
  match v with
  | MBool true => py "True"
  | MBool false => py "False"
  | MInt n => str_of_Z n
  | MStr s => s
  end.

Record TranscriptionResult : Type := mkTranscriptionResult {
  text : str;
  confidence : Q;
  timestamps : list (gmap string Provenance.value);
  metadata : gmap string meta
}.

Definition timestamp (start_time end_time : Q) (text : str)
    : gmap string Provenance.value :=
  list_to_map
    [("start_time", Provenance.VFloat start_time);
     ("end_time", Provenance.VFloat end_time);
     ("text", Provenance.VStr text)].

Definition mock_text : str :=
  py "Patient reports headache with pain level 7 out of 10. Duration approximately three days.".

(** [transcribe_audio]: the demo text, whatever the audio. *)
Definition transcribe_audio (audio_data : list Byte.byte) : TranscriptionResult :=
  {| text := mock_text;
     confidence := 95 # 100;
     timestamps :=
       [timestamp 0 (52 # 10) (py "Patient reports headache");
        timestamp (53 # 10) (101 # 10) (py "with pain level 7 out of 10");
        timestamp (102 # 10) (158 # 10) (py "Duration approximately three days")];
     metadata := list_to_map [("mock", MBool true); ("language", MStr (py "en"))] |}.

(** [transcribe_chunk]: the text names the [timestamp] of the metadata
    that the caller sent. *)
Definition transcribe_chunk (chunk_data : list Byte.byte)
    (metadata : gmap string meta) : TranscriptionResult :=
  let chunk_text :=
    py "Audio chunk transcribed at "
    ++ format (default (MInt 0) (metadata !! "timestamp")) in
  {| text := chunk_text;
     confidence := 90 # 100;
     timestamps := [timestamp 0 3 chunk_text];
     metadata := metadata |}.

End AudioProcessor.

(* ===================================================================== *)
(** * The mock summaries (src/summarization/summary_generator.py) *)
(* ===================================================================== *)

Module SummaryGenerator.

Record span : Type := mkSpan {
  start_time : Q;
  end_time : Q;
  transcript_ref : string
}.

(** An entry of [content]; [None] is an absent value. *)
Record entry : Type := mkEntry {
  bullet : string;
  provenance_id : option string;
  source_span : option span
}.

Record SummaryResult : Type := mkSummaryResult {
  content : list entry;
  summary_type : string;
  provenance_count : nat;
  metadata : gmap string AudioProcessor.meta
}.

Record transcript : Type := mkTranscript {
  t_text : str;
  t_metadata : gmap string AudioProcessor.meta
}.

Definition make_entry (include_provenance : bool) (bullet id : string)
    (start_time end_time : Q) (ref : string) : entry :=
  {| bullet := bullet;
     provenance_id := if include_provenance then Some id else None;
     source_span :=
       if include_provenance
       then Some {| start_time := start_time; end_time := end_time;
                    transcript_ref := ref |}
       else None |}.

(** [c.get("provenance_id")] as a condition. *)
Definition has_provenance (c : entry) : bool :=
  match provenance_id c with
  | Some id => negb (String.eqb id "")
  | None => false
  end.

Definition generate_clinician_summary (transcript_data : list transcript)
    (include_provenance : bool) : SummaryResult :=
  let content :=
    [make_entry include_provenance
       "Patient reports severe headaches, 3-week duration" "S1" 30 (365 # 10) "T1";
     make_entry include_provenance
       "Pain intensity 7-8/10, throbbing quality" "S2" 37 (423 # 10) "T2";
     make_entry include_provenance
       "Associated symptoms: photophobia, mild nausea" "S3" 90 (957 # 10) "T3"] in
  {| content := content;
     summary_type := "clinician";
     provenance_count := length (filter (fun c => has_provenance c = true) content);
     metadata :=
       list_to_map [("mock", AudioProcessor.MBool true);
                    ("model", AudioProcessor.MStr (py "mock-clinician-v1"))] |}.

Definition generate_patient_summary (transcript_data : list transcript)
    (include_provenance : bool) : SummaryResult :=
  let content :=
    [make_entry include_provenance
       "You've been experiencing severe headaches for about 3 weeks now"
       "S1" 30 (365 # 10) "T1";
     make_entry include_provenance
       "The pain you described as 7-8 out of 10 is quite intense"
       "S2" 37 (423 # 10) "T2";
     make_entry include_provenance
       "The light sensitivity and nausea you mentioned are common with migraines"
       "S3" 90 (957 # 10) "T3"] in
  {| content := content;
     summary_type := "patient";
     provenance_count := length (filter (fun c => has_provenance c = true) content);
     metadata :=
       list_to_map [("mock", AudioProcessor.MBool true);
                    ("model", AudioProcessor.MStr (py "mock-patient-v1"))] |}.

End SummaryGenerator.

(* ===================================================================== *)
(** * The audio handlers (src/main.py) *)
(* ===================================================================== *)

Module Handlers.

Import Consent Api Database.

(** The objects that the handlers put into the database. *)
Inductive object : Type :=
| OTranscription (t : AudioProcessor.TranscriptionResult)
| OChunk (c : Provenance.ProvenanceChunk)
| OSummary (s : SummaryGenerator.SummaryResult)
| ODict (d : gmap string AudioProcessor.meta).

(** The components that keep state: [db_manager] and the
    [provenance_map] of [provenance_engine]. *)
Record app : Type := mkApp {
  db_manager : db object;
  provenance_map : gmap string Provenance.ProvenanceChunk
}.

(** [s.split()]: the runs of characters between white space. [word] is
    the run being read, in reverse. *)
Fixpoint split_from (word : str) (s : str) : list str :=
  match s with
  | [] => match word with [] => [] | _ :: _ => [rev word] end
  | c :: s' =>
      if is_space c
      then match word with
           | [] => split_from [] s'
           | _ :: _ => rev word :: split_from [] s'
           end
      else split_from (c :: word) s'
  end.

Definition split (s : str) : list str := split_from [] s.

Record ChunkResponse : Type := mkChunkResponse {
  chunk_status : string;
  chunk_id : string;
  chunk_transcription : str
}.

(** The handler of [/api/v1/during-care/process-chunk], after its
    dependency [verify_auth_and_consent] has returned [patient_info];
    [uuid] is the value drawn in [map_provenance]. The chunk stays in
    the provenance map when the database raises. *)
Definition process_audio_chunk (st : app) (uuid : string)
    (session_id : string) (chunk_data : list Byte.byte)
    (chunk_metadata : gmap string AudioProcessor.meta)
    (patient_info : PatientInfo) : outcome ChunkResponse * app :=
  let chunk_transcription :=
    AudioProcessor.transcribe_chunk chunk_data chunk_metadata in
  let redacted_chunk :=
    PHIRedactor.redact_phi (AudioProcessor.text chunk_transcription) in
  let redacted_chunk_text := redacted_text redacted_chunk in
  let '(provenance_chunk, pm) :=
    Provenance.map_provenance (provenance_map st) uuid redacted_chunk_text
      (AudioProcessor.timestamps chunk_transcription) session_id in
  match store_transcription_chunk (db_manager st) session_id
          (PObj (OChunk provenance_chunk)) with
  | Ok d =>
      (Returns {| chunk_status := "success";
                  chunk_id := Provenance.chunk_id provenance_chunk;
                  chunk_transcription := Provenance.text provenance_chunk |},
       {| db_manager := d; provenance_map := pm |})
  | Raise _ =>
      (Throws (HTTPException 500 "Failed to process audio chunk"),
       {| db_manager := db_manager st; provenance_map := pm |})
  end.

Record ProcessingMetadata : Type := mkProcessingMetadata {
  audio_duration : AudioProcessor.meta;
  word_count : nat;
  processed_at : str
}.

Record AudioResponse : Type := mkAudioResponse {
  audio_status : string;
  audio_session_id : string;
  audio_transcription : str;
  clinician_summary : SummaryGenerator.SummaryResult;
  patient_summary : SummaryGenerator.SummaryResult;
  processing_metadata : ProcessingMetadata
}.

(** The readings of the clock and the values drawn in one call of
    [process_audio_file]: [time.time()] in [verify_token], the id and
    the time of the new session, the id of the provenance chunk, the
    three readings of [update_consultation_session] and the text of
    [datetime.now().isoformat()]. *)
Record drawn : Type := mkDrawn {
  now : Z;
  session_uuid : string;
  created : Z;
  chunk_uuid : string;
  now_s : Z;
  now_c : Z;
  now_u : Z;
  isoformat_now : str
}.

(** The dict [consultation_data]. *)
Definition consultation_data (session_id : string)
    (transcription : AudioProcessor.TranscriptionResult) (redacted_text : str)
    (provenance_data : Provenance.ProvenanceChunk)
    (clinician_summary patient_summary : SummaryGenerator.SummaryResult)
    : gmap string (pyval object) :=
  list_to_map
    [("session_id", PStr (py session_id));
     ("transcription", PObj (OTranscription transcription));
     ("redacted_text", PStr redacted_text);
     ("provenance", PObj (OChunk provenance_data));
     ("clinician_summary", PObj (OSummary clinician_summary));
     ("patient_summary", PObj (OSummary patient_summary))].

Section ProcessAudioFile.

Variable sha256_hexdigest : str -> str.

(** The [try] block of [process_audio_file]. *)
Definition process_audio_file_try (st : app) (x : drawn)
    (audio : list Byte.byte) (patient_id : str) (credentials : token)
    : outcome AudioResponse * app :=
  let token := credentials in
  match verify_token (now x) token with
  | Raise e => (Throws (Exn e), st)
  | Ok patient_info =>
      if negb (bool_decide (Consent.patient_id patient_info
                            = _hash_patient_id sha256_hexdigest patient_id))
      then (Throws (HTTPException 403 "Patient ID mismatch"), st)
      else
        let audio_data := audio in
        let '(session_id, d) :=
          create_consultation_session (db_manager st) (session_uuid x)
            (created x) (Consent.patient_id patient_info) PNone
            (PObj (ODict ∅)) in
        let transcription := AudioProcessor.transcribe_audio audio_data in
        let redaction_result :=
          PHIRedactor.redact_phi (AudioProcessor.text transcription) in
        let redacted_text := redacted_text redaction_result in
        let '(provenance_data, pm) :=
          Provenance.map_provenance (provenance_map st) (chunk_uuid x)
            redacted_text (AudioProcessor.timestamps transcription)
            session_id in
        let transcript_data :=
          [{| SummaryGenerator.t_text := redacted_text;
              SummaryGenerator.t_metadata :=
                AudioProcessor.metadata transcription |}] in
        let clinician_summary :=
          SummaryGenerator.generate_clinician_summary transcript_data true in
        let patient_summary :=
          SummaryGenerator.generate_patient_summary transcript_data true in
        let data :=
          consultation_data session_id transcription redacted_text
            provenance_data clinician_summary patient_summary in
        let d :=
          update_consultation_session d session_id data (now_s x) (now_c x)
            (now_u x) in
        (Returns
           {| audio_status := "success";
              audio_session_id := session_id;
              audio_transcription := AudioProcessor.text transcription;
              clinician_summary := clinician_summary;
              patient_summary := patient_summary;
              processing_metadata :=
                {| audio_duration :=
                     default (AudioProcessor.MInt 0)
                       (AudioProcessor.metadata transcription !! "duration");
                   word_count := length (split redacted_text);
                   processed_at := isoformat_now x |} |},
         {| db_manager := d; provenance_map := pm |})
  end.

(** [str(ve).lower()] has [word]. *)
Definition mentions (ve word : string) : bool :=
  contains (map to_lower (py ve)) (py word).

(** [process_audio_file]: a [ValueError] is answered by the first
    [except] clause, everything else that is thrown, the
    [HTTPException] of the [try] block too, by the second. *)
Definition process_audio_file (st : app) (x : drawn)
    (audio : list Byte.byte) (patient_id : str) (credentials : token)
    : outcome AudioResponse * app :=
  match process_audio_file_try st x audio patient_id credentials with
  | (Returns r, st') => (Returns r, st')
  | (Throws (Exn (ValueError ve)), st') =>
      if mentions ve "expired" || mentions ve "invalid"
      then (Throws (HTTPException 401 ve), st')
      else (Throws (HTTPException 400 ve), st')
  | (Throws _, st') =>
      (Throws (HTTPException 500 "Failed to process audio file"), st')
  end.

End ProcessAudioFile.

End Handlers.

(* ===================================================================== *)
(** * Facts about Python strings *)
(* ===================================================================== *)

Module PyStrFacts.

Lemma is_char_eq (a c : ascii) : is_char a c = true <-> a = c.
Proof.
  unfold is_char, code. rewrite N.eqb_eq. split; [|congruence].
  intros H. rewrite <- (ascii_N_embedding a), <- (ascii_N_embedding c).
  now rewrite H.
Qed.

Lemma is_char_refl (a : ascii) : is_char a a = true.
Proof. now apply is_char_eq. Qed.

Lemma starts_with_prefix (x s : str) :
  starts_with x s = true <-> x `prefix_of` s.
Proof.
  revert s. induction x as [|a x IH]; intros s; simpl.
  - split; [intros _; apply prefix_nil | reflexivity].
  - destruct s as [|c s].
    + split; [discriminate | intros H; now apply prefix_nil_not in H].
    + rewrite andb_true_iff, is_char_eq, IH. split.
      * intros [-> H]. now apply prefix_cons.
      * intros H. split; [eapply prefix_cons_inv_1 | eapply prefix_cons_inv_2];
          exact H.
Qed.

Lemma starts_with_drop (x s : str) :
  starts_with x s = true -> s = x ++ drop (length x) s.
Proof.
  rewrite starts_with_prefix. intros [k ->].
  now rewrite drop_app_length.
Qed.

Lemma occurs_prefix (x s : str) : x `prefix_of` s -> occurs x s.
Proof. intros [k ->]. now exists [], k. Qed.

Lemma occurs_cons (x : str) (c : ascii) (s : str) :
  occurs x s -> occurs x (c :: s).
Proof. intros (a & b & ->). now exists (c :: a), b. Qed.

Lemma occurs_cons_inv (x : str) (c : ascii) (s : str) :
  occurs x (c :: s) -> x `prefix_of` (c :: s) \/ occurs x s.
Proof.
  intros ([|c' a] & b & E); simpl in E.
  - left. now exists b.
  - right. injection E as _ ->. now exists a, b.
Qed.

Lemma occurs_app_r (x u s : str) : occurs x s -> occurs x (u ++ s).
Proof.
  intros H. induction u as [|c u IH]; [exact H | now apply occurs_cons].
Qed.

Lemma occurs_nil_inv (x : str) : occurs x [] -> x = [].
Proof.
  intros (a & b & E). symmetry in E.
  apply app_eq_nil in E as [_ E]. now apply app_eq_nil in E as [E _].
Qed.

(** A prefix stops before a character that the word does not have. *)
Lemma prefix_avoid (x u : str) (c : ascii) (v : str) :
  c ∉ x -> x `prefix_of` (u ++ c :: v) -> x `prefix_of` u.
Proof.
  revert x. induction u as [|d u IH]; intros [|a x] Hc H;
    try apply prefix_nil; simpl in H.
  - apply prefix_cons_inv_1 in H as ->. exfalso. apply Hc. left.
  - pose proof (prefix_cons_inv_1 _ _ _ _ H) as ->.
    apply prefix_cons, IH.
    + intros Hin. apply Hc. now right.
    + now apply prefix_cons_inv_2 in H.
Qed.

(** An occurrence avoids a character that the word does not have. *)
Lemma occurs_split (x u : str) (c : ascii) (v : str) :
  c ∉ x -> occurs x (u ++ c :: v) -> occurs x u \/ occurs x v.
Proof.
  intros Hc. induction u as [|d u IH]; simpl; intros H.
  - apply occurs_cons_inv in H as [H | H]; [|now right].
    left. apply occurs_prefix. now apply (prefix_avoid x [] c v).
  - apply occurs_cons_inv in H as [H | H].
    + left. apply occurs_prefix. now apply (prefix_avoid x (d :: u) c v).
    + destruct (IH H) as [H' | H']; [left; now apply occurs_cons | now right].
Qed.

Lemma contains_occurs (s x : str) : contains s x = true <-> occurs x s.
Proof.
  induction s as [|c s IH]; simpl.
  - rewrite orb_false_r, starts_with_prefix. split.
    + apply occurs_prefix.
    + intros H. apply occurs_nil_inv in H as ->. apply prefix_nil.
  - rewrite orb_true_iff, starts_with_prefix, IH. split.
    + intros [H | H]; [now apply occurs_prefix | now apply occurs_cons].
    + apply occurs_cons_inv.
Qed.

Lemma not_contains_occurs (s x : str) : contains s x = false <-> ~ occurs x s.
Proof. rewrite <- contains_occurs. now destruct (contains s x). Qed.

(** Skipping [k] characters is dropping them. *)
Lemma replace_from_skip (old new : str) (k : nat) (s : str) :
  replace_from old new k s = replace_from old new 0 (drop k s).
Proof.
  revert k. induction s as [|c s IH]; intros [|k]; simpl; try reflexivity.
  - apply IH.
Qed.

(** The scan, one occurrence or one character at a time. *)
Lemma replace_from_step (old new : str) (s : str) :
  old <> [] ->
  replace_from old new 0 s =
    if starts_with old s
    then new ++ replace_from old new 0 (drop (length old) s)
    else match s with
         | [] => []
         | c :: s' => c :: replace_from old new 0 s'
         end.
Proof.
  intros Hold. destruct s as [|c s].
  - simpl. destruct old; [congruence | reflexivity].
  - cbn [replace_from]. destruct (starts_with old (c :: s)); [|reflexivity].
    rewrite replace_from_skip. destruct old as [|a old]; [congruence|].
    simpl. now rewrite Nat.sub_0_r.
Qed.

End PyStrFacts.

(* ===================================================================== *)
(** * Facts about the matcher *)
(* ===================================================================== *)

Module ReFacts.

Lemma last_char_app (prev : option ascii) (u v : str) :
  last_char (last_char prev u) v = last_char prev (u ++ v).
Proof.
  unfold last_char. destruct v as [|c v] using rev_ind.
  - now rewrite app_nil_r.
  - now rewrite app_assoc, !last_snoc.
Qed.

Section Loop.

Variable step : option ascii -> str -> cont -> option str.
Variable L : str -> Prop.
Hypothesis step_sound : forall prev s k e,
  step prev s k = Some e ->
  exists w s', s = w ++ s' /\ L w /\ k (last_char prev w) s' = Some e.

Variables (lo : nat) (hi : option nat) (k : cont).

(** A successful loop went through some [m] more iterations. *)
Lemma rep_loop_sound (fuel n : nat) (prev : option ascii) (s : str) (e : str) :
  within hi n ->
  rep_loop step lo hi k fuel n prev s = Some e ->
  exists m w s',
    s = w ++ s' /\ iter L m w /\ lo <= n + m /\ within hi (n + m)
    /\ k (last_char prev w) s' = Some e.
Proof.
  revert n prev s.
  assert (Hstop : forall n prev s, within hi n ->
    (if lo <=? n then k prev s else None) = Some e ->
    exists m w s',
      s = w ++ s' /\ iter L m w /\ lo <= n + m /\ within hi (n + m)
      /\ k (last_char prev w) s' = Some e).
  { intros n prev s Hn H. destruct (Nat.leb_spec lo n); [|discriminate].
    exists 0, [], s. rewrite Nat.add_0_r. now repeat split. }
  induction fuel as [|fuel IH]; intros n prev s Hn; simpl; [now apply Hstop|].
  destruct (below hi n) eqn:Hb; [|now apply Hstop].
  destruct (step prev s _) as [e'|] eqn:Hs; [|now apply Hstop].
  intros [= ->]. apply step_sound in Hs as (u & s1 & -> & Hu & Hk).
  destruct (_ || _); [|discriminate].
  apply IH in Hk as (m & v & s2 & -> & Hv & Hlo & Hhi & Hk).
  - exists (S m), (u ++ v), s2. rewrite <- last_char_app, <- app_assoc.
    replace (n + S m) with (S n + m) by lia.
    repeat split; try assumption. now exists u, v.
  - destruct hi as [h|]; simpl in *; [|exact I].
    apply Nat.ltb_lt in Hb. lia.
Qed.

End Loop.

(** A successful run consumed a word of the pattern and then called its
    continuation on what is left. *)
Lemma run_sound (r : re) : forall prev s k e,
  run r prev s k = Some e ->
  exists w s', s = w ++ s' /\ lang r w /\ k (last_char prev w) s' = Some e.
Proof.
  induction r as [|p| |a IHa b IHb|a IHa b IHb|a IHa lo hi];
    intros prev s k e H; simpl in H.
  - now exists [], s.
  - destruct s as [|c s]; [discriminate|].
    destruct (p c) eqn:Hp; [|discriminate].
    exists [c], s. repeat split; [|exact H]. now exists c.
  - destruct (at_boundary prev s); [|discriminate]. now exists [], s.
  - apply IHa in H as (u & s1 & -> & Hu & H).
    apply IHb in H as (v & s2 & -> & Hv & H).
    exists (u ++ v), s2. rewrite <- last_char_app, <- app_assoc.
    repeat split; [|exact H]. now exists u, v.
  - destruct (run a prev s k) as [e'|] eqn:Ha.
    + injection H as ->. apply IHa in Ha as (w & s' & -> & Hw & H).
      exists w, s'. repeat split; [now left | exact H].
    + apply IHb in H as (w & s' & -> & Hw & H).
      exists w, s'. repeat split; [now right | exact H].
  - apply (rep_loop_sound (run a) (lang a) IHa) in H
      as (m & w & s' & -> & Hw & Hlo & Hhi & H).
    + exists w, s'. repeat split; [|exact H]. now exists m.
    + destruct hi; simpl; [lia | exact I].
Qed.

Lemma match_here_sound (r : re) (prev : option ascii) (s rest : str) :
  match_here r prev s = Some rest ->
  exists w, s = w ++ rest /\ lang r w.
Proof.
  unfold match_here. intros H.
  apply run_sound in H as (w & s' & -> & Hw & [= ->]). now exists w.
Qed.

(** Every match that [finditer] yields is a word of the pattern. *)
Lemma finditer_from_lang (r : re) (fuel : nat) : forall prev pos s m,
  m ∈ finditer_from fuel r prev pos s -> lang r (m_group m).
Proof.
  induction fuel as [|fuel IH]; intros prev pos s m; simpl.
  - intros H. now apply elem_of_nil in H.
  - assert (Hadv : m ∈ match s with
                       | [] => []
                       | c :: s' => finditer_from fuel r (Some c) (S pos) s'
                       end -> lang r (m_group m)).
    { destruct s as [|c s]; [intros H; now apply elem_of_nil in H | apply IH]. }
    destruct (match_here r prev s) as [rest|] eqn:Hm; [|exact Hadv].
    apply match_here_sound in Hm as (w & -> & Hw).
    replace (length (w ++ rest) - length rest) with (length w)
      by (rewrite length_app; lia).
    rewrite take_app_length.
    destruct (length w) eqn:Hl; intros Hin;
      apply elem_of_cons in Hin as [-> | Hin]; try exact Hw.
    + now apply Hadv.
    + now apply IH in Hin.
Qed.

Lemma finditer_lang (r : re) (s : str) (m : rmatch) :
  m ∈ finditer r s -> lang r (m_group m).
Proof. apply finditer_from_lang. Qed.

Lemma all_ascii_complete (c : ascii) : c ∈ all_ascii.
Proof.
  unfold all_ascii. rewrite <- (ascii_nat_embedding c).
  apply list_elem_of_fmap_2, elem_of_seq.
  pose proof (nat_ascii_bounded c). lia.
Qed.

Lemma class_sub_sound (p q : ascii -> bool) (c : ascii) :
  class_sub p q = true -> p c = true -> q c = true.
Proof.
  unfold class_sub. rewrite forallb_forall. intros H Hp.
  specialize (H c). rewrite Hp in H. apply H.
  apply list_elem_of_In, all_ascii_complete.
Qed.

Lemma all_chars_sound (q : ascii -> bool) (r : re) : forall w,
  all_chars q r = true -> lang r w -> Forall (fun c => q c = true) w.
Proof.
  induction r as [|p| |a IHa b IHb|a IHa b IHb|a IHa lo hi];
    intros w Hr Hw; simpl in *.
  - subst. constructor.
  - destruct Hw as (c & -> & Hp). repeat constructor.
    now apply (class_sub_sound p q).
  - subst. constructor.
  - apply andb_true_iff in Hr as [Ha Hb]. destruct Hw as (u & v & -> & Hu & Hv).
    apply Forall_app. split; [now apply IHa | now apply IHb].
  - apply andb_true_iff in Hr as [Ha Hb].
    destruct Hw as [Hw | Hw]; [now apply IHa | now apply IHb].
  - destruct Hw as (n & _ & _ & Hn). revert w Hn.
    induction n as [|n IHn]; intros w Hn; simpl in Hn.
    + subst. constructor.
    + destruct Hn as (u & v & -> & Hu & Hv). apply Forall_app.
      split; [now apply IHa | now apply IHn].
Qed.

Lemma some_char_sound (q : ascii -> bool) (r : re) : forall w,
  some_char q r = true -> lang r w -> Exists (fun c => q c = true) w.
Proof.
  induction r as [|p| |a IHa b IHb|a IHa b IHb|a IHa lo hi];
    intros w Hr Hw; simpl in *; try discriminate.
  - destruct Hw as (c & -> & Hp). constructor.
    now apply (class_sub_sound p q).
  - destruct Hw as (u & v & -> & Hu & Hv). apply Exists_app.
    apply orb_true_iff in Hr as [Ha | Hb]; [left; now apply IHa | right; now apply IHb].
  - apply andb_true_iff in Hr as [Ha Hb].
    destruct Hw as [Hw | Hw]; [now apply IHa | now apply IHb].
  - apply andb_true_iff in Hr as [Hlo Ha]. apply Nat.ltb_lt in Hlo.
    destruct Hw as ([|n] & Hn & _ & Hw); [lia|].
    destruct Hw as (u & v & -> & Hu & _). apply Exists_app. left. now apply IHa.
Qed.

End ReFacts.

(* ===================================================================== *)
(** * Facts about redaction *)
(* ===================================================================== *)

Module RedactionFacts.

Import PyStrFacts ReFacts.

Lemma bracket_false (c : ascii) :
  bracket c = false -> c <> "["%char /\ c <> "]"%char.
Proof.
  unfold bracket. intros H. apply orb_false_iff in H as [H1 H2].
  split; intros ->; now rewrite is_char_refl in *.
Qed.

Lemma token_tail_shape (t : str) :
  token_tail t = true ->
  exists m, t = m ++ ["]"%char] /\ Forall (fun c => token_mid c = true) m.
Proof.
  induction t as [|c t IH]; simpl; [discriminate|].
  destruct t as [|d t].
  - intros H. apply is_char_eq in H as <-. now exists [].
  - intros H. apply andb_true_iff in H as [Hc H].
    destruct (IH H) as (m & -> & Hm). exists (c :: m). split; [reflexivity|].
    now constructor.
Qed.

Lemma is_token_shape (t : str) :
  is_token t = true ->
  exists m, t = "["%char :: m ++ ["]"%char]
            /\ Forall (fun c => token_mid c = true) m.
Proof.
  destruct t as [|c t]; simpl; [discriminate|].
  intros H. apply andb_true_iff in H as [Hc H]. apply is_char_eq in Hc as <-.
  destruct (token_tail_shape t H) as (m & -> & Hm). now exists m.
Qed.

Lemma safe_not_nil (x : str) : safe x -> x <> [].
Proof. intros [_ H] ->. now apply Exists_nil in H. Qed.

Lemma safe_no_bracket (x : str) :
  safe x -> ("["%char ∉ x) /\ ("]"%char ∉ x).
Proof.
  intros [H _]. rewrite Forall_forall in H.
  split; intros Hin; apply H, bracket_false in Hin; tauto.
Qed.

Lemma occurs_Forall (P : ascii -> Prop) (x s : str) :
  occurs x s -> Forall P s -> Forall P x.
Proof.
  intros (a & b & ->) H.
  apply Forall_app in H as [_ H]. now apply Forall_app in H as [H _].
Qed.

(** A safe text does not occur inside a token. *)
Lemma safe_not_in_token_mid (x m : str) :
  safe x -> Forall (fun c => token_mid c = true) m -> ~ occurs x m.
Proof.
  intros [_ Hx] Hm Hocc. apply (occurs_Forall _ x m Hocc) in Hm.
  apply Exists_exists in Hx as (c & Hc & Hf).
  rewrite Forall_forall in Hm. specialize (Hm c Hc). congruence.
Qed.

(** An occurrence of a safe text in a token followed by [r] lies in [r]. *)
Lemma occurs_after_token (x t r : str) :
  safe x -> is_token t = true -> occurs x (t ++ r) -> occurs x r.
Proof.
  intros Hx Ht H. destruct (is_token_shape t Ht) as (m & -> & Hm).
  destruct (safe_no_bracket x Hx) as [Hl Hr].
  simpl in H. rewrite <- app_assoc in H. simpl in H.
  destruct (occurs_split x [] "["%char _ Hl H) as [H1 | H1].
  - apply occurs_nil_inv in H1. now apply safe_not_nil in Hx.
  - destruct (occurs_split x m "]"%char _ Hr H1) as [H2 | H2]; [|exact H2].
    now apply safe_not_in_token_mid in H2.
Qed.

(** A bracket-free prefix of the replaced text is read off the text
    itself, before the first replacement. *)
Lemma replace_from_prefix (old new : str) : forall s y,
  is_token new = true ->
  Forall (fun c => bracket c = false) y ->
  y `prefix_of` replace_from old new 0 s -> y `prefix_of` s.
Proof.
  intros s y Hnew. revert y.
  induction s as [|c s IH]; intros y Hy H; simpl in H; [exact H|].
  destruct y as [|a y]; [apply prefix_nil|].
  destruct (starts_with old (c :: s)).
  - destruct (is_token_shape new Hnew) as (m & -> & _). simpl in H.
    apply prefix_cons_inv_1 in H as ->.
    apply Forall_cons in Hy as [Hy _]. apply bracket_false in Hy. tauto.
  - pose proof (prefix_cons_inv_1 _ _ _ _ H) as ->.
    apply prefix_cons, IH.
    + now apply Forall_cons in Hy as [_ Hy].
    + now apply prefix_cons_inv_2 in H.
Qed.

(** Replacing [old] by a token brings no new occurrence of a safe text. *)
Lemma replace_from_no_new (x old new : str) :
  safe x -> is_token new = true -> old <> [] ->
  forall n s, length s <= n ->
    occurs x (replace_from old new 0 s) -> occurs x s.
Proof.
  intros Hx Hnew Hold. induction n as [|n IH]; intros s Hn.
  - destruct s; [|simpl in Hn; lia]. now simpl.
  - rewrite replace_from_step by exact Hold.
    destruct (starts_with old s) eqn:Hs.
    + intros H. apply occurs_after_token in H; [|assumption..].
      apply starts_with_drop in Hs. rewrite Hs. apply occurs_app_r.
      apply IH; [|exact H]. rewrite length_drop.
      destruct old; [congruence | simpl; lia].
    + destruct s as [|c s]; [now intros H|].
      intros H. apply occurs_cons_inv in H as [H | H].
      * apply occurs_prefix.
        destruct x as [|a x]; [apply prefix_nil|].
        pose proof (prefix_cons_inv_1 _ _ _ _ H) as ->.
        apply prefix_cons, (replace_from_prefix old new); [exact Hnew| |].
        -- destruct Hx as [Hx _]. now apply Forall_cons in Hx as [_ Hx].
        -- now apply prefix_cons_inv_2 in H.
      * apply occurs_cons, IH; [simpl in Hn; lia | exact H].
Qed.

(** Replacing a safe text by a token leaves no occurrence of it. *)
Lemma replace_from_removes (x new : str) :
  safe x -> is_token new = true ->
  forall n s, length s <= n -> ~ occurs x (replace_from x new 0 s).
Proof.
  intros Hx Hnew. pose proof (safe_not_nil x Hx) as Hnil.
  induction n as [|n IH]; intros s Hn.
  - destruct s; [|simpl in Hn; lia]. simpl. intros H.
    now apply occurs_nil_inv in H.
  - rewrite replace_from_step by exact Hnil.
    destruct (starts_with x s) eqn:Hs.
    + intros H. apply occurs_after_token in H; [|assumption..].
      revert H. apply IH. rewrite length_drop.
      assert (0 < length x) by (destruct x; [congruence | simpl; lia]). lia.
    + destruct s as [|c s]; [intros H; now apply occurs_nil_inv in H|].
      intros H. apply occurs_cons_inv in H as [H | H].
      * assert (Hp : x `prefix_of` c :: s).
        { destruct x as [|a x]; [apply prefix_nil|].
          pose proof (prefix_cons_inv_1 _ _ _ _ H) as ->.
          apply prefix_cons, (replace_from_prefix (c :: x) new); [exact Hnew| |].
          - destruct Hx as [Hx _]. now apply Forall_cons in Hx as [_ Hx].
          - now apply prefix_cons_inv_2 in H. }
        apply starts_with_prefix in Hp. congruence.
      * revert H. apply IH. simpl in Hn. lia.
Qed.

Lemma str_replace_no_new (x s old new : str) :
  safe x -> safe old -> is_token new = true ->
  occurs x (str_replace s old new) -> occurs x s.
Proof.
  intros Hx Hold Hnew. pose proof (safe_not_nil old Hold) as Hnil.
  destruct old as [|a old]; [congruence|]. simpl.
  now apply (replace_from_no_new x (a :: old) new Hx Hnew Hnil (length s)).
Qed.

Lemma str_replace_removes (x s new : str) :
  safe x -> is_token new = true -> ~ occurs x (str_replace s x new).
Proof.
  intros Hx Hnew. pose proof (safe_not_nil x Hx) as Hnil.
  destruct x as [|a x]; [congruence|]. simpl.
  now apply (replace_from_removes (a :: x) new Hx Hnew (length s)).
Qed.

(** A run of replacements brings back no safe text that was absent. *)
Lemma apply_redactions_no_new (x : str) (ds : list detection) : forall s,
  safe x -> Forall safe_detection ds ->
  ~ occurs x s -> ~ occurs x (apply_redactions ds s).
Proof.
  induction ds as [|d ds IH]; intros s Hx Hds Hs; simpl; [exact Hs|].
  apply Forall_cons in Hds as [[Hd Ht] Hds].
  apply IH; [exact Hx | exact Hds |].
  intros H. apply Hs. now apply (str_replace_no_new x s (original d) (replacement d)).
Qed.

(** After a run of replacements none of the replaced texts occurs. *)
Lemma apply_redactions_removes (ds : list detection) : forall s d,
  Forall safe_detection ds -> d ∈ ds ->
  ~ occurs (original d) (apply_redactions ds s).
Proof.
  induction ds as [|d0 ds IH]; intros s d Hds Hin; simpl.
  - now apply elem_of_nil in Hin.
  - pose proof Hds as Hall. apply Forall_cons in Hds as [[Hd0 Ht0] Hds].
    apply elem_of_cons in Hin as [-> | Hin].
    + apply apply_redactions_no_new; [exact Hd0 | exact Hds |].
      now apply str_replace_removes.
    + now apply IH.
Qed.

(** Every pattern of [phi_patterns], compiled with [re.IGNORECASE], has
    safe matches only. *)
Lemma phi_patterns_safe :
  forallb (fun '(_, r) => safe_pattern (ignorecase r)) phi_patterns = true.
Proof. vm_compute. reflexivity. Qed.

Lemma name_patterns_safe :
  forallb safe_pattern SimplePHIRedactor.name_patterns = true.
Proof. vm_compute. reflexivity. Qed.

Lemma safe_pattern_sound (r : re) (w : str) :
  safe_pattern r = true -> lang r w -> safe w.
Proof.
  unfold safe_pattern. intros H Hw. apply andb_true_iff in H as [Ha Hs]. split.
  - eapply Forall_impl; [exact (all_chars_sound _ r w Ha Hw)|].
    intros c Hc. now apply negb_true_iff.
  - eapply Exists_impl; [exact (some_char_sound _ r w Hs Hw)|].
    intros c Hc. now apply negb_true_iff.
Qed.

Lemma detect_patterns_with_safe (replacements : gmap string str) (text : str) :
  tokens_ok replacements = true ->
  Forall safe_detection (detect_patterns_with replacements text).
Proof.
  intros Htok. apply Forall_forall. intros d Hin.
  apply list_elem_of_In, in_flat_map in Hin as ([phi_type r] & Hp & Hd).
  apply in_map_iff in Hd as (m & <- & Hm).
  pose proof phi_patterns_safe as Hsafe.
  rewrite forallb_forall in Hsafe. specialize (Hsafe _ Hp). simpl in Hsafe.
  unfold tokens_ok in Htok.
  rewrite forallb_forall in Htok. specialize (Htok _ Hp). simpl in Htok.
  split; simpl; [|exact Htok].
  apply (safe_pattern_sound (ignorecase r)); [exact Hsafe|].
  now apply finditer_lang with (s := text), list_elem_of_In.
Qed.

Lemma detect_names_safe (text : str) :
  exists ds, SimplePHIRedactor._detect_names text = Ok ds
             /\ Forall safe_detection ds.
Proof.
  unfold SimplePHIRedactor._detect_names.
  eexists. split; [reflexivity|].
  apply Forall_forall. intros d Hin.
  apply list_elem_of_In, in_flat_map in Hin as (r & Hr & Hd).
  apply in_flat_map in Hd as (m & Hm & Hd).
  destruct (SimplePHIRedactor._is_medical_term (m_group m)); [destruct Hd|].
  destruct Hd as [<- | []]. split; simpl; [|reflexivity].
  pose proof name_patterns_safe as Hsafe.
  rewrite forallb_forall in Hsafe. specialize (Hsafe _ Hr).
  apply (safe_pattern_sound r); [exact Hsafe|].
  now apply finditer_lang with (s := text), list_elem_of_In.
Qed.

(** No pattern matches the empty string, so [finditer] always moves on
    from the end of a match. *)
Lemma detected_original_not_empty (replacements : gmap string str)
    (text : str) (d : detection) :
  tokens_ok replacements = true ->
  d ∈ detect_patterns_with replacements text -> original d <> [].
Proof.
  intros Htok Hd.
  pose proof (detect_patterns_with_safe replacements text Htok) as Hall.
  rewrite Forall_forall in Hall. destruct (Hall d Hd) as [Hs _].
  now apply safe_not_nil.
Qed.

(** The redacted text of [redact_phi] has none of the matched texts, for
    detectors whose detections are safe. *)
Lemma redact_phi_with_removes
    (detect_patterns detect_second : str -> result (list detection))
    (calculate_confidence : list detection -> str -> result PyFloat.float) (text : str) :
  (forall t ds, detect_patterns t = Ok ds -> Forall safe_detection ds) ->
  (forall t ds, detect_second t = Ok ds -> Forall safe_detection ds) ->
  let r := redact_phi_with detect_patterns detect_second calculate_confidence text in
  Forall (fun d => contains (redacted_text r) (original d) = false)
         (detected_phi r).
Proof.
  intros H1 H2. unfold redact_phi_with, redact_try.
  destruct (detect_patterns text) as [ds1|] eqn:E1; simpl; [|constructor].
  destruct (detect_second _) as [ds2|] eqn:E2; simpl; [|constructor].
  destruct (calculate_confidence _ _); simpl; [|constructor].
  apply H1 in E1. apply H2 in E2.
  apply Forall_app. split; apply Forall_forall; intros d Hd;
    apply not_contains_occurs.
  - apply apply_redactions_no_new; [|exact E2|].
    + rewrite Forall_forall in E1. now apply E1.
    + now apply apply_redactions_removes.
  - now apply apply_redactions_removes.
Qed.

End RedactionFacts.

(* ===================================================================== *)
(** * Facts about authentication and consent *)
(* ===================================================================== *)

Module ConsentFacts.

Import Consent.

Lemma ConsentFlags_of_dict (r t a s g : bool) :
  ConsentFlags_of (consent_dict r t a s g) = Ok (mkConsentFlags r t a s g).
Proof. vm_compute. reflexivity. Qed.

(** The flags survive [asdict] and the constructor call of [verify_token]. *)
Lemma ConsentFlags_of_asdict (c : ConsentFlags) :
  ConsentFlags_of (asdict c) = Ok c.
Proof. destruct c. vm_compute. reflexivity. Qed.

(** [utcfromtimestamp] returns for the timestamps of the years 1 to
    9999, and for no other. *)
Lemma year_of_timestamp_ok (t : Z) :
  (min_timestamp <= t <= max_timestamp)%Z <-> (1 <= year_of_timestamp t <= 9999)%Z.
Proof.
  unfold min_timestamp, max_timestamp, year_of_timestamp. cbv zeta.
  destruct (_ <? 10)%Z eqn:E1; destruct (_ <=? 2)%Z eqn:E2;
    rewrite ?Z.ltb_lt, ?Z.ltb_ge, ?Z.leb_le, ?Z.leb_gt in *;
    Z.div_mod_to_equations; lia.
Qed.

Lemma wrap32_year (y : Z) :
  (-2147483648 <= y - 1900 < 2147483648)%Z -> (1 <= wrap32 y <= 9999)%Z ->
  wrap32 y = y.
Proof. unfold wrap32. intros H1 H2. Z.div_mod_to_equations. lia. Qed.

Lemma wrap32_small (y : Z) : (1 <= y <= 9999)%Z -> wrap32 y = y.
Proof. unfold wrap32. intros H. Z.div_mod_to_equations. lia. Qed.

Lemma utcfromtimestamp_ok (t : Z) :
  datetime_ok t = true -> utcfromtimestamp t = Ok t.
Proof.
  unfold datetime_ok. rewrite andb_true_iff, !Z.leb_le. intros H.
  pose proof (proj1 (year_of_timestamp_ok t) H) as Hy.
  unfold min_timestamp, max_timestamp in H. unfold utcfromtimestamp. cbv zeta.
  replace (year_of_timestamp t - 1900 + 1900)%Z with (year_of_timestamp t) by lia.
  rewrite (wrap32_small _ Hy).
  destruct (Z.ltb_spec t (-9223372036854775808)); [lia|].
  destruct (Z.leb_spec 9223372036854775808 t); [lia|]. cbn [orb].
  destruct (Z.ltb_spec (year_of_timestamp t - 1900) (-2147483648)); [lia|].
  destruct (Z.leb_spec 2147483648 (year_of_timestamp t - 1900)); [lia|]. cbn [orb].
  destruct (Z.ltb_spec (year_of_timestamp t) 1); [lia|].
  destruct (Z.ltb_spec 9999 (year_of_timestamp t)); [lia|]. reflexivity.
Qed.

Lemma utcfromtimestamp_raise (t : Z) :
  datetime_ok t = false ->
  exists e, utcfromtimestamp t = Raise e /\ range_error e.
Proof.
  intros H. unfold utcfromtimestamp. cbv zeta.
  replace (year_of_timestamp t - 1900 + 1900)%Z with (year_of_timestamp t) by lia.
  destruct (_ || _)%Z; [eexists; split; [reflexivity | right; eauto]|].
  destruct (Z.ltb_spec (year_of_timestamp t - 1900) (-2147483648));
    [eexists; split; [reflexivity | right; eauto]|].
  destruct (Z.leb_spec 2147483648 (year_of_timestamp t - 1900));
    [eexists; split; [reflexivity | right; eauto]|]. cbn [orb].
  destruct (Z.ltb_spec (wrap32 (year_of_timestamp t)) 1);
    [eexists; split; [reflexivity | left; eauto]|].
  destruct (Z.ltb_spec 9999 (wrap32 (year_of_timestamp t)));
    [eexists; split; [reflexivity | left; eauto]|]. cbn [orb].
  exfalso.
  assert (Hy : (1 <= year_of_timestamp t <= 9999)%Z)
    by (rewrite <- (wrap32_year (year_of_timestamp t)); lia).
  apply year_of_timestamp_ok in Hy. unfold datetime_ok in H.
  apply andb_false_iff in H as [H|H]; rewrite Z.leb_gt in H; lia.
Qed.

Lemma utcfromtimestamp_inv (t t' : Z) :
  utcfromtimestamp t = Ok t' -> t' = t /\ datetime_ok t = true.
Proof.
  intros H. destruct (datetime_ok t) eqn:E.
  - rewrite (utcfromtimestamp_ok t E) in H. now injection H as <-.
  - destruct (utcfromtimestamp_raise t E) as (e & He & _). congruence.
Qed.

Section Issued.

Variable sha256_hexdigest : str -> str.
Variables (now0 : Z) (uuid : string) (patient_id : str).
Variables (recording transcribing ai storage summary : bool).

Local Abbreviation flags :=
  (mkConsentFlags recording transcribing ai storage summary).
Local Abbreviation tok :=
  (issued sha256_hexdigest now0 uuid patient_id flags).

Lemma authenticate_patient_eq :
  authenticate_patient sha256_hexdigest now0 uuid patient_id
    (consent_dict recording transcribing ai storage summary)
  = if recording && transcribing && ai then Ok tok
    else Raise ConsentInsufficient.
Proof.
  unfold authenticate_patient. rewrite ConsentFlags_of_dict.
  cbn [bind]. unfold _validate_minimum_consent.
  cbn [audio_recording transcription ai_processing].
  now destruct (recording && transcribing && ai).
Qed.

(** From its issue to its expiry (and up to 30 seconds before its issue)
    an issued token gets as far as the datetimes of its two timestamps. *)
Lemma verify_token_issued_eq (now : Z) :
  (now0 - 30 <= now <= now0 + 3600)%Z ->
  verify_token now tok =
    (let* authenticated_at := utcfromtimestamp now0 in
     let* expires_at := utcfromtimestamp (now0 + 3600) in
     Ok {| Consent.patient_id := _hash_patient_id sha256_hexdigest patient_id;
           session_id := uuid;
           consent := flags;
           authenticated_at := authenticated_at;
           expires_at := expires_at |}).
Proof.
  intros Hnow. unfold verify_token, verify_try, issued, jwt_encode, jwt_decode.
  rewrite bool_decide_eq_true_2 by reflexivity. cbn [negb iat exp].
  unfold token_expiry_minutes.
  destruct (Z.ltb_spec (now + 30) now0) as [H | _]; [lia|].
  destruct (Z.leb_spec (now0 + 60 * 60) (now - 30)) as [H | _]; [lia|].
  cbn [bind exp iat p_consent p_patient_id p_session_id].
  destruct (Z.ltb_spec (now0 + 60 * 60) now) as [H | _]; [lia|].
  rewrite andb_false_r, ConsentFlags_of_asdict. cbn [bind].
  change (60 * 60)%Z with 3600%Z.
  destruct (datetime_ok now0) eqn:E1.
  - rewrite (utcfromtimestamp_ok _ E1). cbn [bind].
    destruct (datetime_ok (now0 + 3600)) eqn:E2.
    + now rewrite (utcfromtimestamp_ok _ E2).
    + destruct (utcfromtimestamp_raise _ E2) as (e & -> & [[y ->] | [m ->]]);
        reflexivity.
  - destruct (utcfromtimestamp_raise _ E1) as (e & -> & [[y ->] | [m ->]]);
      reflexivity.
Qed.

(** For timestamps that a datetime can hold, the token is accepted, and
    the context carries the hash and the flags of the issue. *)
Lemma verify_token_issued (now : Z) :
  (now0 - 30 <= now <= now0 + 3600)%Z ->
  datetime_ok now0 = true -> datetime_ok (now0 + 3600) = true ->
  verify_token now tok =
    Ok {| Consent.patient_id := _hash_patient_id sha256_hexdigest patient_id;
          session_id := uuid;
          consent := flags;
          authenticated_at := now0;
          expires_at := now0 + 3600 |}.
Proof.
  intros Hnow E1 E2. rewrite verify_token_issued_eq by exact Hnow.
  now rewrite (utcfromtimestamp_ok _ E1), (utcfromtimestamp_ok _ E2).
Qed.

(** For other timestamps it is refused with the error of
    [utcfromtimestamp]. *)
Lemma verify_token_issued_out_of_range (now : Z) :
  (now0 - 30 <= now <= now0 + 3600)%Z ->
  datetime_ok now0 && datetime_ok (now0 + 3600) = false ->
  exists e, verify_token now tok = Raise e /\ range_error e.
Proof.
  intros Hnow E. rewrite verify_token_issued_eq by exact Hnow.
  destruct (datetime_ok now0) eqn:E1.
  - rewrite (utcfromtimestamp_ok _ E1). cbn [bind]. simpl in E.
    destruct (utcfromtimestamp_raise _ E) as (e & -> & He). eauto.
  - destruct (utcfromtimestamp_raise _ E1) as (e & -> & He). eauto.
Qed.

(** Past its expiry an issued token is refused as expired, with or
    without the 30 seconds of leeway. *)
Lemma verify_token_expired (now : Z) :
  (0 < now0 + 3600 < now)%Z ->
  verify_token now tok = Raise TokenExpired.
Proof.
  intros Hnow. unfold verify_token, verify_try, issued, jwt_encode, jwt_decode.
  rewrite bool_decide_eq_true_2 by reflexivity. cbn [negb iat exp].
  unfold token_expiry_minutes.
  destruct (Z.ltb_spec (now + 30) now0) as [H | _]; [lia|].
  destruct (Z.leb_spec (now0 + 60 * 60) (now - 30)) as [_ | _]; [reflexivity|].
  cbn [bind exp p_consent].
  destruct (Z.ltb_spec (now0 + 60 * 60) now) as [_ | H]; [|lia].
  destruct (Z.eqb_spec (now0 + 60 * 60) 0) as [H | _]; [lia|].
  reflexivity.
Qed.

(** Issuing and then verifying, while the token is valid: the context has
    the flags of the issue and the hash of the subject id. *)
Lemma verify_after_authenticate (now : Z) :
  recording && transcribing && ai = true ->
  (now0 - 30 <= now <= now0 + 3600)%Z ->
  datetime_ok now0 = true -> datetime_ok (now0 + 3600) = true ->
  (let* t := authenticate_patient sha256_hexdigest now0 uuid patient_id
               (consent_dict recording transcribing ai storage summary) in
   verify_token now t)
  = Ok {| Consent.patient_id := _hash_patient_id sha256_hexdigest patient_id;
          session_id := uuid;
          consent := flags;
          authenticated_at := now0;
          expires_at := now0 + 3600 |}.
Proof.
  intros Hmin Hnow E1 E2. rewrite authenticate_patient_eq, Hmin. cbn [bind].
  now apply verify_token_issued.
Qed.

End Issued.

End ConsentFacts.

(* ===================================================================== *)
(** * Facts about floats *)
(* ===================================================================== *)

Module PyFloatFacts.

Import PyFloat.

Lemma shr_1_nonneg (mrs : shr_record) :
  (0 <= shr_m mrs)%Z -> (0 <= shr_m (shr_1 mrs))%Z.
Proof.
  destruct mrs as [m r s]. simpl. intros H.
  destruct m as [|[p|p|]|p]; simpl; lia.
Qed.

Lemma iter_pos_shr_1_nonneg (n : positive) : forall mrs,
  (0 <= shr_m mrs)%Z -> (0 <= shr_m (SpecFloat.iter_pos shr_1 n mrs))%Z.
Proof.
  induction n as [n IH|n IH|]; intros mrs H; simpl.
  - apply IH, IH, shr_1_nonneg, H.
  - apply IH, IH, H.
  - apply shr_1_nonneg, H.
Qed.

Lemma shr_fexp_nonneg (m e : Z) (l : location) :
  (0 <= m)%Z -> (0 <= shr_m (shr_fexp prec emax m e l).1)%Z.
Proof.
  intros H. unfold shr_fexp, shr.
  assert (H0 : (0 <= shr_m (shr_record_of_loc m l))%Z)
    by (destruct l as [|[]]; exact H).
  destruct (_ - e)%Z; simpl; try exact H0.
  now apply iter_pos_shr_1_nonneg.
Qed.

Lemma round_nearest_even_nonneg (m : Z) (l : location) :
  (0 <= m)%Z -> (0 <= round_nearest_even m l)%Z.
Proof.
  intros H. destruct l as [|[]]; simpl; try lia. destruct (Z.even m); lia.
Qed.

Lemma binary_round_aux_not_negative (m e : Z) (l : location) :
  (0 <= m)%Z -> not_negative (binary_round_aux prec emax false m e l).
Proof.
  intros H. unfold binary_round_aux.
  pose proof (shr_fexp_nonneg m e l H) as H1.
  destruct (shr_fexp prec emax m e l) as [mrs' e'].
  pose proof (shr_fexp_nonneg _ e' loc_Exact
                (round_nearest_even_nonneg _ (loc_of_shr_record mrs') H1)) as H2.
  destruct (shr_fexp prec emax _ e' loc_Exact) as [mrs'' e''].
  simpl in H2. destruct (shr_m mrs''); simpl; [reflexivity| |lia].
  destruct (_ <=? _)%Z; reflexivity.
Qed.

Lemma of_Z_not_negative (n : Z) : (0 <= n)%Z -> not_negative (of_Z n).
Proof.
  intros H. unfold of_Z, binary_normalize. destruct n as [|p|p]; [reflexivity| |lia].
  unfold binary_round. destruct (shl_align _ _ _) as [mz ez].
  now apply binary_round_aux_not_negative.
Qed.

Lemma of_nat_not_negative (n : nat) : not_negative (of_nat n).
Proof. apply of_Z_not_negative. lia. Qed.

Lemma mul_not_negative (x y : float) :
  not_negative x -> not_negative y -> not_negative (mul x y).
Proof.
  destruct x as [sx|sx| |sx mx ex], y as [sy|sy| |sy my ey]; simpl;
    try (intros -> ->; reflexivity); try (intros; exact I).
  intros -> ->. now apply binary_round_aux_not_negative.
Qed.

Lemma add_not_negative (x y : float) :
  not_negative x -> not_negative y -> not_negative (add x y).
Proof.
  destruct x as [sx|sx| |sx mx ex], y as [sy|sy| |sy my ey]; simpl;
    try (intros -> ->; reflexivity); try (intros; exact I).
  intros -> ->. simpl.
  destruct (shl_align mx ex _) as [m1 e1], (shl_align my ey _) as [m2 e2].
  simpl. unfold binary_round. destruct (shl_align _ _ _) as [mz ez].
  now apply binary_round_aux_not_negative.
Qed.

Lemma div_not_negative (x y : float) :
  not_negative x -> not_negative y -> not_negative (div x y).
Proof.
  destruct x as [sx|sx| |sx mx ex], y as [sy|sy| |sy my ey]; simpl;
    try (intros -> ->; reflexivity); try (intros; exact I).
  intros -> ->. simpl. unfold SFdiv_core_binary.
  set (m' := match _ with Z.pos _ => _ | Z0 => _ | Z.neg _ => _ end).
  assert (Hm : (0 <= m')%Z).
  { subst m'. destruct (_ - _)%Z; try lia. apply Z.shiftl_nonneg. lia. }
  pose proof (Z.div_pos m' (Z.pos my) Hm eq_refl) as Hq.
  unfold Z.div in Hq. destruct (Z.div_eucl m' (Z.pos my)) as [q r].
  now apply binary_round_aux_not_negative.
Qed.

(** A value that is not negative and that compares is at least zero. *)
Lemma not_negative_leb (x y : float) :
  not_negative x -> ltb x y = true -> leb zero x = true.
Proof.
  unfold ltb, leb, SFltb, SFleb.
  destruct x as [sx|sx| |sx mx ex]; simpl; try (intros ->); try reflexivity.
  destruct y; discriminate.
Qed.

Lemma ltb_leb (x y : float) : ltb x y = true -> leb x y = true.
Proof.
  unfold ltb, leb, SFltb, SFleb. now destruct (SFcompare x y) as [[]|].
Qed.

(** [min(1.0, x)] lies between 0 and 1 for a value that is not negative. *)
Lemma min_one_bounds (x : float) :
  not_negative x ->
  leb zero (min one x) = true /\ leb (min one x) one = true.
Proof.
  intros H. unfold min. destruct (ltb x one) eqn:E.
  - split; [now apply (not_negative_leb x one) | now apply ltb_leb].
  - split; reflexivity.
Qed.

(** Shifting to the right divides by a power of two. *)
Lemma shr_1_div2 (mrs : shr_record) :
  (0 <= shr_m mrs)%Z -> shr_m (shr_1 mrs) = (shr_m mrs / 2)%Z.
Proof.
  destruct mrs as [m r s]. simpl. intros H.
  destruct m as [|[p|p|]|p]; simpl shr_m; try reflexivity; try lia.
  - rewrite Pos2Z.inj_xI. apply Z.div_unique with 1%Z; lia.
  - rewrite Pos2Z.inj_xO. apply Z.div_unique with 0%Z; lia.
Qed.

Lemma pow2_xO (n : positive) :
  (2 ^ Z.pos n~0 = 2 ^ Z.pos n * 2 ^ Z.pos n)%Z.
Proof.
  replace (Z.pos n~0) with (Z.pos n + Z.pos n)%Z by lia.
  apply Z.pow_add_r; lia.
Qed.

Lemma pow2_xI (n : positive) :
  (2 ^ Z.pos n~1 = 2 * (2 ^ Z.pos n * 2 ^ Z.pos n))%Z.
Proof.
  replace (Z.pos n~1) with (1 + (Z.pos n + Z.pos n))%Z by lia.
  rewrite !Z.pow_add_r by lia. now rewrite Z.pow_1_r.
Qed.

Lemma iter_pos_shr_1_div (n : positive) : forall mrs,
  (0 <= shr_m mrs)%Z ->
  shr_m (SpecFloat.iter_pos shr_1 n mrs) = (shr_m mrs / 2 ^ Z.pos n)%Z.
Proof.
  induction n as [n IH|n IH|]; intros mrs H; simpl SpecFloat.iter_pos.
  - rewrite IH, IH, shr_1_div2 by auto using shr_1_nonneg, iter_pos_shr_1_nonneg.
    assert (0 < 2 ^ Z.pos n)%Z by (apply Z.pow_pos_nonneg; lia).
    rewrite !Z.div_div by lia. now rewrite pow2_xI.
  - rewrite IH, IH by auto using iter_pos_shr_1_nonneg.
    assert (0 < 2 ^ Z.pos n)%Z by (apply Z.pow_pos_nonneg; lia).
    rewrite !Z.div_div by lia. now rewrite pow2_xO.
  - now rewrite shr_1_div2, Z.pow_1_r.
Qed.

Lemma digits2_pos_lower (m : positive) :
  (2 ^ (Z.pos (digits2_pos m) - 1) <= Z.pos m)%Z.
Proof.
  induction m as [m IH|m IH|]; simpl digits2_pos; [| |simpl; lia].
  - rewrite Pos2Z.inj_succ.
    replace (Z.succ (Z.pos (digits2_pos m)) - 1)%Z
      with (Z.succ (Z.pos (digits2_pos m) - 1))%Z by lia.
    rewrite Z.pow_succ_r by lia. lia.
  - rewrite Pos2Z.inj_succ.
    replace (Z.succ (Z.pos (digits2_pos m)) - 1)%Z
      with (Z.succ (Z.pos (digits2_pos m) - 1))%Z by lia.
    rewrite Z.pow_succ_r by lia. lia.
Qed.

(** Above the subnormal range, rounding a positive mantissa leaves a
    positive mantissa. *)
Lemma shr_fexp_positive (m : positive) (e : Z) (l : location) :
  (emin prec emax <= Z.pos (digits2_pos m) + e - prec)%Z ->
  (0 < shr_m (shr_fexp prec emax (Z.pos m) e l).1)%Z
  /\ (e <= (shr_fexp prec emax (Z.pos m) e l).2)%Z.
Proof.
  intros Hn. unfold shr_fexp, shr, fexp. simpl Zdigits2.
  rewrite Z.max_l by lia.
  assert (H0 : shr_m (shr_record_of_loc (Z.pos m) l) = Z.pos m)
    by (destruct l as [|[]]; reflexivity).
  destruct (_ - e)%Z as [|n|n] eqn:E; simpl; rewrite ?H0; try lia.
  split; [|lia].
  rewrite iter_pos_shr_1_div, H0 by (rewrite H0; lia).
  apply Z.div_str_pos. split; [apply Z.pow_pos_nonneg; lia|].
  pose proof (digits2_pos_lower m).
  assert (Z.pos n = Z.pos (digits2_pos m) - prec)%Z by lia.
  transitivity (2 ^ (Z.pos (digits2_pos m) - 1))%Z; [|assumption].
  apply Z.pow_le_mono_r; unfold prec in *; lia.
Qed.

Lemma binary_round_aux_positive (m : positive) (e : Z) (l : location) :
  (emin prec emax <= Z.pos (digits2_pos m) + e - prec)%Z ->
  (emin prec emax + prec <= e + 1)%Z ->
  match binary_round_aux prec emax false (Z.pos m) e l with
  | S754_finite false _ _ | S754_infinity false => True
  | _ => False
  end.
Proof.
  intros Hn He. unfold binary_round_aux.
  destruct (shr_fexp_positive m e l Hn) as [H1 H1e].
  destruct (shr_fexp prec emax (Z.pos m) e l) as [mrs' e']. simpl in H1, H1e.
  assert (H2 : (0 < round_nearest_even (shr_m mrs') (loc_of_shr_record mrs'))%Z).
  { destruct (loc_of_shr_record mrs') as [|[]]; simpl; try lia.
    destruct (Z.even _); lia. }
  destruct (round_nearest_even _ _) as [|m2|m2]; try lia.
  assert (Hn2 : (emin prec emax <= Z.pos (digits2_pos m2) + e' - prec)%Z)
    by (pose proof (Pos2Z.is_pos (digits2_pos m2)); lia).
  destruct (shr_fexp_positive m2 e' loc_Exact Hn2) as [H3 _].
  destruct (shr_fexp prec emax (Z.pos m2) e' loc_Exact) as [mrs'' e''].
  simpl in H3. destruct (shr_m mrs''); try lia.
  now destruct (_ <=? _)%Z.
Qed.

(** [float(n)] of a positive integer is positive: it is no zero (and
    dividing by it is no division by zero). *)
Lemma of_Z_positive (p : positive) :
  match of_Z (Z.pos p) with
  | S754_finite false _ _ | S754_infinity false => True
  | _ => False
  end.
Proof.
  unfold of_Z, binary_normalize, binary_round, shl_align, fexp.
  rewrite Z.max_l by (unfold emin, prec, emax; pose proof (Pos2Z.is_pos (digits2_pos p)); lia).
  destruct (_ - 0)%Z as [|d|d] eqn:E.
  - apply binary_round_aux_positive; unfold emin, prec, emax in *; lia.
  - apply binary_round_aux_positive; unfold emin, prec, emax in *; lia.
  - apply binary_round_aux_positive.
    + pose proof (Pos2Z.is_pos (digits2_pos (Pos.iter xO p d))).
      unfold emin, prec, emax in *. lia.
    + unfold emin, prec, emax in *. lia.
Qed.

End PyFloatFacts.

(* ===================================================================== *)
(** * Facts about the confidence score *)
(* ===================================================================== *)

Module ConfidenceFacts.

Import PyFloat PyFloatFacts RedactionFacts.

Lemma count_method_filter (name : string) (ds : list detection) :
  count_method name ds = length (filter (fun d => method d = name) ds).
Proof.
  unfold count_method. induction ds as [|d ds IH]; [reflexivity|].
  cbn [flat_map]. rewrite filter_cons.
  destruct (decide (method d = name)) as [E|E].
  - rewrite bool_decide_eq_true_2 by exact E. simpl. now rewrite IH.
  - rewrite bool_decide_eq_false_2 by exact E. simpl. exact IH.
Qed.

Lemma filter_all {A : Type} (P : A -> Prop) `{forall x, Decision (P x)} (l : list A) :
  Forall P l -> filter P l = l.
Proof.
  induction 1 as [|x l Hx _ IH]; [reflexivity|].
  rewrite filter_cons. destruct (decide (P x)); [now rewrite IH | contradiction].
Qed.

Lemma filter_none {A : Type} (P : A -> Prop) `{forall x, Decision (P x)} (l : list A) :
  Forall (fun x => ~ P x) l -> filter P l = [].
Proof.
  induction 1 as [|x l Hx _ IH]; [reflexivity|].
  rewrite filter_cons. destruct (decide (P x)); [contradiction | exact IH].
Qed.

Lemma count_method_all (name : string) (ds : list detection) :
  Forall (fun d => method d = name) ds -> count_method name ds = length ds.
Proof. intros H. now rewrite count_method_filter, filter_all. Qed.

Lemma count_method_none (name : string) (ds : list detection) :
  Forall (fun d => method d <> name) ds -> count_method name ds = 0.
Proof. intros H. now rewrite count_method_filter, filter_none. Qed.

Lemma detect_patterns_with_method (replacements : gmap string str) (text : str) :
  Forall (fun d => method d = "regex") (detect_patterns_with replacements text).
Proof.
  apply Forall_forall. intros d Hin.
  apply list_elem_of_In, in_flat_map in Hin as ([ty r] & _ & Hd).
  now apply in_map_iff in Hd as (m & <- & _).
Qed.

Lemma literal_not_negative (num den : Z) :
  (0 <= num)%Z -> (0 <= den)%Z -> not_negative (literal num den).
Proof.
  intros. apply div_not_negative; now apply of_Z_not_negative.
Qed.

(** The score is between 0 and 1, whatever the detections are. *)
Lemma calculate_confidence_bounds (ds : list detection) (t : str) :
  leb zero (PHIRedactor._calculate_confidence ds t) = true
  /\ leb (PHIRedactor._calculate_confidence ds t) one = true.
Proof.
  destruct ds as [|d ds]; [split; reflexivity|].
  unfold PHIRedactor._calculate_confidence. apply min_one_bounds.
  apply div_not_negative; [|apply of_nat_not_negative].
  apply add_not_negative; apply mul_not_negative;
    auto using of_nat_not_negative, literal_not_negative with lia.
Qed.

(** The score in terms of the numbers of detections of each method. *)
Lemma calculate_confidence_eq (ds : list detection) (t : str) :
  PHIRedactor._calculate_confidence ds t
  = match ds with
    | [] => one
    | _ :: _ =>
        min one
          (div (add (mul (of_nat (length (filter (fun d => method d = "regex") ds)))
                         (literal 9 10))
                    (mul (of_nat (length (filter (fun d => method d = "nlp") ds)))
                         (literal 7 10)))
               (of_nat (length ds)))
    end.
Proof.
  destruct ds as [|d ds]; [reflexivity|].
  unfold PHIRedactor._calculate_confidence. now rewrite !count_method_filter.
Qed.

(** One detection gets the weight of its method. *)
Lemma calculate_confidence_single (d : detection) (t : str) :
  PHIRedactor._calculate_confidence [d] t
  = if bool_decide (method d = "regex") then literal 9 10
    else if bool_decide (method d = "nlp") then literal 7 10
    else zero.
Proof.
  unfold PHIRedactor._calculate_confidence, count_method. cbn [flat_map].
  destruct (bool_decide (method d = "regex")) eqn:E1.
  - apply bool_decide_eq_true_1 in E1.
    rewrite (bool_decide_eq_false_2 (method d = "nlp")) by (rewrite E1; discriminate).
    vm_compute. reflexivity.
  - destruct (bool_decide (method d = "nlp")); vm_compute; reflexivity.
Qed.

Lemma add_zero_r (x : float) :
  not_negative x -> add x (mul (of_nat 0) (literal 7 10)) = x.
Proof.
  change (mul (of_nat 0) (literal 7 10)) with zero.
  destruct x as [s|s| |s m e]; simpl; try reflexivity; now intros ->.
Qed.

(** Detections that are all by pattern are scored by their number. *)
Lemma calculate_confidence_regex (ds : list detection) (t : str) :
  Forall (fun d => method d = "regex") ds ->
  PHIRedactor._calculate_confidence ds t = score_of_count (length ds).
Proof.
  intros H. destruct ds as [|d ds]; [reflexivity|].
  unfold PHIRedactor._calculate_confidence, score_of_count.
  rewrite (count_method_all "regex") by exact H.
  rewrite (count_method_none "nlp").
  2:{ eapply Forall_impl; [exact H|]. intros x ->. discriminate. }
  rewrite add_zero_r; [reflexivity|].
  apply mul_not_negative; [apply of_nat_not_negative|].
  apply literal_not_negative; lia.
Qed.

(** What [PHIRedactor.redact_phi] detects is detected by pattern. *)
Lemma redact_phi_methods (text : str) :
  Forall (fun d => method d = "regex")
         (detected_phi (PHIRedactor.redact_phi text)).
Proof.
  unfold PHIRedactor.redact_phi, redact_phi_with, redact_try.
  cbn [bind detected_phi PHIRedactor._detect_entities]. rewrite app_nil_r.
  apply detect_patterns_with_method.
Qed.

(** How [PHIRedactor.redact_phi] scores what it detects. *)
Lemma redact_phi_score (text : str) :
  confidence_score (PHIRedactor.redact_phi text)
  = PHIRedactor._calculate_confidence
      (detected_phi (PHIRedactor.redact_phi text)) text.
Proof. reflexivity. Qed.

Lemma simple_redact_phi_score (text : str) :
  confidence_score (SimplePHIRedactor.redact_phi text) = one.
Proof.
  unfold SimplePHIRedactor.redact_phi, redact_phi_with, redact_try.
  cbn [bind]. destruct (detect_names_safe
    (apply_redactions (SimplePHIRedactor._detect_patterns text) text))
    as (ds & -> & _).
  cbn [bind confidence_score]. now destruct (_ ++ _).
Qed.

End ConfidenceFacts.

(* ===================================================================== *)
(** * The redactors on texts of tests/test_redaction.py *)
(* ===================================================================== *)

Module Examples.

(** The date of birth goes; the address pattern matched from the year of
    the date on, which is gone by the time of its replacement, so the
    street stays. *)
Example redact_first_sample :
  let r := PHIRedactor.redact_phi
             (py "Patient John Smith was born on 01/15/1985 and lives at 123 Main Street.") in
  redacted_text r
  = py "Patient John Smith was born on [DOB_REDACTED] and lives at 123 Main Street."
  /\ map type (detected_phi r) = ["date_birth"; "address"]
  /\ map original (detected_phi r)
     = [py "01/15/1985"; py "1985 and lives at 123 Main Street"].
Proof. vm_compute. repeat split. Qed.

(** The simplified redactor finds names in the text redacted so far. *)
Example redact_first_sample_simple :
  let r := SimplePHIRedactor.redact_phi
             (py "Patient John Smith was born on 01/15/1985 and lives at 123 Main Street.") in
  redacted_text r
  = py "[NAME_REDACTED] Smith was born on [DOB_REDACTED] and lives at 123 [NAME_REDACTED]."
  /\ map type (detected_phi r) = ["date_birth"; "address"; "name"; "name"; "name"]
  /\ map original (detected_phi r)
     = [py "01/15/1985"; py "1985 and lives at 123 Main Street";
        py "Patient John"; py "Main Street"; py "Patient John"].
Proof. vm_compute. repeat split. Qed.

(** [test_redaction_validation] *)
Example validate_redacted_sample :
  let original := py "Patient John Doe, SSN 123-45-6789, reports pain." in
  let r := PHIRedactor.redact_phi original in
  redacted_text r = py "Patient John Doe, SSN [SSN_REDACTED], reports pain."
  /\ PHIRedactor.validate_redaction original (redacted_text r) = true.
Proof. vm_compute. split; reflexivity. Qed.

(** The scenario of the specification in the simplified redactor. *)
Example ssn_scenario_simple :
  let r := SimplePHIRedactor.redact_phi
             (py "SSN 123-45-6789, patient reports headache 7/10") in
  redacted_text r = py "SSN [SSN_REDACTED], patient reports headache 7/10"
  /\ map type (detected_phi r) = ["ssn"].
Proof. vm_compute. split; reflexivity. Qed.

(** [str.replace] passes over an occurrence once it is replaced. *)
Example str_replace_overlap :
  str_replace (py "aaa") (py "aa") (py "[X]") = py "[X]a"
  /\ str_replace (py "abc") [] (py "-") = py "-a-b-c-".
Proof. vm_compute. split; reflexivity. Qed.

(** The references of a chunk with three timestamps or more. *)
Example refs_upto_3 :
  Provenance.refs_upto 3 = [py "S1"; py "S2"; py "S3"].
Proof. vm_compute. reflexivity. Qed.

End Examples.

(* ===================================================================== *)
(** * The properties of the specification *)
(* ===================================================================== *)

Import Consent Provenance.
Import PyStrFacts ReFacts RedactionFacts ConsentFacts ConfidenceFacts.

(** C1: for every input text (of code points below 256), the redacted
    text of [redact_phi] contains none of the matched texts ([original])
    recorded in [detected_phi]; this holds for the redactor of
    phi_redactor.py and for the one of simple_phi_redactor.py. *)
Theorem C1_redacted_text_has_no_matched_text (text : str) :
  Forall (fun d =>
            contains (redacted_text (PHIRedactor.redact_phi text)) (original d)
            = false)
         (detected_phi (PHIRedactor.redact_phi text))
  /\ Forall (fun d =>
               contains (redacted_text (SimplePHIRedactor.redact_phi text))
                        (original d) = false)
            (detected_phi (SimplePHIRedactor.redact_phi text)).
Proof.
  split.
  - apply redact_phi_with_removes.
    + intros t ds [= <-]. now apply detect_patterns_with_safe.
    + intros t ds [= <-]. constructor.
  - apply redact_phi_with_removes.
    + intros t ds [= <-]. now apply detect_patterns_with_safe.
    + intros t ds E. destruct (detect_names_safe t) as (ds' & E' & Hs).
      rewrite E in E'. now injection E' as ->.
Qed.

(** C2: if a detector (or the scoring step) of [redact_phi] raises, the
    call returns the failure result: its redacted text is the marker
    [TEXT_REDACTION_FAILED] and its list of matches is empty, whatever
    had been redacted before the error. *)
Theorem C2_redact_phi_fails_closed
    (detect_patterns detect_second : str -> result (list detection))
    (calculate_confidence : list detection -> str -> result PyFloat.float)
    (text : str) (e : exn) :
  detect_patterns text = Raise e
  \/ (exists ds, detect_patterns text = Ok ds
                 /\ detect_second (apply_redactions ds text) = Raise e)
  \/ (exists ds ds', detect_patterns text = Ok ds
                     /\ detect_second (apply_redactions ds text) = Ok ds'
                     /\ calculate_confidence (ds ++ ds') text = Raise e) ->
  let r := redact_phi_with detect_patterns detect_second calculate_confidence text in
  r = redaction_failed text
  /\ redacted_text r = py "[TEXT_REDACTION_FAILED]"
  /\ detected_phi r = [].
Proof.
  intros H r.
  assert (Hr : r = redaction_failed text); [|now rewrite Hr].
  subst r. unfold redact_phi_with, redact_try.
  destruct H as [E | [(ds & E1 & E2) | (ds & ds' & E1 & E2 & E3)]].
  - now rewrite E.
  - rewrite E1. cbn [bind]. now rewrite E2.
  - rewrite E1. cbn [bind]. rewrite E2. cbn [bind]. now rewrite E3.
Qed.

(** The entity detector fails after the pattern detector has found and
    replaced a social security number: nothing of the text is returned. *)
Lemma C2_redact_phi_fails_closed_witness :
  let text := py "SSN 123-45-6789, patient reports headache 7/10" in
  let r := redact_phi_with (fun t => Ok (PHIRedactor._detect_patterns t))
             (fun _ => Raise (Exception "entity model not loaded"))
             (fun ds t => Ok (PHIRedactor._calculate_confidence ds t)) text in
  r = redaction_failed text
  /\ redacted_text r = py "[TEXT_REDACTION_FAILED]"
  /\ detected_phi r = [].
Proof.
  apply (C2_redact_phi_fails_closed _ _ _ _ (Exception "entity model not loaded")).
  right. left. eexists. split; reflexivity.
Defined.

(** C3 (the code departs from it): a token issued at 1700000000 with its
    time-to-live of 3600 seconds verifies one second before its expiry
    and is refused as expired 31 seconds after it. One second after its
    expiry, within the 30 seconds of leeway, [jwt.decode] accepts it, but
    the direct comparison of the timestamps that follows refuses it as
    expired all the same. *)
Theorem C3_verify_token_refuses_within_leeway (sha256_hexdigest : str -> str)
    (uuid : string) (patient_id : str) :
  let t0 := 1700000000%Z in
  let tok := issued sha256_hexdigest t0 uuid patient_id
               (mkConsentFlags true true true false false) in
  authenticate_patient sha256_hexdigest t0 uuid patient_id
    (consent_dict true true true false false) = Ok tok
  /\ (exists info, verify_token (t0 + 3600 - 1) tok = Ok info)
  /\ (exists claims, jwt_decode tok secret_key 30 (t0 + 3600 + 1) = Ok claims)
  /\ verify_token (t0 + 3600 + 1) tok = Raise TokenExpired
  /\ verify_token (t0 + 3600 + 30 + 1) tok = Raise TokenExpired.
Proof.
  intros t0 tok. split; [|split; [|split; [|split]]].
  - apply authenticate_patient_eq.
  - eexists. apply verify_token_issued; [subst t0; lia | reflexivity..].
  - eexists. reflexivity.
  - apply verify_token_expired. subst t0. lia.
  - apply verify_token_expired. subst t0. lia.
Qed.

(** C5: [authenticate_patient] raises the insufficient-consent error
    exactly when one of the recording, transcription and AI-processing
    flags is false, whatever the storage and summary flags are; with the
    three flags true it returns the signed token. *)
Theorem C5_issue_requires_minimum_consent (sha256_hexdigest : str -> str)
    (now : Z) (uuid : string) (patient_id : str)
    (recording transcribing ai storage summary : bool) :
  authenticate_patient sha256_hexdigest now uuid patient_id
    (consent_dict recording transcribing ai storage summary)
  = if recording && transcribing && ai
    then Ok (issued sha256_hexdigest now uuid patient_id
               (mkConsentFlags recording transcribing ai storage summary))
    else Raise ConsentInsufficient.
Proof. apply authenticate_patient_eq. Qed.

(** C6 (as the code has it): on the text
    [SSN 123-45-6789, patient reports headache 7/10] the redacted text is
    [SSN [SSN_REDACTED], patient reports headache 7/10] (the label before
    the number stays) and there is exactly one match, of type [ssn]. *)
Theorem C6_ssn_scenario :
  let r := PHIRedactor.redact_phi
             (py "SSN 123-45-6789, patient reports headache 7/10") in
  redacted_text r = py "SSN [SSN_REDACTED], patient reports headache 7/10"
  /\ map type (detected_phi r) = ["ssn"]
  /\ map original (detected_phi r) = [py "123-45-6789"].
Proof. vm_compute. repeat split. Qed.

(** The redacted text of the scenario is not the one the specification
    gives. *)
Lemma C6_ssn_scenario_counterexample :
  ~ (let r := PHIRedactor.redact_phi
                (py "SSN 123-45-6789, patient reports headache 7/10") in
     redacted_text r = py "[SSN_REDACTED], patient reports headache 7/10"
     /\ map type (detected_phi r) = ["ssn"]).
Proof. vm_compute. intros [H _]. discriminate H. Qed.

(** C7 (as the code has it): the confidence of [PHIRedactor.redact_phi]
    is the score that [_calculate_confidence] gives to its detections,
    which are all by pattern.
    For every list of detections that score lies between 0.0 and 1.0; it
    is exactly 1.0 for no detection; otherwise it is, in the arithmetic
    of doubles, the smaller of 1.0 and
    (0.9 * detections by pattern + 0.7 * detections by entity recognition)
    over the number of detections. One detection by pattern scores 0.9,
    one by entity recognition 0.7, which is less. The simplified
    redactor scores 1.0 for every text, whatever it detects. *)
Theorem C7_confidence_score (text : str) (ds : list detection) (t : str)
    (d : detection) :
  let score := PHIRedactor._calculate_confidence in
  confidence_score (PHIRedactor.redact_phi text)
  = score (detected_phi (PHIRedactor.redact_phi text)) text
  /\ Forall (fun d => method d = "regex")
            (detected_phi (PHIRedactor.redact_phi text))
  /\ (PyFloat.leb PyFloat.zero (score ds t) = true
      /\ PyFloat.leb (score ds t) PyFloat.one = true)
  /\ score ds t
     = match ds with
       | [] => PyFloat.one
       | _ :: _ =>
           PyFloat.min PyFloat.one
             (PyFloat.div
                (PyFloat.add
                   (PyFloat.mul
                      (PyFloat.of_nat
                         (length (filter (fun d => method d = "regex") ds)))
                      (PyFloat.literal 9 10))
                   (PyFloat.mul
                      (PyFloat.of_nat
                         (length (filter (fun d => method d = "nlp") ds)))
                      (PyFloat.literal 7 10)))
                (PyFloat.of_nat (length ds)))
       end
  /\ score [d] t
     = (if bool_decide (method d = "regex") then PyFloat.literal 9 10
        else if bool_decide (method d = "nlp") then PyFloat.literal 7 10
        else PyFloat.zero)
  /\ PyFloat.ltb (PyFloat.literal 7 10) (PyFloat.literal 9 10) = true
  /\ confidence_score (SimplePHIRedactor.redact_phi text) = PyFloat.one.
Proof.
  intros score. subst score.
  split; [apply redact_phi_score|].
  split; [apply redact_phi_methods|].
  split; [apply calculate_confidence_bounds|].
  split; [apply calculate_confidence_eq|].
  split; [apply calculate_confidence_single|].
  split; [reflexivity|].
  apply simple_redact_phi_score.
Qed.

(** C7 (as it was stated) fails for the simplified redactor: no two
    weights, the structured one above the heuristic one, make its score
    the weighted ratio both on a text with one detection by pattern and
    on a text with one detection by a name pattern; it scores 1.0 on
    both. *)
Lemma C7_confidence_score_counterexample :
  ~ exists w_structured w_heuristic : Q,
      (w_heuristic < w_structured)%Q
      /\ scores_weighted_ratio w_structured w_heuristic
           (SimplePHIRedactor.redact_phi (py "SSN 123-45-6789"))
      /\ scores_weighted_ratio w_structured w_heuristic
           (SimplePHIRedactor.redact_phi (py "Seen by Dr. Johnson today")).
Proof.
  intros (ws & wh & Hlt & (q1 & Hv1 & Hq1) & (q2 & Hv2 & Hq2)).
  rewrite simple_redact_phi_score in Hv1, Hv2.
  assert (Hone : forall q, PyFloat.value PyFloat.one = Some q -> (q == 1)%Q).
  { intros q H. vm_compute in H. injection H as <-. reflexivity. }
  apply Hone in Hv1, Hv2.
  assert (E1 : weighted_ratio ws wh
                 (detected_phi (SimplePHIRedactor.redact_phi (py "SSN 123-45-6789")))
               = ((1 * ws + 0 * wh) / 1)%Q) by (vm_compute; reflexivity).
  assert (E2 : weighted_ratio ws wh
                 (detected_phi (SimplePHIRedactor.redact_phi
                                  (py "Seen by Dr. Johnson today")))
               = ((0 * ws + 1 * wh) / 1)%Q) by (vm_compute; reflexivity).
  rewrite E1 in Hq1. rewrite E2 in Hq2.
  assert (H1 : (ws == 1)%Q).
  { transitivity ((1 * ws + 0 * wh) / 1)%Q; [field|].
    now rewrite <- Hq1. }
  assert (H2 : (wh == 1)%Q).
  { transitivity ((0 * ws + 1 * wh) / 1)%Q; [field|].
    now rewrite <- Hq2. }
  rewrite H1, H2 in Hlt. now apply Qlt_irrefl in Hlt.
Qed.

(** C8: without timestamps the chunk of [map_provenance] has the window
    0.0 to 30.0, otherwise its times are read from the first timestamp
    (with the same defaults for a missing key); its references are S1 to
    Sk in order, for k the smaller of 3 and the number of timestamps. *)
Theorem C8_map_provenance_span (provenance_map : gmap string ProvenanceChunk)
    (uuid : string) (text : str) (timestamps : list (gmap string value))
    (session_id : string) :
  let chunk := (map_provenance provenance_map uuid text timestamps session_id).1 in
  (start_time chunk, end_time chunk)
  = match timestamps with
    | [] => (VFloat 0, VFloat 30)
    | first :: _ => (default (VFloat 0) (first !! "start_time"),
                     default (VFloat 30) (first !! "end_time"))
    end
  /\ provenance_refs chunk = take (length timestamps) [py "S1"; py "S2"; py "S3"]
  /\ length (provenance_refs chunk) = min 3 (length timestamps).
Proof.
  intros chunk. subst chunk. unfold map_provenance.
  destruct timestamps as [|a [|b [|c ts]]];
    cbn [fst start_time end_time provenance_refs length Nat.min take];
    rewrite ?take_nil;
    (split; [reflexivity | split; [vm_compute; reflexivity | reflexivity]]).
Qed.

(** C9: [check_operation_consent] answers [False] for every operation
    outside the five known ones, whatever the consent flags are. *)
Theorem C9_unknown_operation_denied (patient_info : PatientInfo)
    (operation : string) :
  operation ∉ operation_vocabulary ->
  check_operation_consent patient_info operation = false.
Proof.
  intros H. unfold check_operation_consent, operation_requirements.
  unfold operation_vocabulary in H. rewrite !not_elem_of_cons in H.
  destruct H as (H1 & H2 & H3 & H4 & H5 & _). cbn [list_to_map foldr fst snd].
  rewrite !lookup_insert_ne by congruence. now rewrite lookup_empty.
Qed.

Lemma C9_unknown_operation_denied_witness :
  check_operation_consent
    (mkPatientInfo (py "0123456789abcdef") "session"
       (mkConsentFlags true true true true true) 0 3600)
    "delete_data" = false.
Proof.
  apply C9_unknown_operation_denied. unfold operation_vocabulary.
  rewrite !not_elem_of_cons. repeat split; try discriminate.
  apply not_elem_of_nil.
Defined.

(** C10: the answer of [validate_redaction] does not depend on its
    [original] argument, in either redactor. *)
Theorem C10_validate_redaction_ignores_original (original1 original2 redacted : str) :
  PHIRedactor.validate_redaction original1 redacted
  = PHIRedactor.validate_redaction original2 redacted
  /\ SimplePHIRedactor.validate_redaction original1 redacted
     = SimplePHIRedactor.validate_redaction original2 redacted.
Proof. split; reflexivity. Qed.

(* ===================================================================== *)
(** * Where the matches lie in the subject *)
(* ===================================================================== *)

Module SpanFacts.

Import PyStrFacts ReFacts.

Lemma in_span_shift (pos n : nat) (s : str) (m : rmatch) :
  n <= length s -> in_span (pos + n) (drop n s) m -> in_span pos s m.
Proof.
  intros Hn (H1 & H2 & H3 & H4). rewrite length_drop in H3.
  repeat split; try lia.
  rewrite H4, drop_drop. do 2 f_equal. lia.
Qed.

Lemma finditer_from_span (r : re) (fuel : nat) : forall prev pos s m,
  m ∈ finditer_from fuel r prev pos s -> in_span pos s m.
Proof.
  induction fuel as [|fuel IH]; intros prev pos s m; simpl.
  - intros H. now apply elem_of_nil in H.
  - assert (Hadv : m ∈ match s with
                       | [] => []
                       | c :: s' => finditer_from fuel r (Some c) (S pos) s'
                       end -> in_span pos s m).
    { destruct s as [|c s]; [intros H; now apply elem_of_nil in H|].
      intros H. apply IH in H. apply (in_span_shift pos 1 (c :: s)).
      - simpl. lia.
      - now replace (pos + 1) with (S pos) by lia. }
    destruct (match_here r prev s) as [rest|] eqn:Hm; [|exact Hadv].
    apply match_here_sound in Hm as (w & -> & Hw).
    replace (length (w ++ rest) - length rest) with (length w)
      by (rewrite length_app; lia).
    assert (Hhere : in_span pos (w ++ rest)
                      (RMatch pos (pos + length w) (take (length w) (w ++ rest)))).
    { unfold in_span. simpl. rewrite length_app.
      repeat split; try lia.
      replace (pos + length w - pos) with (length w) by lia.
      now rewrite Nat.sub_diag. }
    destruct (length w) eqn:Hl; intros Hin;
      apply elem_of_cons in Hin as [-> | Hin]; try exact Hhere.
    + now apply Hadv.
    + apply IH in Hin. rewrite <- Hl in Hin.
      apply (in_span_shift pos (length w)); [rewrite length_app; lia | exact Hin].
Qed.

(** [m.group()] is [text[m.start():m.end()]], inside the text. *)
Lemma finditer_span (r : re) (text : str) (m : rmatch) :
  m ∈ finditer r text ->
  m_start m <= m_end m /\ m_end m <= length text
  /\ m_group m = take (m_end m - m_start m) (drop (m_start m) text).
Proof.
  intros H. apply finditer_from_span in H as (_ & H2 & H3 & H4).
  rewrite Nat.sub_0_r in H4. now repeat split.
Qed.

Lemma finditer_occurs (r : re) (text : str) (m : rmatch) :
  m ∈ finditer r text -> occurs (m_group m) text.
Proof.
  intros H. apply finditer_span in H as (_ & _ & ->).
  exists (take (m_start m) text),
         (drop (m_end m - m_start m) (drop (m_start m) text)).
  now rewrite take_drop, take_drop.
Qed.

(** The matches of one scan come in the order of the text and do not
    overlap. *)
Lemma finditer_from_sorted (r : re) (fuel : nat) : forall prev pos s,
  StronglySorted before (finditer_from fuel r prev pos s).
Proof.
  induction fuel as [|fuel IH]; intros prev pos s; simpl; [constructor|].
  assert (Hadv : StronglySorted before
                   match s with
                   | [] => []
                   | c :: s' => finditer_from fuel r (Some c) (S pos) s'
                   end).
  { destruct s; [constructor | apply IH]. }
  destruct (match_here r prev s) as [rest|] eqn:Hm; [|exact Hadv].
  destruct (length s - length rest) as [|n] eqn:Hn.
  - constructor; [exact Hadv|]. apply Forall_forall. intros m Hin.
    unfold before. simpl. destruct s as [|c s]; [now apply elem_of_nil in Hin|].
    apply finditer_from_span in Hin as (H1 & _). lia.
  - constructor; [apply IH|]. apply Forall_forall. intros m Hin.
    apply finditer_from_span in Hin as (H1 & _). exact H1.
Qed.

Lemma finditer_sorted (r : re) (text : str) :
  StronglySorted before (finditer r text).
Proof. apply finditer_from_sorted. Qed.

End SpanFacts.


(* ===================================================================== *)
(** * Further facts about redaction *)
(* ===================================================================== *)

Module RedactionMoreFacts.

Import PyStrFacts ReFacts RedactionFacts SpanFacts.

Lemma slice_occurs (text : str) (a b : nat) : occurs (slice text a b) text.
Proof.
  exists (take a text), (drop (b - a) (drop a text)).
  unfold slice. now rewrite take_drop, take_drop.
Qed.

Lemma pattern_match_not_empty (ty : string) (r : re) (text : str) (m : rmatch) :
  (ty, r) ∈ phi_patterns -> m ∈ finditer (ignorecase r) text -> m_group m <> [].
Proof.
  intros Hp Hm. apply safe_not_nil, (safe_pattern_sound (ignorecase r)).
  - pose proof phi_patterns_safe as Hs. rewrite forallb_forall in Hs.
    apply list_elem_of_In in Hp. exact (Hs _ Hp).
  - now apply finditer_lang with (s := text).
Qed.

Lemma detect_patterns_with_spans (replacements : gmap string str) (text : str) :
  Forall (spans text) (detect_patterns_with replacements text).
Proof.
  apply Forall_forall. intros d Hin.
  apply list_elem_of_In, in_flat_map in Hin as ([ty r] & Hp & Hd).
  apply in_map_iff in Hd as (m & <- & Hm).
  apply list_elem_of_In in Hp, Hm.
  pose proof (pattern_match_not_empty ty r text m Hp Hm) as Hne.
  destruct (finditer_span _ _ _ Hm) as (H1 & H2 & H3).
  unfold spans, slice. simpl. repeat split; [|exact H2|exact H3].
  destruct (decide (m_start m < m_end m)) as [|Hge]; [assumption|].
  exfalso. apply Hne. rewrite H3.
  replace (m_end m - m_start m) with 0 by lia. reflexivity.
Qed.

Lemma name_match_not_empty (r : re) (text : str) (m : rmatch) :
  r ∈ SimplePHIRedactor.name_patterns -> m ∈ finditer r text -> m_group m <> [].
Proof.
  intros Hr Hm. apply safe_not_nil, (safe_pattern_sound r).
  - pose proof name_patterns_safe as Hs. rewrite forallb_forall in Hs.
    apply list_elem_of_In in Hr. exact (Hs _ Hr).
  - now apply finditer_lang with (s := text).
Qed.

Lemma detect_names_spans (text : str) :
  exists ds, SimplePHIRedactor._detect_names text = Ok ds
             /\ Forall (spans text) ds.
Proof.
  unfold SimplePHIRedactor._detect_names.
  eexists. split; [reflexivity|].
  apply Forall_forall. intros d Hin.
  apply list_elem_of_In, in_flat_map in Hin as (r & Hr & Hd).
  apply in_flat_map in Hd as (m & Hm & Hd).
  destruct (SimplePHIRedactor._is_medical_term (m_group m)); [destruct Hd|].
  destruct Hd as [<- | []].
  apply list_elem_of_In in Hr, Hm.
  pose proof (name_match_not_empty r text m Hr Hm) as Hne.
  destruct (finditer_span _ _ _ Hm) as (H1 & H2 & H3).
  unfold spans, slice. simpl. repeat split; [|exact H2|exact H3].
  destruct (decide (m_start m < m_end m)) as [|Hge]; [assumption|].
  exfalso. apply Hne. rewrite H3.
  replace (m_end m - m_start m) with 0 by lia. reflexivity.
Qed.

Lemma spans_occurs (text : str) (d : detection) :
  spans text d -> occurs (original d) text.
Proof. intros (_ & _ & ->). apply slice_occurs. Qed.

End RedactionMoreFacts.


(* ===================================================================== *)
(** * Further properties of the redactors *)
(* ===================================================================== *)

Module RedactionProperties.

Import PyStrFacts ReFacts RedactionFacts SpanFacts RedactionMoreFacts ConfidenceFacts.


Lemma sorted_detections (f : rmatch -> detection) (l : list rmatch) :
  (forall m, start_pos (f m) = m_start m /\ end_pos (f m) = m_end m) ->
  StronglySorted before l -> StronglySorted precedes (map f l).
Proof.
  intros Hf. induction 1 as [|m l Hs IH Hall]; simpl; constructor; [exact IH|].
  apply Forall_forall. intros d Hd.
  apply list_elem_of_In, in_map_iff in Hd as (m' & <- & Hm').
  rewrite Forall_forall in Hall. apply list_elem_of_In in Hm'.
  specialize (Hall m' Hm'). unfold precedes, before in *.
  destruct (Hf m) as [_ ->]. destruct (Hf m') as [-> _]. exact Hall.
Qed.

Lemma of_type_sorted (replacements : gmap string str) (text : str) (ty : string)
    (ps : list (string * re)) :
  NoDup (map fst ps) ->
  StronglySorted precedes
    (of_type ty
       (flat_map (fun '(phi_type, pattern) =>
          map (fun m =>
            {| type := phi_type;
               original := m_group m;
               replacement := default (py "[PHI_REDACTED]") (replacements !! phi_type);
               start_pos := m_start m;
               end_pos := m_end m;
               method := "regex" |})
            (finditer (ignorecase pattern) text)) ps)).
Proof.
  unfold of_type. induction ps as [|[ty' r] ps IH]; intros Hnd; simpl.
  - constructor.
  - apply NoDup_cons in Hnd as [Hfresh Hnd]. rewrite filter_app.
    destruct (decide (ty' = ty)) as [->|Hne].
    + rewrite filter_all.
      2:{ apply Forall_forall. intros d Hd.
          apply list_elem_of_In, in_map_iff in Hd as (m & <- & _). reflexivity. }
      rewrite (filter_none _ (flat_map _ ps)).
      2:{ apply Forall_forall. intros d Hd.
          apply list_elem_of_In, in_flat_map in Hd as ([ty'' r''] & Hp & Hd).
          apply in_map_iff in Hd as (m & <- & _). simpl. intros ->.
          apply Hfresh. apply list_elem_of_In, in_map_iff.
          now exists (ty, r''). }
      rewrite app_nil_r. apply sorted_detections; [now intros m|].
      apply finditer_sorted.
    + rewrite filter_none.
      2:{ apply Forall_forall. intros d Hd.
          apply list_elem_of_In, in_map_iff in Hd as (m & <- & _). exact Hne. }
      now apply IH.
Qed.

(** X2: among the detections by pattern, those of one PHI type come in
    the order of the text and do not overlap: each ends before the next
    one of its type starts. *)
Theorem X2_detections_of_a_type_do_not_overlap (text : str) (ty : string) :
  StronglySorted precedes (of_type ty (PHIRedactor._detect_patterns text))
  /\ StronglySorted precedes (of_type ty (SimplePHIRedactor._detect_patterns text)).
Proof.
  assert (Hnd : NoDup (map fst phi_patterns)).
  { simpl. repeat (apply NoDup_cons; split; [rewrite ?not_elem_of_cons;
      repeat split; try discriminate; apply not_elem_of_nil|]).
    apply NoDup_nil_2. }
  split; apply of_type_sorted; exact Hnd.
Qed.

Lemma phi_patterns_need_digit_or_at :
  forallb (fun '(_, r) => needs_digit_or_at (ignorecase r)) phi_patterns = true.
Proof. vm_compute. reflexivity. Qed.

Lemma detect_patterns_with_plain (replacements : gmap string str) (text : str) :
  forallb (fun c => negb (digit_or_at c)) text = true ->
  detect_patterns_with replacements text = [].
Proof.
  intros Hplain.
  destruct (detect_patterns_with replacements text) as [|d ds] eqn:E; [reflexivity|].
  exfalso.
  assert (Hin : d ∈ detect_patterns_with replacements text)
    by (rewrite E; left).
  unfold detect_patterns_with in Hin.
  apply list_elem_of_In, in_flat_map in Hin as ([ty r] & Hp & Hd).
  apply in_map_iff in Hd as (m & _ & Hm).
  pose proof phi_patterns_need_digit_or_at as Hneed.
  rewrite forallb_forall in Hneed. specialize (Hneed _ Hp). simpl in Hneed.
  apply list_elem_of_In in Hm.
  pose proof (finditer_lang _ _ _ Hm) as Hl.
  apply (some_char_sound _ _ _ Hneed) in Hl.
  apply Exists_exists in Hl as (c & Hc & Hq).
  destruct (finditer_occurs _ _ _ Hm) as (a & b & Ht).
  rewrite forallb_forall in Hplain.
  assert (Hct : In c text).
  { rewrite Ht. apply in_or_app. right. apply in_or_app. left.
    now apply list_elem_of_In. }
  specialize (Hplain c Hct). rewrite Hq in Hplain. discriminate.
Qed.

(** X3: a text with no digit and no at sign comes back from
    [PHIRedactor.redact_phi] unchanged, with no detection and confidence
    1.0: every pattern needs one of the two. *)
Theorem X3_text_without_digit_or_at_is_unchanged (text : str) :
  forallb (fun c => negb (digit_or_at c)) text = true ->
  PHIRedactor.redact_phi text
  = {| original_text := text;
       redacted_text := text;
       detected_phi := [];
       confidence_score := PyFloat.one |}.
Proof.
  intros H. unfold PHIRedactor.redact_phi, redact_phi_with, redact_try.
  cbn [bind]. unfold PHIRedactor._detect_patterns.
  rewrite (detect_patterns_with_plain _ _ H). reflexivity.
Qed.

Lemma X3_text_without_digit_or_at_is_unchanged_witness :
  let text := py "Patient reports chronic headache, Dr. Johnson at Oak Street" in
  PHIRedactor.redact_phi text
  = {| original_text := text;
       redacted_text := text;
       detected_phi := [];
       confidence_score := PyFloat.one |}.
Proof.
  apply X3_text_without_digit_or_at_is_unchanged. reflexivity.
Defined.

(** Something detected means something changed, for detectors that
    report safe slices of the text they read. *)
Lemma redact_phi_with_changes
    (detect_patterns detect_second : str -> result (list detection))
    (calculate_confidence : list detection -> str -> result PyFloat.float) (text : str) :
  (forall t ds, detect_patterns t = Ok ds ->
     Forall safe_detection ds /\ Forall (spans t) ds) ->
  (forall t ds, detect_second t = Ok ds ->
     Forall safe_detection ds /\ Forall (spans t) ds) ->
  let r := redact_phi_with detect_patterns detect_second calculate_confidence text in
  match detected_phi r with
  | [] => True
  | _ :: _ => redacted_text r <> text
  end.
Proof.
  intros H1 H2.
  pose proof (redact_phi_with_removes detect_patterns detect_second
                calculate_confidence text
                (fun t ds E => proj1 (H1 t ds E))
                (fun t ds E => proj1 (H2 t ds E))) as Hrem.
  cbv zeta in *. unfold redact_phi_with, redact_try in *.
  destruct (detect_patterns text) as [ds1|] eqn:E1; cbn [bind] in *; [|exact I].
  destruct (detect_second _) as [ds2|] eqn:E2; cbn [bind] in *; [|exact I].
  destruct (calculate_confidence _ _); cbn [bind detected_phi redacted_text] in *;
    [|exact I].
  apply H1 in E1 as [_ S1]. apply H2 in E2 as [_ S2].
  destruct ds1 as [|d ds1].
  - simpl in *. destruct ds2 as [|d ds2]; [exact I|].
    apply Forall_cons in Hrem as [Hd _]. apply Forall_cons in S2 as [Sd _].
    apply not_contains_occurs in Hd. intros Heq. apply Hd.
    rewrite Heq. now apply spans_occurs.
  - rewrite <- app_comm_cons in Hrem |- *.
    apply Forall_cons in Hrem as [Hd _]. apply Forall_cons in S1 as [Sd _].
    apply not_contains_occurs in Hd. intros Heq. apply Hd.
    rewrite Heq. now apply spans_occurs.
Qed.

Lemma PHIRedactor_detectors_ok :
  (forall t ds, (fun t => Ok (PHIRedactor._detect_patterns t)) t = Ok ds ->
     Forall safe_detection ds /\ Forall (spans t) ds)
  /\ (forall t ds, (fun t => Ok (PHIRedactor._detect_entities t)) t = Ok ds ->
        Forall safe_detection ds /\ Forall (spans t) ds).
Proof.
  split; intros t ds [= <-].
  - split; [now apply detect_patterns_with_safe | apply detect_patterns_with_spans].
  - split; constructor.
Qed.

Lemma SimplePHIRedactor_detectors_ok :
  (forall t ds, (fun t => Ok (SimplePHIRedactor._detect_patterns t)) t = Ok ds ->
     Forall safe_detection ds /\ Forall (spans t) ds)
  /\ (forall t ds, SimplePHIRedactor._detect_names t = Ok ds ->
        Forall safe_detection ds /\ Forall (spans t) ds).
Proof.
  split.
  - intros t ds [= <-].
    split; [now apply detect_patterns_with_safe | apply detect_patterns_with_spans].
  - intros t ds E.
    destruct (detect_names_safe t) as (ds1 & E1 & Hs).
    destruct (detect_names_spans t) as (ds2 & E2 & Hp).
    rewrite E in E1, E2. injection E1 as <-. injection E2 as <-. now split.
Qed.

Lemma text_changes_iff_detected (text : str) :
  match detected_phi (PHIRedactor.redact_phi text) with
  | [] => redacted_text (PHIRedactor.redact_phi text) = text
  | _ :: _ => redacted_text (PHIRedactor.redact_phi text) <> text
  end
  /\ match detected_phi (SimplePHIRedactor.redact_phi text) with
     | [] => redacted_text (SimplePHIRedactor.redact_phi text) = text
     | _ :: _ => redacted_text (SimplePHIRedactor.redact_phi text) <> text
     end.
Proof.
  split.
  - destruct PHIRedactor_detectors_ok as [H1 H2].
    pose proof (redact_phi_with_changes _ _
                  (fun ds t => Ok (PHIRedactor._calculate_confidence ds t))
                  text H1 H2) as Hc.
    cbv zeta in Hc. fold (PHIRedactor.redact_phi text) in Hc.
    destruct (detected_phi (PHIRedactor.redact_phi text)) eqn:E; [|exact Hc].
    revert E. unfold PHIRedactor.redact_phi, redact_phi_with, redact_try.
    cbn. rewrite app_nil_r. now intros ->.
  - destruct SimplePHIRedactor_detectors_ok as [H1 H2].
    pose proof (redact_phi_with_changes _ _
                  (fun ds _ => Ok (SimplePHIRedactor.confidence ds))
                  text H1 H2) as Hc.
    cbv zeta in Hc. fold (SimplePHIRedactor.redact_phi text) in Hc.
    destruct (detected_phi (SimplePHIRedactor.redact_phi text)) eqn:E; [|exact Hc].
    revert E. unfold SimplePHIRedactor.redact_phi, redact_phi_with, redact_try.
    cbn [bind].
    destruct (detect_names_safe
                (apply_redactions (SimplePHIRedactor._detect_patterns text) text))
      as (ds2 & -> & _).
    cbn [bind detected_phi redacted_text]. intros E.
    apply app_eq_nil in E as [-> ->]. reflexivity.
Qed.

(** X4: the redacted text differs from the input exactly when something
    was detected, in both redactors. *)
Theorem X4_text_changes_iff_detected (text : str) :
  match detected_phi (PHIRedactor.redact_phi text) with
  | [] => redacted_text (PHIRedactor.redact_phi text) = text
  | _ :: _ => redacted_text (PHIRedactor.redact_phi text) <> text
  end
  /\ match detected_phi (SimplePHIRedactor.redact_phi text) with
     | [] => redacted_text (SimplePHIRedactor.redact_phi text) = text
     | _ :: _ => redacted_text (SimplePHIRedactor.redact_phi text) <> text
     end.
Proof. apply text_changes_iff_detected. Qed.

(** X5: [validate_redaction] answers [True] exactly for the texts that
    [redact_phi] leaves as they are, in both redactors. *)
Theorem X5_validate_iff_redaction_fixpoint (original redacted : str) :
  (if PHIRedactor.validate_redaction original redacted
   then redacted_text (PHIRedactor.redact_phi redacted) = redacted
   else redacted_text (PHIRedactor.redact_phi redacted) <> redacted)
  /\ (if SimplePHIRedactor.validate_redaction original redacted
      then redacted_text (SimplePHIRedactor.redact_phi redacted) = redacted
      else redacted_text (SimplePHIRedactor.redact_phi redacted) <> redacted).
Proof.
  destruct (text_changes_iff_detected redacted) as [H1 H2].
  unfold PHIRedactor.validate_redaction, SimplePHIRedactor.validate_redaction.
  cbv zeta. split.
  - now destruct (detected_phi (PHIRedactor.redact_phi redacted)).
  - now destruct (detected_phi (SimplePHIRedactor.redact_phi redacted)).
Qed.

(** X6: every detection of [PHIRedactor.redact_phi] is one by pattern,
    so its confidence depends on the number of detections alone: 1.0
    for none, and for [k] of them the double that [(k * 0.9) / k] gives,
    capped at 1.0. That is 0.9 for one detection, but the double below
    0.9 for nine and the double above 0.9 for thirteen. *)
Theorem X6_confidence_follows_the_count (text : str) :
  let r := PHIRedactor.redact_phi text in
  Forall (fun d => method d = "regex") (detected_phi r)
  /\ confidence_score r = score_of_count (length (detected_phi r))
  /\ score_of_count 0 = PyFloat.one
  /\ score_of_count 1 = S754_finite false 8106479329266893 (-53)
  /\ score_of_count 1 = PyFloat.literal 9 10
  /\ score_of_count 9 = S754_finite false 8106479329266892 (-53)
  /\ score_of_count 13 = S754_finite false 8106479329266894 (-53).
Proof.
  intros r. subst r. pose proof (redact_phi_methods text) as Hm.
  rewrite redact_phi_score.
  split; [exact Hm|]. split; [now apply calculate_confidence_regex|].
  repeat split; vm_compute; reflexivity.
Qed.

(** Nine numbers in a text: the confidence is the double below 0.9. *)
Example nine_detections :
  let r := PHIRedactor.redact_phi
             (py "111-11-1111 222-22-2222 333-33-3333 444-44-4444 555-55-5555 666-66-6666 777-77-7777 888-88-8888 999-99-9999") in
  length (detected_phi r) = 9
  /\ confidence_score r = S754_finite false 8106479329266892 (-53)
  /\ PyFloat.ltb (confidence_score r) (PyFloat.literal 9 10) = true.
Proof. vm_compute. repeat split. Qed.

End RedactionProperties.


(* ===================================================================== *)
(** * Placeholder tokens in the redacted text *)
(* ===================================================================== *)

Module TokenFacts.

Import PyStrFacts ReFacts RedactionFacts SpanFacts RedactionMoreFacts.

Lemma replace_from_nil (old new : str) (k : nat) : replace_from old new k [] = [].
Proof. reflexivity. Qed.

(** The scan does not see across a character that [x] does not have. *)
Lemma replace_from_barrier (x new : str) (c : ascii) (b : str) :
  x <> [] -> c ∉ x ->
  forall n a, length a <= n ->
    replace_from x new 0 (a ++ c :: b)
    = replace_from x new 0 a ++ c :: replace_from x new 0 b.
Proof.
  intros Hx Hc. induction n as [|n IH]; intros a Hn.
  - destruct a; [|simpl in Hn; lia]. simpl app at 1.
    rewrite (replace_from_step x new (c :: b)) by exact Hx.
    destruct (starts_with x (c :: b)) eqn:Hs; [|reflexivity].
    apply starts_with_prefix in Hs. destruct x as [|d x]; [congruence|].
    apply prefix_cons_inv_1 in Hs as ->. exfalso. apply Hc. left.
  - rewrite (replace_from_step x new (a ++ c :: b)) by exact Hx.
    rewrite (replace_from_step x new a) by exact Hx.
    destruct (starts_with x (a ++ c :: b)) eqn:Hs.
    + apply starts_with_prefix in Hs.
      pose proof (prefix_avoid x a c b Hc Hs) as Ha.
      pose proof (prefix_length _ _ Ha) as Hlen.
      apply starts_with_prefix in Ha. rewrite Ha.
      rewrite drop_app_le by exact Hlen. rewrite IH.
      * now rewrite app_assoc.
      * rewrite length_drop.
        assert (0 < length x) by (destruct x; [congruence | simpl; lia]). lia.
    + destruct (starts_with x a) eqn:Ha.
      * apply starts_with_prefix in Ha.
        assert (Hp : x `prefix_of` a ++ c :: b) by now apply prefix_app_r.
        apply starts_with_prefix in Hp. congruence.
      * destruct a as [|d a]; [reflexivity|]. simpl.
        f_equal. apply IH. simpl in Hn. lia.
Qed.

Lemma replace_from_absent (x new : str) : forall s,
  ~ occurs x s -> replace_from x new 0 s = s.
Proof.
  induction s as [|c s IH]; intros H; [reflexivity|]. cbn [replace_from].
  destruct (starts_with x (c :: s)) eqn:Hs.
  - exfalso. apply H, occurs_prefix. now apply starts_with_prefix.
  - f_equal. apply IH. intros Ho. apply H. now apply occurs_cons.
Qed.

Lemma replace_from_inserts (x new : str) :
  x <> [] -> forall n s, length s <= n ->
    occurs x s -> occurs new (replace_from x new 0 s).
Proof.
  intros Hx. induction n as [|n IH]; intros s Hn Ho.
  - destruct s; [|simpl in Hn; lia]. apply occurs_nil_inv in Ho. congruence.
  - rewrite replace_from_step by exact Hx.
    destruct (starts_with x s) eqn:Hs.
    + now exists [], (replace_from x new 0 (drop (length x) s)).
    + destruct s as [|c s]; [apply occurs_nil_inv in Ho; congruence|].
      apply occurs_cons_inv in Ho as [Hp | Ho].
      * apply starts_with_prefix in Hp. congruence.
      * apply occurs_cons, IH; [simpl in Hn; lia | exact Ho].
Qed.

(** A token in the text is still there after a safe text is replaced. *)
Lemma str_replace_keeps_token (t s x new : str) :
  is_token t = true -> safe x ->
  occurs t s -> occurs t (str_replace s x new).
Proof.
  intros Ht Hx (a & b & ->).
  pose proof (safe_not_nil x Hx) as Hnil.
  destruct (safe_no_bracket x Hx) as [Hl Hr].
  destruct (is_token_shape t Ht) as (m & -> & Hm).
  destruct x as [|e x]; [congruence|]. unfold str_replace.
  set (y := e :: x) in *.
  replace (a ++ ("["%char :: m ++ ["]"%char]) ++ b)
    with (a ++ "["%char :: (m ++ "]"%char :: b))
    by (simpl; now rewrite <- app_assoc).
  rewrite (replace_from_barrier y new "["%char _ Hnil Hl (length a) a) by lia.
  rewrite (replace_from_barrier y new "]"%char _ Hnil Hr (length m) m) by lia.
  rewrite (replace_from_absent y new m)
    by (now apply safe_not_in_token_mid).
  exists (replace_from y new 0 a), (replace_from y new 0 b).
  simpl. now rewrite <- app_assoc.
Qed.

Lemma apply_redactions_keeps_token (t : str) (ds : list detection) : forall s,
  is_token t = true -> Forall safe_detection ds ->
  occurs t s -> occurs t (apply_redactions ds s).
Proof.
  induction ds as [|d ds IH]; intros s Ht Hds Ho; simpl; [exact Ho|].
  apply Forall_cons in Hds as [[Hd _] Hds].
  apply IH; [exact Ht | exact Hds |]. now apply str_replace_keeps_token.
Qed.

(** The replacement of the first detection of a run is in its result. *)
Lemma apply_redactions_shows_first (d : detection) (ds : list detection) (s : str) :
  Forall safe_detection (d :: ds) -> occurs (original d) s ->
  occurs (replacement d) (apply_redactions (d :: ds) s).
Proof.
  intros Hall Ho. apply Forall_cons in Hall as [[Hd Ht] Hds]. simpl.
  apply apply_redactions_keeps_token; [exact Ht | exact Hds |].
  pose proof (safe_not_nil _ Hd) as Hnil.
  destruct (original d) as [|e x] eqn:E; [congruence|]. unfold str_replace.
  now apply (replace_from_inserts (e :: x) (replacement d) Hnil (length s)).
Qed.

Lemma redact_phi_with_tokens
    (detect_patterns detect_second : str -> result (list detection))
    (calculate_confidence : list detection -> str -> result PyFloat.float) (text : str) :
  (forall t ds, detect_patterns t = Ok ds ->
     Forall safe_detection ds /\ Forall (spans t) ds) ->
  (forall t ds, detect_second t = Ok ds ->
     Forall safe_detection ds /\ Forall (spans t) ds) ->
  let r := redact_phi_with detect_patterns detect_second calculate_confidence text in
  match detected_phi r with
  | [] => True
  | d :: _ => contains (redacted_text r) (replacement d) = true
  end.
Proof.
  intros H1 H2. cbv zeta. unfold redact_phi_with, redact_try.
  destruct (detect_patterns text) as [ds1|] eqn:E1; cbn [bind]; [|exact I].
  destruct (detect_second _) as [ds2|] eqn:E2; cbn [bind]; [|exact I].
  destruct (calculate_confidence _ _); cbn [bind detected_phi redacted_text];
    [|exact I].
  apply H1 in E1 as [F1 S1]. apply H2 in E2 as [F2 S2].
  destruct ds1 as [|d ds1].
  - simpl app. destruct ds2 as [|d ds2]; [exact I|].
    apply contains_occurs. simpl apply_redactions at 2.
    apply apply_redactions_shows_first; [exact F2|].
    apply Forall_cons in S2 as [Sd _]. now apply spans_occurs.
  - rewrite <- app_comm_cons. apply contains_occurs.
    apply apply_redactions_keeps_token; [|exact F2|].
    + apply Forall_cons in F1 as [[_ Ht] _]. exact Ht.
    + apply apply_redactions_shows_first; [exact F1|].
      apply Forall_cons in S1 as [Sd _]. now apply spans_occurs.
Qed.

Lemma redact_phi_with_keeps_token
    (detect_patterns detect_second : str -> result (list detection))
    (calculate_confidence : list detection -> str -> result PyFloat.float) (text t : str) :
  (forall s ds, detect_patterns s = Ok ds -> Forall safe_detection ds) ->
  (forall s ds, detect_second s = Ok ds -> Forall safe_detection ds) ->
  is_token t = true -> contains text t = true ->
  match redact_try detect_patterns detect_second calculate_confidence text with
  | Ok r => contains (redacted_text r) t = true
  | Raise _ => True
  end.
Proof.
  intros H1 H2 Ht Hc. unfold redact_try.
  destruct (detect_patterns text) as [ds1|] eqn:E1; cbn [bind]; [|exact I].
  destruct (detect_second _) as [ds2|] eqn:E2; cbn [bind]; [|exact I].
  destruct (calculate_confidence _ _); cbn [bind redacted_text]; [|exact I].
  apply contains_occurs. apply contains_occurs in Hc.
  apply apply_redactions_keeps_token; [exact Ht | now apply H2 in E2 |].
  apply apply_redactions_keeps_token; [exact Ht | now apply H1 in E1 | exact Hc].
Qed.

End TokenFacts.


Module TokenProperties.

Import PyStrFacts ReFacts RedactionFacts SpanFacts RedactionMoreFacts.
Import RedactionProperties TokenFacts.

(** X7: when something is detected, the placeholder of the first
    detection is in the redacted text, in both redactors. *)
Theorem X7_first_placeholder_is_in_the_output (text : str) :
  match detected_phi (PHIRedactor.redact_phi text) with
  | [] => True
  | d :: _ =>
      contains (redacted_text (PHIRedactor.redact_phi text)) (replacement d) = true
  end
  /\ match detected_phi (SimplePHIRedactor.redact_phi text) with
     | [] => True
     | d :: _ =>
         contains (redacted_text (SimplePHIRedactor.redact_phi text))
                  (replacement d) = true
     end.
Proof.
  split.
  - destruct PHIRedactor_detectors_ok as [H1 H2].
    exact (redact_phi_with_tokens _ _ _ text H1 H2).
  - destruct SimplePHIRedactor_detectors_ok as [H1 H2].
    exact (redact_phi_with_tokens _ _ _ text H1 H2).
Qed.

(** X8: a placeholder token that the input already has (a square
    bracket, capitals and underscores, a closing bracket) is still in
    the redacted text: no replacement cuts a token, in both redactors. *)
Theorem X8_tokens_of_the_input_survive (text t : str) :
  is_token t = true -> contains text t = true ->
  contains (redacted_text (PHIRedactor.redact_phi text)) t = true
  /\ contains (redacted_text (SimplePHIRedactor.redact_phi text)) t = true.
Proof.
  intros Ht Hc. split.
  - destruct PHIRedactor_detectors_ok as [H1 H2].
    pose proof (redact_phi_with_keeps_token _ _
                  (fun ds t => Ok (PHIRedactor._calculate_confidence ds t))
                  text t
                  (fun s ds E => proj1 (H1 s ds E))
                  (fun s ds E => proj1 (H2 s ds E)) Ht Hc) as H.
    unfold PHIRedactor.redact_phi, redact_phi_with.
    destruct (redact_try _ _ _ text) eqn:E; [exact H|].
    exfalso. revert E. unfold redact_try. cbn [bind]. discriminate.
  - destruct SimplePHIRedactor_detectors_ok as [H1 H2].
    pose proof (redact_phi_with_keeps_token _ _
                  (fun ds _ => Ok (SimplePHIRedactor.confidence ds))
                  text t
                  (fun s ds E => proj1 (H1 s ds E))
                  (fun s ds E => proj1 (H2 s ds E)) Ht Hc) as H.
    unfold SimplePHIRedactor.redact_phi, redact_phi_with.
    destruct (redact_try _ _ _ text) eqn:E; [exact H|].
    exfalso. revert E. unfold redact_try. cbn [bind].
    destruct (detect_names_safe
                (apply_redactions (SimplePHIRedactor._detect_patterns text) text))
      as (ds2 & -> & _).
    discriminate.
Qed.

Lemma X8_tokens_of_the_input_survive_witness :
  let text := py "[NAME_REDACTED] Doe, SSN 123-45-6789, born 03/15/1975" in
  contains (redacted_text (PHIRedactor.redact_phi text)) (py "[NAME_REDACTED]") = true
  /\ contains (redacted_text (SimplePHIRedactor.redact_phi text))
              (py "[NAME_REDACTED]") = true.
Proof.
  apply X8_tokens_of_the_input_survive; reflexivity.
Defined.

End TokenProperties.


(* ===================================================================== *)
(** * Properties of the entity helpers *)
(* ===================================================================== *)

Module EntityProperties.

Import PyStrFacts ReFacts Entities.

(** X9: every sensitive entity label is mapped to a PHI type for which
    [PHIRedactor] has a placeholder token; every other label is mapped
    to [unknown], for which it has none. *)
Theorem X9_entity_labels_and_placeholders (label : string) :
  match PHIRedactor.replacements !! _map_entity_to_phi_type label with
  | Some t => label ∈ sensitive_entities /\ is_token t = true
  | None => (label ∉ sensitive_entities)
            /\ _map_entity_to_phi_type label = "unknown"
  end.
Proof.
  assert (Hin : forall l, In l ["PERSON"; "ORG"; "GPE"; "DATE"; "CARDINAL"] ->
    match PHIRedactor.replacements !! _map_entity_to_phi_type l with
    | Some t => l ∈ sensitive_entities /\ is_token t = true
    | None => (l ∉ sensitive_entities) /\ _map_entity_to_phi_type l = "unknown"
    end).
  { intros l Hl. simpl in Hl.
    destruct Hl as [<-|[<-|[<-|[<-|[<-|[]]]]]];
      (split; [apply (bool_decide_unpack _); vm_compute; exact I
              | vm_compute; reflexivity]). }
  destruct (decide (In label ["PERSON"; "ORG"; "GPE"; "DATE"; "CARDINAL"]))
    as [Hl | Hl]; [now apply Hin|].
  assert (Hnone : entity_mapping !! label = None).
  { unfold entity_mapping. cbn [list_to_map foldr fst snd].
    rewrite !lookup_insert_ne; [apply lookup_empty|..];
      intros <-; apply Hl; simpl; tauto. }
  unfold _map_entity_to_phi_type. rewrite Hnone. cbn [default].
  replace (PHIRedactor.replacements !! "unknown") with (@None str)
    by (vm_compute; reflexivity).
  split; [|reflexivity].
  unfold sensitive_entities. rewrite elem_of_list_to_set, list_elem_of_In.
  exact Hl.
Qed.

Lemma lang_lit2 (a b : ascii) (w : str) :
  lang (Cat (Chr (is_char a)) (Cat (Chr (is_char b)) Eps)) w -> w = [a; b].
Proof.
  intros (u & v & -> & (c & -> & Hc) & (u' & v' & -> & (c' & -> & Hc') & ->)).
  apply is_char_eq in Hc as <-. now apply is_char_eq in Hc' as <-.
Qed.

Lemma year_pattern_shape (text : str) :
  re_match year_pattern text = true ->
  exists d1 d2 rest,
    is_digit d1 = true /\ is_digit d2 = true
    /\ (text = py "19" ++ d1 :: d2 :: rest \/ text = py "20" ++ d1 :: d2 :: rest).
Proof.
  unfold re_match. destruct (match_here year_pattern None text) as [rest|] eqn:E;
    [intros _ | discriminate].
  apply match_here_sound in E as (w & -> & Hw).
  destruct Hw as (u0 & v0 & -> & -> & (u1 & v1 & -> & Hy & Hr)).
  destruct Hr as (u2 & v2 & -> & Hd & (u3 & v3 & -> & -> & ->)).
  destruct Hd as (n & Hlo & Hhi & Hit). simpl in Hhi.
  assert (n = 2) as -> by lia.
  destruct Hit as (a1 & b1 & -> & (d1 & -> & Hd1)
                   & (a2 & b2 & -> & (d2 & -> & Hd2) & ->)).
  exists d1, d2, rest. repeat split; try assumption.
  destruct Hy as [Hy | Hy]; apply lang_lit2 in Hy as ->; [left | right]; reflexivity.
Qed.

(** X10: [_is_likely_phi] flags persons, dates and numbers only, and
    never a medical term: an organization or a location is never PHI for
    it, and a date is PHI only when its text starts with a year from 1900
    to 2099. *)
Theorem X10_only_persons_years_and_numbers_are_phi (text : str) (label : string) :
  _is_likely_phi text label = true ->
  (string_of_list_ascii (map to_lower text) ∉ medical_terms)
  /\ (label = "PERSON"
      \/ (label = "DATE"
          /\ exists d1 d2 rest,
               is_digit d1 = true /\ is_digit d2 = true
               /\ (text = py "19" ++ d1 :: d2 :: rest
                   \/ text = py "20" ++ d1 :: d2 :: rest))
      \/ (label = "CARDINAL" /\ 6 <= length (str_replace text (py " ") []))).
Proof.
  unfold _is_likely_phi.
  destruct (bool_decide _) eqn:Hm; [discriminate|].
  apply bool_decide_eq_false in Hm. intros H. split; [exact Hm|].
  destruct (bool_decide (label = "PERSON")) eqn:Hp.
  { left. now apply bool_decide_eq_true in Hp. }
  destruct (bool_decide (label = "DATE") && _) eqn:Hd.
  { right. left. apply andb_true_iff in Hd as [Hl Hy].
    apply bool_decide_eq_true in Hl. split; [exact Hl|].
    now apply year_pattern_shape. }
  destruct (bool_decide (label = "CARDINAL") && _) eqn:Hc; [|discriminate].
  right. right. apply andb_true_iff in Hc as [Hl Hn].
  apply bool_decide_eq_true in Hl. now apply Nat.leb_le in Hn.
Qed.

Lemma X10_only_persons_years_and_numbers_are_phi_witness :
  let text := py "1985-03-15" in
  (string_of_list_ascii (map to_lower text) ∉ medical_terms)
  /\ ("DATE" = "PERSON"
      \/ ("DATE" = "DATE"
          /\ exists d1 d2 rest,
               is_digit d1 = true /\ is_digit d2 = true
               /\ (text = py "19" ++ d1 :: d2 :: rest
                   \/ text = py "20" ++ d1 :: d2 :: rest))
      \/ ("DATE" = "CARDINAL" /\ 6 <= length (str_replace text (py " ") []))).
Proof.
  apply X10_only_persons_years_and_numbers_are_phi. reflexivity.
Defined.

End EntityProperties.


(* ===================================================================== *)
(** * Further properties of authentication and consent *)
(* ===================================================================== *)

Module ConsentProperties.

Import Consent ConsentMore Api ConsentFacts.

(** A digest function for the examples: the SHA-256 digest of [test]. *)
Local Abbreviation digest_of_test :=
  (fun _ : str =>
     py "9f86d081884c7d659a2feaa0c55ad015a3bf4f1b2b0b822cd15d6c15b0f00a08").

Lemma ConsentFlags_of_known (kw : gmap string bool) :
  dom kw ⊆ consent_fields -> ConsentFlags_of kw = Ok (flags_of_dict kw).
Proof.
  intros H. unfold ConsentFlags_of. now rewrite bool_decide_eq_true_2.
Qed.

Lemma ConsentFlags_of_unknown (kw : gmap string bool) :
  ~ dom kw ⊆ consent_fields ->
  ConsentFlags_of kw
  = Raise (TypeError "__init__() got an unexpected keyword argument").
Proof.
  intros H. unfold ConsentFlags_of. now rewrite bool_decide_eq_false_2.
Qed.

Lemma authenticate_patient_known (sha256_hexdigest : str -> str) (now : Z)
    (uuid : string) (patient_id : str) (kw : gmap string bool) :
  dom kw ⊆ consent_fields ->
  Consent.authenticate_patient sha256_hexdigest now uuid patient_id kw
  = if _validate_minimum_consent (flags_of_dict kw)
    then Ok (issued sha256_hexdigest now uuid patient_id (flags_of_dict kw))
    else Raise ConsentInsufficient.
Proof.
  intros H. unfold Consent.authenticate_patient.
  rewrite (ConsentFlags_of_known kw H). cbn [bind].
  now destruct (_validate_minimum_consent (flags_of_dict kw)).
Qed.

(** X11: for a consent dict with known keys only, a missing key counts
    as a refusal: [authenticate_patient] returns the signed token when
    recording, transcription and AI processing are all present and true,
    and raises the insufficient-consent error otherwise. *)
Theorem X11_missing_consent_key_is_a_refusal (sha256_hexdigest : str -> str)
    (now : Z) (uuid : string) (patient_id : str) (kw : gmap string bool) :
  dom kw ⊆ consent_fields ->
  Consent.authenticate_patient sha256_hexdigest now uuid patient_id kw
  = if bool_decide (kw !! "audio_recording" = Some true
                    /\ kw !! "transcription" = Some true
                    /\ kw !! "ai_processing" = Some true)
    then Ok (issued sha256_hexdigest now uuid patient_id (flags_of_dict kw))
    else Raise ConsentInsufficient.
Proof.
  intros H. rewrite (authenticate_patient_known _ _ _ _ _ H).
  unfold _validate_minimum_consent, flags_of_dict.
  cbn [audio_recording transcription ai_processing].
  destruct (kw !! "audio_recording") as [[]|];
    destruct (kw !! "transcription") as [[]|];
    destruct (kw !! "ai_processing") as [[]|]; cbn [default andb];
    (rewrite bool_decide_eq_true_2 by (repeat split; reflexivity); reflexivity)
    || (rewrite bool_decide_eq_false_2 by (intros (? & ? & ?); discriminate);
        reflexivity).
Qed.

Lemma X11_missing_consent_key_is_a_refusal_witness :
  Consent.authenticate_patient digest_of_test 1700000000 "session" (py "patient-17")
    (<["audio_recording" := true]> (<["transcription" := true]> ∅))
  = Raise ConsentInsufficient.
Proof.
  rewrite X11_missing_consent_key_is_a_refusal.
  - reflexivity.
  - apply (bool_decide_unpack _). vm_compute. exact I.
Defined.

(** X12: a consent dict with a key that is no consent flag makes
    [authenticate_patient] fail with a [TypeError], whatever the flags
    are, and the handler of main.py answers 400 as for any failure. *)
Theorem X12_unknown_consent_key_is_rejected (sha256_hexdigest : str -> str)
    (now : Z) (uuid : string) (patient_id : str) (kw : gmap string bool)
    (k : string) :
  is_Some (kw !! k) -> k ∉ consent_fields ->
  Consent.authenticate_patient sha256_hexdigest now uuid patient_id kw
  = Raise (TypeError "__init__() got an unexpected keyword argument")
  /\ Api.authenticate_patient sha256_hexdigest now uuid patient_id kw
     = Throws (HTTPException 400 "Authentication failed").
Proof.
  intros Hk Hf.
  assert (E : Consent.authenticate_patient sha256_hexdigest now uuid patient_id kw
              = Raise (TypeError "__init__() got an unexpected keyword argument")).
  { unfold Consent.authenticate_patient. rewrite ConsentFlags_of_unknown; [reflexivity|].
    intros Hsub. apply Hf, Hsub. now apply elem_of_dom. }
  split; [exact E|]. unfold Api.authenticate_patient. now rewrite E.
Qed.

Lemma X12_unknown_consent_key_is_rejected_witness :
  Consent.authenticate_patient digest_of_test 1700000000 "session" (py "patient-17")
    (<["marketing" := false]> (consent_dict true true true true true))
  = Raise (TypeError "__init__() got an unexpected keyword argument")
  /\ Api.authenticate_patient digest_of_test 1700000000 "session" (py "patient-17")
       (<["marketing" := false]> (consent_dict true true true true true))
     = Throws (HTTPException 400 "Authentication failed").
Proof.
  apply (X12_unknown_consent_key_is_rejected _ _ _ _ _ "marketing").
  - eexists. reflexivity.
  - apply (bool_decide_unpack _). vm_compute. exact I.
Defined.

(** What [verify_token] returns for an issued token, when it returns. *)
Lemma verify_token_issued_inv (sha256_hexdigest : str -> str) (now0 now : Z)
    (uuid : string) (patient_id : str) (c : ConsentFlags) (info : PatientInfo) :
  verify_token now (issued sha256_hexdigest now0 uuid patient_id c) = Ok info ->
  info = {| Consent.patient_id := _hash_patient_id sha256_hexdigest patient_id;
            session_id := uuid;
            consent := c;
            authenticated_at := now0;
            expires_at := now0 + 3600 |}.
Proof.
  unfold verify_token, verify_try, issued, jwt_encode, jwt_decode.
  rewrite bool_decide_eq_true_2 by reflexivity. cbn [negb iat exp].
  destruct (_ <? _)%Z; [discriminate|].
  destruct (_ <=? _)%Z; [discriminate|].
  cbn [bind exp p_consent iat p_patient_id p_session_id].
  destruct (_ && _); [discriminate|].
  rewrite ConsentFlags_of_asdict. cbn [bind].
  unfold token_expiry_minutes. change (60 * 60)%Z with 3600%Z.
  destruct (utcfromtimestamp now0) as [a|e1] eqn:E1; cbn [bind];
    [|destruct e1; discriminate].
  destruct (utcfromtimestamp (now0 + 3600)) as [x|e2] eqn:E2; cbn [bind];
    [|destruct e2; discriminate].
  apply utcfromtimestamp_inv in E1 as [-> _].
  apply utcfromtimestamp_inv in E2 as [-> _]. now intros [= <-].
Qed.

Lemma authenticate_patient_inv (sha256_hexdigest : str -> str) (now : Z)
    (uuid : string) (patient_id : str) (kw : gmap string bool) (t : token) :
  Consent.authenticate_patient sha256_hexdigest now uuid patient_id kw = Ok t ->
  _validate_minimum_consent (flags_of_dict kw) = true
  /\ t = issued sha256_hexdigest now uuid patient_id (flags_of_dict kw).
Proof.
  destruct (decide (dom kw ⊆ consent_fields)) as [H | H].
  - rewrite (authenticate_patient_known _ _ _ _ _ H).
    destruct (_validate_minimum_consent _); [|discriminate].
    now intros [= <-].
  - unfold Consent.authenticate_patient.
    rewrite (ConsentFlags_of_unknown kw H). discriminate.
Qed.

(** X13: whenever [verify_token] accepts a token that
    [authenticate_patient] issued, the patient info has the required
    consent, so the dependency [verify_auth_and_consent] of main.py
    returns it; it carries the hash of the subject id, the flags of the
    dict and a lifetime of 3600 seconds. *)
Theorem X13_issued_tokens_pass_the_consent_check
    (sha256_hexdigest : str -> str) (now0 now : Z) (uuid : string)
    (patient_id : str) (kw : gmap string bool) (t : token) (info : PatientInfo) :
  Consent.authenticate_patient sha256_hexdigest now0 uuid patient_id kw = Ok t ->
  verify_token now t = Ok info ->
  has_required_consent info = true
  /\ verify_auth_and_consent now t = Returns info
  /\ Consent.patient_id info = _hash_patient_id sha256_hexdigest patient_id
  /\ consent info = flags_of_dict kw
  /\ (expires_at info - authenticated_at info = 3600)%Z.
Proof.
  intros Ha Hv. apply authenticate_patient_inv in Ha as [Hmin ->].
  pose proof (verify_token_issued_inv _ _ _ _ _ _ _ Hv) as ->.
  assert (Hreq : has_required_consent
            {| Consent.patient_id := _hash_patient_id sha256_hexdigest patient_id;
               session_id := uuid; consent := flags_of_dict kw;
               authenticated_at := now0; expires_at := now0 + 3600 |} = true).
  { unfold has_required_consent. cbn [consent forallb id].
    unfold _validate_minimum_consent in Hmin.
    now rewrite andb_true_r, andb_assoc. }
  split; [exact Hreq|]. split.
  - unfold verify_auth_and_consent, verify_auth_try. rewrite Hv.
    now rewrite Hreq.
  - cbn. repeat split. lia.
Qed.

Lemma X13_issued_tokens_pass_the_consent_check_witness :
  let kw := consent_dict true true true false false in
  let info := {| Consent.patient_id := _hash_patient_id digest_of_test (py "patient-17");
                 session_id := "session";
                 consent := flags_of_dict kw;
                 authenticated_at := 1700000000;
                 expires_at := 1700000000 + 3600 |} in
  has_required_consent info = true
  /\ verify_auth_and_consent 1700000100
       (issued digest_of_test 1700000000 "session" (py "patient-17") (flags_of_dict kw))
     = Returns info
  /\ Consent.patient_id info = _hash_patient_id digest_of_test (py "patient-17")
  /\ consent info = flags_of_dict kw
  /\ (expires_at info - authenticated_at info = 3600)%Z.
Proof.
  apply (X13_issued_tokens_pass_the_consent_check digest_of_test 1700000000
           1700000100 "session" (py "patient-17")); vm_compute; reflexivity.
Defined.

(** X14: on a host whose local time is UTC, [refresh_token] of an issued
    token raises [Token does not need refresh yet] while more than 300
    seconds remain, returns in the last 300 seconds the token that
    [authenticate_patient] would issue at that time for the same hashed
    id, session and flags, and fails as expired after the expiry. A
    token whose timestamps no datetime can hold is refused, until its
    expiry, with the error of [utcfromtimestamp]. *)
Theorem X14_refresh_window (sha256_hexdigest : str -> str) (now0 now : Z)
    (uuid : string) (patient_id : str) (c : ConsentFlags) :
  (now0 <= now)%Z -> (0 < now0 + 3600)%Z ->
  refresh_token 0 now (issued sha256_hexdigest now0 uuid patient_id c)
  = if (now0 + 3600 <? now)%Z then Raise TokenExpired
    else
      let* issued_at := utcfromtimestamp now0 in
      let* expires_at := utcfromtimestamp (now0 + 3600) in
      if (now <? now0 + 3300)%Z
      then Raise (ValueError "Token does not need refresh yet")
      else Ok (issued sha256_hexdigest now uuid patient_id c).
Proof.
  intros Hnow Hpos. destruct c as [r t a s g]. unfold refresh_token.
  destruct (Z.ltb_spec (now0 + 3600) now) as [H1 | H1].
  - rewrite verify_token_expired by lia. reflexivity.
  - rewrite verify_token_issued_eq by lia.
    destruct (utcfromtimestamp now0) as [x|e] eqn:E1; cbn [bind]; [|reflexivity].
    destruct (utcfromtimestamp (now0 + 3600)) as [y|e] eqn:E2; cbn [bind];
      [|reflexivity].
    apply utcfromtimestamp_inv in E1 as [-> _].
    apply utcfromtimestamp_inv in E2 as [-> _].
    cbn [expires_at Consent.patient_id session_id consent].
    destruct (Z.ltb_spec 300 (now0 + 3600 - now)),
             (Z.ltb_spec now (now0 + 3300)); try lia; [reflexivity|].
    unfold issued. now rewrite Z.sub_0_r, Z.sub_0_r.
Qed.

Lemma X14_refresh_window_witness :
  refresh_token 0 1700003400
    (issued digest_of_test 1700000000 "session" (py "patient-17")
       (mkConsentFlags true true true false true))
  = Ok (issued digest_of_test 1700003400 "session" (py "patient-17")
          (mkConsentFlags true true true false true)).
Proof.
  rewrite X14_refresh_window; [vm_compute; reflexivity | lia | lia].
Defined.

(** X15: on a host whose local time is more than an hour ahead of UTC,
    the token that [refresh_token] returns is refused as expired at the
    very time of the refresh: its expiry, computed from a UTC datetime
    read as local time, lies in the past. *)
Theorem X15_refresh_ahead_of_utc_is_expired (sha256_hexdigest : str -> str)
    (utc_offset now0 now : Z) (uuid : string) (patient_id : str)
    (c : ConsentFlags) (t : token) :
  (3600 < utc_offset)%Z -> (0 < now + 3600 - utc_offset)%Z ->
  refresh_token utc_offset now (issued sha256_hexdigest now0 uuid patient_id c)
  = Ok t ->
  verify_token now t = Raise TokenExpired.
Proof.
  intros Hoff Hpos. unfold refresh_token.
  destruct (verify_token now _) as [info|e]; [|discriminate]. cbn [bind].
  destruct (_ <? _)%Z; [discriminate|]. intros [= <-].
  unfold verify_token, verify_try, jwt_encode, jwt_decode, token_expiry_minutes.
  rewrite bool_decide_eq_true_2 by reflexivity. cbn [negb iat exp].
  destruct (Z.ltb_spec (now + 30) (now - utc_offset)) as [H | _]; [lia|].
  destruct (Z.leb_spec (now + 60 * 60 - utc_offset) (now - 30)) as [_ | _];
    [reflexivity|].
  cbn [bind exp].
  destruct (Z.eqb_spec (now + 60 * 60 - utc_offset) 0) as [H | _]; [lia|].
  destruct (Z.ltb_spec (now + 60 * 60 - utc_offset) now) as [_ | H]; [|lia].
  reflexivity.
Qed.

Lemma X15_refresh_ahead_of_utc_is_expired_witness :
  verify_token 1700003400
    (Signed {| p_patient_id := _hash_patient_id digest_of_test (py "patient-17");
               p_session_id := "session";
               p_consent := asdict (mkConsentFlags true true true false true);
               iat := 1700003400 - 7200;
               exp := 1700003400 + 60 * 60 - 7200 |} secret_key)
  = Raise TokenExpired.
Proof.
  apply (X15_refresh_ahead_of_utc_is_expired digest_of_test 7200 1700000000
           1700003400 "session" (py "patient-17")
           (mkConsentFlags true true true false true)); [lia | lia |].
  vm_compute. reflexivity.
Defined.

Lemma granted_asdict (c : ConsentFlags) :
  granted (asdict c)
  = length (filter (fun b => b = true)
              [audio_recording c; transcription c; ai_processing c;
               data_storage c; summary_generation c]).
Proof. destruct c as [[] [] [] [] []]; vm_compute; reflexivity. Qed.

(** X16: while an issued token is valid, [get_audit_info] gives the
    first 8 characters of the hashed id followed by three dots (never
    the whole hash), the session id, and as [consent_flags] the number
    of flags that are granted; it has no [error] entry. *)
Theorem X16_audit_info_of_an_issued_token (sha256_hexdigest : str -> str)
    (isoformat : Z -> str) (now0 now : Z) (uuid : string) (patient_id : str)
    (c : ConsentFlags) :
  (now0 <= now < now0 + 3600)%Z ->
  let audit := get_audit_info isoformat now
                 (issued sha256_hexdigest now0 uuid patient_id c) in
  audit !! "patient_id"
  = Some (take 8 (sha256_hexdigest patient_id) ++ py "...")
  /\ audit !! "session_id" = Some (py uuid)
  /\ audit !! "consent_flags"
     = Some (str_of_nat
               (length (filter (fun b => b = true)
                          [audio_recording c; transcription c; ai_processing c;
                           data_storage c; summary_generation c])))
  /\ audit !! "error" = None.
Proof.
  intros Hnow audit. subst audit.
  unfold get_audit_info, issued, jwt_encode, jwt_decode, token_expiry_minutes.
  rewrite bool_decide_eq_true_2 by reflexivity. cbn [negb iat exp].
  destruct (Z.ltb_spec (now + 0) now0) as [H | _]; [lia|].
  destruct (Z.leb_spec (now0 + 60 * 60) (now - 0)) as [H | _]; [lia|].
  cbn [p_patient_id p_session_id p_consent iat exp].
  rewrite granted_asdict. unfold _hash_patient_id.
  rewrite take_take. replace (8 `min` 16) with 8 by reflexivity.
  cbn [list_to_map foldr fst snd].
  repeat split.
Qed.

Lemma X16_audit_info_of_an_issued_token_witness :
  let audit := get_audit_info (fun _ => py "2023-11-14T22:13:20") 1700000100
                 (issued digest_of_test 1700000000 "session" (py "patient-17")
                    (mkConsentFlags true true true false true)) in
  audit !! "patient_id" = Some (py "9f86d081...")
  /\ audit !! "session_id" = Some (py "session")
  /\ audit !! "consent_flags" = Some (py "4")
  /\ audit !! "error" = None.
Proof.
  apply (X16_audit_info_of_an_issued_token digest_of_test
           (fun _ => py "2023-11-14T22:13:20") 1700000000 1700000100
           "session" (py "patient-17") (mkConsentFlags true true true false true)).
  lia.
Defined.


(** A token signed with the key of the server but without consent to AI
    processing: the 403 of the [try] block comes out as a 401. *)
Example insufficient_consent_is_a_401 :
  let t := jwt_encode
             {| p_patient_id := py "9f86d081884c7d65";
                p_session_id := "session";
                p_consent := asdict (mkConsentFlags true true false true true);
                iat := 1700000000;
                exp := 1700003600 |} secret_key in
  verify_auth_try 1700000100 t
  = Throws (HTTPException 403 "Insufficient consent permissions")
  /\ verify_auth_and_consent 1700000100 t
     = Throws (HTTPException 401 "Invalid authentication or consent").
Proof. vm_compute. split; reflexivity. Qed.

(** X18: the handler of [/api/v1/pre-care/authenticate] announces
    [expires_in] 900 seconds, while the token it returns verifies for
    3600 seconds (unless no datetime can hold its timestamps: then it is
    refused with the error of [utcfromtimestamp]). *)
Theorem X18_token_outlives_the_announced_expiry (sha256_hexdigest : str -> str)
    (now0 now : Z) (uuid : string) (patient_id : str) (kw : gmap string bool)
    (r : AuthenticationResponse) :
  Api.authenticate_patient sha256_hexdigest now0 uuid patient_id kw = Returns r ->
  (now0 <= now <= now0 + 3600)%Z ->
  expires_in r = 900%Z
  /\ if datetime_ok now0 && datetime_ok (now0 + 3600)
     then exists info, verify_token now (auth_token r) = Ok info
     else exists e, verify_token now (auth_token r) = Raise e /\ range_error e.
Proof.
  unfold Api.authenticate_patient. intros Ha Hnow.
  destruct (Consent.authenticate_patient _ _ _ _ _) as [t|] eqn:E; [|discriminate].
  injection Ha as <-. cbn [expires_in auth_token]. split; [reflexivity|].
  apply authenticate_patient_inv in E as [_ ->].
  destruct (flags_of_dict kw) as [a b c d e].
  destruct (datetime_ok now0 && datetime_ok (now0 + 3600)) eqn:Ed.
  - apply andb_true_iff in Ed as [E1 E2].
    eexists. apply verify_token_issued; [lia | exact E1 | exact E2].
  - apply verify_token_issued_out_of_range; [lia | exact Ed].
Qed.

Lemma X18_token_outlives_the_announced_expiry_witness :
  expires_in
    {| auth_status := "success";
       auth_token := issued digest_of_test 1700000000 "session" (py "patient-17")
                       (flags_of_dict (consent_dict true true true false false));
       expires_in := 900 |} = 900%Z
  /\ exists info,
       verify_token (1700000000 + 3000)
         (auth_token
            {| auth_status := "success";
               auth_token := issued digest_of_test 1700000000 "session"
                               (py "patient-17")
                               (flags_of_dict (consent_dict true true true false false));
               expires_in := 900 |}) = Ok info.
Proof.
  apply (X18_token_outlives_the_announced_expiry digest_of_test 1700000000
           (1700000000 + 3000) "session" (py "patient-17")
           (consent_dict true true true false false)); [|lia].
  vm_compute. reflexivity.
Defined.

End ConsentProperties.


(* ===================================================================== *)
(** * Properties of the in-memory database *)
(* ===================================================================== *)

Module DatabaseProperties.

Import Database.

Section DbFacts.

Context {Any : Type}.
Implicit Types (d : db Any) (o : gmap string (pyval Any)).

Lemma deref_modify_eq d r f : deref (modify r f d) r = f (deref d r).
Proof. unfold deref, modify. cbn. now rewrite lookup_insert_eq. Qed.

Lemma deref_modify_ne d r r' f :
  r <> r' -> deref (modify r f d) r' = deref d r'.
Proof. intros H. unfold deref, modify. cbn. now rewrite lookup_insert_ne. Qed.

Lemma deref_alloc_eq d o : deref (alloc_dict o d) (next_ref d) = o.
Proof. unfold deref, alloc_dict. cbn. now rewrite lookup_insert_eq. Qed.

Lemma deref_alloc_ne d o r :
  r <> next_ref d -> deref (alloc_dict o d) r = deref d r.
Proof. intros H. unfold deref, alloc_dict. cbn. now rewrite lookup_insert_ne. Qed.

(** X19: the record of a session that was just created is read back
    through [get_consultation_data] and [get_consultation_context]: it
    is active, carries what was given, and has no chunk yet. *)
Theorem X19_created_session_is_read_back d (uuid : string) (now : Z)
    (patient_id : str) (transcription dossier : pyval Any) :
  let '(session_id, d') :=
    create_consultation_session d uuid now patient_id transcription dossier in
  let ctx := get_consultation_context d' session_id in
  session_id = uuid
  /\ get_consultation_data d' session_id
     = Some (session_data uuid now patient_id transcription dossier)
  /\ session_data uuid now patient_id transcription dossier !! "status"
     = Some (PStr (py "active"))
  /\ ctx_transcription ctx = transcription
  /\ ctx_dossier ctx = dossier
  /\ ctx_chunks ctx = Chunks []
  /\ ctx_consultation ctx
     = session_data uuid now patient_id transcription dossier.
Proof.
  unfold create_consultation_session, get_consultation_data,
    get_consultation_context, view_chunks, deref. simpl.
  rewrite !lookup_insert_eq. simpl.
  repeat split.
Qed.

(** X20: creating a session leaves the consultation record of every
    other session as it was. *)
Theorem X20_creating_a_session_leaves_the_others d (uuid other : string)
    (now : Z) (patient_id : str) (transcription dossier : pyval Any) :
  wf d -> other <> uuid ->
  get_consultation_data
    (create_consultation_session d uuid now patient_id transcription dossier).2
    other
  = get_consultation_data d other.
Proof.
  intros [_ Hc] Hne.
  unfold create_consultation_session, get_consultation_data. simpl.
  rewrite lookup_insert_ne by congruence.
  destruct (consultations d !! other) as [r|] eqn:E; [|reflexivity].
  apply Hc in E. unfold deref. simpl.
  rewrite lookup_insert_ne by lia. reflexivity.
Qed.

Lemma holds_chunks_view d r acc :
  holds_chunks d r acc -> view_chunks d (deref d r) = Chunks acc.
Proof.
  unfold view_chunks. intros [[-> ->] | (l & -> & ->)]; reflexivity.
Qed.

(** One more chunk in a session whose chunks are [acc]. *)
Lemma store_transcription_chunk_step d (sid : string) r acc (c : pyval Any) :
  sessions d !! sid = Some r -> holds_chunks d r acc ->
  exists d',
    store_transcription_chunk d sid c = Ok d'
    /\ sessions d' = sessions d /\ consultations d' = consultations d
    /\ holds_chunks d' r (acc ++ [c])
    /\ forall r', r' <> r -> deref d' r' = deref d r'.
Proof.
  intros Hs Hh. unfold store_transcription_chunk. rewrite Hs.
  destruct Hh as [[Hn ->] | (l & Hl & Hacc)].
  - rewrite Hn. rewrite deref_modify_eq, lookup_insert_eq.
    eexists. split; [reflexivity|].
    split; [reflexivity|]. split; [reflexivity|]. split.
    + right. exists (next_ref d). split.
      * unfold deref. simpl. rewrite lookup_insert_eq. cbn [default from_option id].
        now rewrite lookup_insert_eq.
      * simpl. now rewrite !lookup_insert_eq.
    + intros r' Hne. unfold deref. simpl. now rewrite lookup_insert_ne.
  - rewrite Hl. cbv beta iota zeta. rewrite Hl.
    eexists. split; [reflexivity|].
    split; [reflexivity|]. split; [reflexivity|]. split.
    + right. exists l. split; [exact Hl|]. simpl.
      now rewrite lookup_insert_eq, Hacc.
    + intros r' Hne. reflexivity.
Qed.

Lemma store_chunks_all (sid : string) r (cs : list (pyval Any)) : forall d acc,
  sessions d !! sid = Some r -> holds_chunks d r acc ->
  exists d',
    store_chunks d sid cs = Ok d'
    /\ sessions d' = sessions d /\ consultations d' = consultations d
    /\ holds_chunks d' r (acc ++ cs).
Proof.
  induction cs as [|c cs IH]; intros d acc Hs Hh; simpl.
  - exists d. rewrite app_nil_r. now repeat split.
  - destruct (store_transcription_chunk_step d sid r acc c Hs Hh)
      as (d1 & -> & Hs1 & Hc1 & Hh1 & _). cbn [bind].
    destruct (IH d1 (acc ++ [c])) as (d2 & -> & Hs2 & Hc2 & Hh2);
      [now rewrite Hs1 | exact Hh1 |].
    exists d2. rewrite <- app_assoc in Hh2.
    repeat split; [congruence | congruence | exact Hh2].
Qed.

(** X21: the chunks stored for a created session are kept in the order
    of their arrival, and they are seen through the consultation record
    as well, which is the same dict object as the session record. *)
Theorem X21_chunks_of_a_created_session d (uuid : string) (now : Z)
    (patient_id : str) (transcription dossier : pyval Any)
    (chunks : list (pyval Any)) :
  let d1 := (create_consultation_session d uuid now patient_id
               transcription dossier).2 in
  exists d2,
    store_chunks d1 uuid chunks = Ok d2
    /\ ctx_chunks (get_consultation_context d2 uuid) = Chunks chunks
    /\ view_chunks d2 (ctx_consultation (get_consultation_context d2 uuid))
       = Chunks chunks.
Proof.
  intros d1.
  assert (Hs : sessions d1 !! uuid = Some (next_ref d))
    by (subst d1; simpl; apply lookup_insert_eq).
  assert (Hc : consultations d1 !! uuid = Some (next_ref d))
    by (subst d1; simpl; apply lookup_insert_eq).
  assert (Hh : holds_chunks d1 (next_ref d) []).
  { left. split; [|reflexivity]. subst d1. unfold deref. simpl.
    rewrite lookup_insert_eq. reflexivity. }
  destruct (store_chunks_all uuid (next_ref d) chunks d1 [] Hs Hh)
    as (d2 & E & Hs2 & Hc2 & Hh2).
  exists d2. split; [exact E|].
  unfold get_consultation_context. cbn [ctx_chunks ctx_consultation].
  rewrite Hs2, Hc2, Hs, Hc. split; now apply holds_chunks_view.
Qed.

Lemma merge_update_maps (rs rc : nat) (data : gmap string (pyval Any)) (nu : Z) d :
  sessions (merge_update rs rc data nu d) = sessions d
  /\ consultations (merge_update rs rc data nu d) = consultations d
  /\ lists (merge_update rs rc data nu d) = lists d
  /\ next_ref (merge_update rs rc data nu d) = next_ref d.
Proof. unfold merge_update. destruct (looks_final data); now repeat split. Qed.

Lemma union_twice (data o : gmap string (pyval Any)) :
  data ∪ (data ∪ o) = data ∪ o.
Proof. now rewrite map_union_assoc, (idemp (∪) data). Qed.

(** The consultation record after the merge, aliased or not. *)
Lemma merge_update_consultation (rs rc : nat) (data : gmap string (pyval Any))
    (nu : Z) d :
  deref (merge_update rs rc data nu d) rc
  = updated_record data (deref d rc) nu.
Proof.
  unfold merge_update, updated_record.
  destruct (decide (rs = rc)) as [->|Hne].
  - destruct (looks_final data);
      rewrite ?deref_modify_eq, ?lookup_insert_eq; cbn [default from_option id];
      rewrite ?insert_insert_eq, union_twice; reflexivity.
  - destruct (looks_final data);
      repeat (rewrite ?deref_modify_eq, ?lookup_insert_eq; cbn [default from_option id];
              rewrite ?(deref_modify_ne _ rs rc) by exact Hne);
      reflexivity.
Qed.

(** The session record after the merge, when it is a dict of its own. *)
Lemma merge_update_session (rs rc : nat) (data : gmap string (pyval Any))
    (nu : Z) d :
  rs <> rc ->
  deref (merge_update rs rc data nu d) rs
  = updated_record data (deref d rs) nu.
Proof.
  intros Hne. assert (Hne' : rc <> rs) by congruence.
  unfold merge_update, updated_record.
  destruct (looks_final data);
    repeat (rewrite ?deref_modify_eq, ?lookup_insert_eq; cbn [default from_option id];
            rewrite ?(deref_modify_ne _ rc rs) by exact Hne');
    reflexivity.
Qed.

(** X22: after [update_consultation_session] the consultation record of
    the session is its old record (a minimal active one if there was
    none) overridden by the entries of [data], with [updated_at] set to
    the time of the update and, when [data] has a summary, a redacted
    text or a transcription, the status [completed], whatever status
    [data] itself gives. *)
Theorem X22_record_after_an_update d (sid : string)
    (data : gmap string (pyval Any)) (now_s now_c now_u : Z) :
  wf d ->
  get_consultation_data
    (update_consultation_session d sid data now_s now_c now_u) sid
  = Some (updated_record data
            (match consultations d !! sid with
             | Some r => deref d r
             | None => minimal_record sid now_c
             end) now_u).
Proof.
  intros [Hws Hwc]. unfold update_consultation_session, get_consultation_data.
  destruct (sessions d !! sid) as [rs|] eqn:Es;
    destruct (consultations d !! sid) as [rc|] eqn:Ec; simpl; rewrite ?Ec; simpl;
    match goal with
    | |- context [merge_update ?a ?b ?c ?e ?f] =>
        destruct (merge_update_maps a b c e f) as (_ & -> & _)
    end; simpl; rewrite ?Ec, ?lookup_insert_eq;
    rewrite merge_update_consultation; do 2 f_equal; unfold deref; simpl;
    try reflexivity; rewrite ?lookup_insert_eq; try reflexivity.
  apply Hwc in Ec. now rewrite lookup_insert_ne by lia.
Qed.

Lemma updated_record_chunks (data old : gmap string (pyval Any)) (nu : Z) :
  updated_record data old nu !! "chunks" = (data ∪ old) !! "chunks".
Proof.
  unfold updated_record. destruct (looks_final data);
    now rewrite ?lookup_insert_ne by discriminate.
Qed.

(** X23: a session that [update_consultation_session] had to create
    gets two separate records. A chunk stored for it afterwards is in
    the session record and its context, but the consultation record
    does not have it. *)
Theorem X23_chunks_of_a_session_made_by_update d (sid : string)
    (data : gmap string (pyval Any)) (now_s now_c now_u : Z) (c : pyval Any) :
  sessions d !! sid = None -> consultations d !! sid = None ->
  data !! "chunks" = None ->
  let d1 := update_consultation_session d sid data now_s now_c now_u in
  exists d2,
    store_transcription_chunk d1 sid c = Ok d2
    /\ ctx_chunks (get_consultation_context d2 sid) = Chunks [c]
    /\ ctx_consultation (get_consultation_context d2 sid) !! "chunks" = None
    /\ get_consultation_data d2 sid = get_consultation_data d1 sid.
Proof.
  intros Es Ec Hd d1. subst d1. unfold update_consultation_session.
  rewrite Es. simpl. rewrite Ec. simpl.
  set (n := next_ref d).
  set (dA := set_consultation sid (S n) _).
  destruct (merge_update_maps n (S n) data now_u dA) as (Hs & Hc & _).
  assert (Hs1 : sessions (merge_update n (S n) data now_u dA) !! sid = Some n).
  { rewrite Hs. subst dA. simpl. apply lookup_insert_eq. }
  assert (Hc1 : consultations (merge_update n (S n) data now_u dA) !! sid
                = Some (S n)).
  { rewrite Hc. subst dA. simpl. apply lookup_insert_eq. }
  assert (Hn : deref (merge_update n (S n) data now_u dA) n !! "chunks" = None).
  { rewrite merge_update_session by lia. rewrite updated_record_chunks.
    apply lookup_union_None. split; [exact Hd|].
    subst dA. unfold deref. simpl.
    rewrite lookup_insert_ne by lia. fold n. rewrite lookup_insert_eq.
    reflexivity. }
  assert (Hm : deref (merge_update n (S n) data now_u dA) (S n) !! "chunks" = None).
  { rewrite merge_update_consultation. rewrite updated_record_chunks.
    apply lookup_union_None. split; [exact Hd|].
    subst dA. unfold deref. simpl. rewrite lookup_insert_eq. reflexivity. }
  destruct (store_transcription_chunk_step _ sid n [] c Hs1 (or_introl (conj Hn eq_refl)))
    as (d2 & E & Hs2 & Hc2 & Hh2 & Hframe).
  exists d2. split; [exact E|].
  unfold get_consultation_context, get_consultation_data.
  cbn [ctx_chunks ctx_consultation].
  rewrite Hs2, Hc2, Hs1, Hc1. rewrite (Hframe (S n)) by lia.
  split; [now apply holds_chunks_view|]. split; [exact Hm | reflexivity].
Qed.

End DbFacts.

Lemma X20_creating_a_session_leaves_the_others_witness :
  let d := (create_consultation_session (@empty_db unit) "s1" 1700000000
              (py "9f86d081884c7d65") PNone PNone).2 in
  get_consultation_data
    (create_consultation_session d "s2" 1700000060 (py "60303ae22b998861")
       PNone PNone).2 "s1"
  = get_consultation_data d "s1".
Proof.
  apply X20_creating_a_session_leaves_the_others; [|discriminate].
  split; intros sid r; simpl;
    (destruct (decide (sid = "s1")) as [->|Hne];
     [rewrite lookup_insert_eq; intros [= <-]; lia
     | rewrite lookup_insert_ne by congruence; rewrite lookup_empty; discriminate]).
Defined.

Lemma X22_record_after_an_update_witness :
  let data : gmap string (pyval unit) :=
    <["redacted_text" := PStr (py "SSN [SSN_REDACTED]")]>
      (<["status" := PStr (py "archived")]> ∅) in
  get_consultation_data
    (update_consultation_session empty_db "s1" data 1700000000 1700000001
       1700000002) "s1"
  = Some (updated_record data (minimal_record "s1" 1700000001) 1700000002).
Proof.
  apply (X22_record_after_an_update (@empty_db unit)).
  split; intros sid r H; simpl in H; now rewrite lookup_empty in H.
Defined.

(** The status of such a record: [completed], not the [archived] that
    the data asked for. *)
Example update_forces_the_status :
  let data : gmap string (pyval unit) :=
    <["redacted_text" := PStr (py "SSN [SSN_REDACTED]")]>
      (<["status" := PStr (py "archived")]> ∅) in
  updated_record data (minimal_record "s1" 1700000001) 1700000002 !! "status"
  = Some (PStr (py "completed")).
Proof. vm_compute. reflexivity. Qed.

Lemma X23_chunks_of_a_session_made_by_update_witness :
  let d1 := update_consultation_session (@empty_db unit) "s1" ∅
              1700000000 1700000001 1700000002 in
  exists d2,
    store_transcription_chunk d1 "s1" (PObj tt) = Ok d2
    /\ ctx_chunks (get_consultation_context d2 "s1") = Chunks [PObj tt]
    /\ ctx_consultation (get_consultation_context d2 "s1") !! "chunks" = None
    /\ get_consultation_data d2 "s1" = get_consultation_data d1 "s1".
Proof.
  apply (X23_chunks_of_a_session_made_by_update (@empty_db unit));
    apply lookup_empty.
Defined.

End DatabaseProperties.

(* ===================================================================== *)
(** * Properties of the audio handlers *)
(* ===================================================================== *)

Module HandlerProperties.

Import Consent ConsentMore Api Database Handlers.
Import RedactionFacts ConsentFacts ConsentProperties DatabaseProperties.

Local Abbreviation digest_of_test :=
  (fun _ : str => py "9f86d081884c7d659a2feaa0c55ad015a3bf4f1b2b0b822cd15d6c15b0f00a08").

Lemma redact_phi_detected (text : str) :
  detected_phi (PHIRedactor.redact_phi text) = PHIRedactor._detect_patterns text.
Proof.
  unfold PHIRedactor.redact_phi, redact_phi_with, redact_try. cbn.
  apply app_nil_r.
Qed.

Lemma redact_phi_removes (text : str) :
  Forall (fun d =>
            contains (redacted_text (PHIRedactor.redact_phi text)) (original d)
            = false)
         (PHIRedactor._detect_patterns text).
Proof.
  rewrite <- redact_phi_detected. apply redact_phi_with_removes.
  - intros t ds [= <-]. now apply detect_patterns_with_safe.
  - intros t ds [= <-]. constructor.
Qed.

(** X24: whatever [process_audio_chunk] is sent, the chunk it keeps in
    the provenance map has the redacted text, and the text of a
    [success] answer has no occurrence of anything the patterns matched
    in the transcribed text. Its only error is the status 500, and then
    the database is as before. *)
Theorem X24_chunk_answer_is_redacted (st : app) (uuid session_id : string)
    (chunk_data : list Byte.byte)
    (chunk_metadata : gmap string AudioProcessor.meta)
    (patient_info : PatientInfo) :
  let raw :=
    AudioProcessor.text
      (AudioProcessor.transcribe_chunk chunk_data chunk_metadata) in
  let res :=
    process_audio_chunk st uuid session_id chunk_data chunk_metadata
      patient_info in
  Provenance.text <$> provenance_map res.2 !! uuid
  = Some (redacted_text (PHIRedactor.redact_phi raw))
  /\ match res.1 with
     | Returns r =>
         chunk_status r = "success" /\ chunk_id r = uuid
         /\ chunk_transcription r = redacted_text (PHIRedactor.redact_phi raw)
         /\ Forall (fun d => contains (chunk_transcription r) (original d) = false)
                   (PHIRedactor._detect_patterns raw)
     | Throws t =>
         t = HTTPException 500 "Failed to process audio chunk"
         /\ db_manager res.2 = db_manager st
     end.
Proof.
  intros raw res. subst res. unfold process_audio_chunk.
  unfold Provenance.map_provenance.
  change (AudioProcessor.timestamps
            (AudioProcessor.transcribe_chunk chunk_data chunk_metadata))
    with [AudioProcessor.timestamp 0 3 raw].
  fold raw. cbv beta iota zeta.
  match goal with
  | |- context [store_transcription_chunk ?a ?b ?c] =>
      destruct (store_transcription_chunk a b c) as [d|e]
  end;
    cbn [fst snd provenance_map db_manager chunk_status chunk_id
         chunk_transcription Provenance.text Provenance.chunk_id];
    rewrite lookup_insert_eq;
    (split; [reflexivity|]).
  - split; [reflexivity|]. split; [reflexivity|]. split; [reflexivity|].
    apply redact_phi_removes.
  - split; reflexivity.
Qed.

(** A timestamp that reads like a social security number does not come
    back. *)
Example chunk_with_a_number_as_timestamp :
  (process_audio_chunk {| db_manager := empty_db; provenance_map := ∅ |}
     "c1" "s1" []
     (<["timestamp" := AudioProcessor.MStr (py "123-45-6789")]> ∅)
     {| Consent.patient_id := py "9f86d081884c7d65"; session_id := "s1";
        consent := mkConsentFlags true true true false false;
        authenticated_at := 1700000000; expires_at := 1700003600 |}).1
  = Returns {| chunk_status := "success"; chunk_id := "c1";
               chunk_transcription :=
                 py "Audio chunk transcribed at [SSN_REDACTED]" |}.
Proof. vm_compute. reflexivity. Qed.

(** X25: for a session that the database does not know,
    [process_audio_chunk] answers [success] and leaves the database as it
    was: the chunk is in no session. *)
Theorem X25_chunk_of_an_unknown_session (st : app) (uuid session_id : string)
    (chunk_data : list Byte.byte)
    (chunk_metadata : gmap string AudioProcessor.meta)
    (patient_info : PatientInfo) :
  sessions (db_manager st) !! session_id = None ->
  let res :=
    process_audio_chunk st uuid session_id chunk_data chunk_metadata
      patient_info in
  (exists r, res.1 = Returns r /\ chunk_status r = "success")
  /\ db_manager res.2 = db_manager st
  /\ ctx_chunks (get_consultation_context (db_manager res.2) session_id)
     = Chunks [].
Proof.
  intros Hs res. subst res. unfold process_audio_chunk.
  unfold Provenance.map_provenance, store_transcription_chunk.
  change (AudioProcessor.timestamps
            (AudioProcessor.transcribe_chunk chunk_data chunk_metadata))
    with [AudioProcessor.timestamp 0 3
            (AudioProcessor.text
               (AudioProcessor.transcribe_chunk chunk_data chunk_metadata))].
  cbv beta iota zeta. rewrite Hs. cbn [fst snd db_manager]. split; [eauto|]. split; [reflexivity|].
  unfold get_consultation_context. cbn [ctx_chunks]. rewrite Hs.
  unfold view_chunks. now rewrite lookup_empty.
Qed.

Lemma X25_chunk_of_an_unknown_session_witness :
  (exists r,
     (process_audio_chunk {| db_manager := empty_db; provenance_map := ∅ |}
        "c1" "s1" [] ∅
        {| Consent.patient_id := py "9f86d081884c7d65"; session_id := "s1";
           consent := mkConsentFlags true true true false false;
           authenticated_at := 1700000000; expires_at := 1700003600 |}).1
     = Returns r /\ chunk_status r = "success")
  /\ db_manager
       (process_audio_chunk {| db_manager := empty_db; provenance_map := ∅ |}
          "c1" "s1" [] ∅
          {| Consent.patient_id := py "9f86d081884c7d65"; session_id := "s1";
             consent := mkConsentFlags true true true false false;
             authenticated_at := 1700000000; expires_at := 1700003600 |}).2
     = empty_db
  /\ ctx_chunks
       (get_consultation_context
          (db_manager
             (process_audio_chunk
                {| db_manager := empty_db; provenance_map := ∅ |}
                "c1" "s1" [] ∅
                {| Consent.patient_id := py "9f86d081884c7d65";
                   session_id := "s1";
                   consent := mkConsentFlags true true true false false;
                   authenticated_at := 1700000000;
                   expires_at := 1700003600 |}).2) "s1")
     = Chunks [].
Proof.
  apply (X25_chunk_of_an_unknown_session
           {| db_manager := empty_db; provenance_map := ∅ |}).
  apply lookup_empty.
Defined.

(** X26: for a session whose record holds the chunks [acc],
    [process_audio_chunk] answers [success] and the context of the
    session then has one chunk more, the last one with the redacted
    text of the answer. *)
Theorem X26_chunk_of_a_known_session (st : app) (uuid session_id : string)
    (chunk_data : list Byte.byte)
    (chunk_metadata : gmap string AudioProcessor.meta)
    (patient_info : PatientInfo) (r : nat) (acc : list (pyval object)) :
  sessions (db_manager st) !! session_id = Some r ->
  holds_chunks (db_manager st) r acc ->
  let res :=
    process_audio_chunk st uuid session_id chunk_data chunk_metadata
      patient_info in
  exists c,
    res.1 = Returns {| chunk_status := "success"; chunk_id := uuid;
                       chunk_transcription := Provenance.text c |}
    /\ Provenance.text c
       = redacted_text
           (PHIRedactor.redact_phi
              (AudioProcessor.text
                 (AudioProcessor.transcribe_chunk chunk_data chunk_metadata)))
    /\ ctx_chunks (get_consultation_context (db_manager res.2) session_id)
       = Chunks (acc ++ [PObj (OChunk c)]).
Proof.
  intros Hs Hh res. subst res. unfold process_audio_chunk.
  unfold Provenance.map_provenance.
  change (AudioProcessor.timestamps
            (AudioProcessor.transcribe_chunk chunk_data chunk_metadata))
    with [AudioProcessor.timestamp 0 3
            (AudioProcessor.text
               (AudioProcessor.transcribe_chunk chunk_data chunk_metadata))].
  cbv beta iota zeta.
  match goal with
  | |- context [store_transcription_chunk _ _ (PObj (OChunk ?c))] =>
      destruct (store_transcription_chunk_step (db_manager st) session_id r
                  acc (PObj (OChunk c)) Hs Hh)
        as (d' & -> & Hs' & _ & Hh' & _);
      exists c
  end.
  cbn [fst snd db_manager]. split; [reflexivity|]. split; [reflexivity|].
  unfold get_consultation_context. cbn [ctx_chunks]. rewrite Hs', Hs.
  now apply holds_chunks_view.
Qed.

Lemma X26_chunk_of_a_known_session_witness :
  exists c,
    (process_audio_chunk
       {| db_manager :=
            (create_consultation_session empty_db "s1" 1700000000
               (py "9f86d081884c7d65") PNone PNone).2;
          provenance_map := ∅ |}
       "c1" "s1" [] ∅
       {| Consent.patient_id := py "9f86d081884c7d65"; session_id := "s1";
          consent := mkConsentFlags true true true false false;
          authenticated_at := 1700000000; expires_at := 1700003600 |}).1
    = Returns {| chunk_status := "success"; chunk_id := "c1";
                 chunk_transcription := Provenance.text c |}
    /\ Provenance.text c
       = redacted_text
           (PHIRedactor.redact_phi
              (AudioProcessor.text (AudioProcessor.transcribe_chunk [] ∅)))
    /\ ctx_chunks
         (get_consultation_context
            (db_manager
               (process_audio_chunk
                  {| db_manager :=
                       (create_consultation_session empty_db "s1" 1700000000
                          (py "9f86d081884c7d65") PNone PNone).2;
                     provenance_map := ∅ |}
                  "c1" "s1" [] ∅
                  {| Consent.patient_id := py "9f86d081884c7d65";
                     session_id := "s1";
                     consent := mkConsentFlags true true true false false;
                     authenticated_at := 1700000000;
                     expires_at := 1700003600 |}).2) "s1")
       = Chunks ([] ++ [PObj (OChunk c)]).
Proof.
  apply (X26_chunk_of_a_known_session
           {| db_manager :=
                (create_consultation_session empty_db "s1" 1700000000
                   (py "9f86d081884c7d65") PNone PNone).2;
              provenance_map := ∅ |} "c1" "s1" [] ∅ _ 0 []).
  - reflexivity.
  - left. split; reflexivity.
Defined.

(** What [verify_token] raises: one of its two [ValueError]s, the
    [TypeError] of a consent dict with a key that is no flag, or the
    error of [utcfromtimestamp]. *)
Lemma verify_token_raises (now : Z) (t : token) (e : exn) :
  verify_token now t = Raise e ->
  e = TokenExpired \/ e = TokenInvalid \/ range_error e
  \/ exists msg, e = TypeError msg.
Proof.
  unfold verify_token, verify_try, jwt_decode.
  destruct t as [claims k | raw]; cbn [bind].
  - destruct (negb _); cbn [bind]; [intros [= <-]; auto|].
    destruct (_ <? _)%Z; cbn [bind]; [intros [= <-]; auto|].
    destruct (_ <=? _)%Z; cbn [bind]; [intros [= <-]; auto|].
    destruct (_ && _); [intros [= <-]; auto|].
    unfold ConsentFlags_of. destruct (bool_decide _); cbn [bind];
      [|intros [= <-]; eauto 6].
    destruct (datetime_ok (iat claims)) eqn:E1.
    + rewrite (utcfromtimestamp_ok _ E1). cbn [bind].
      destruct (datetime_ok (exp claims)) eqn:E2.
      * rewrite (utcfromtimestamp_ok _ E2). discriminate.
      * destruct (utcfromtimestamp_raise _ E2) as (e2 & -> & He).
        cbn [bind]. destruct He as [[y ->] | [m ->]]; intros [= <-];
          right; right; left; [left | right]; eauto.
    + destruct (utcfromtimestamp_raise _ E1) as (e1 & -> & He).
      cbn [bind]. destruct He as [[y ->] | [m ->]]; intros [= <-];
        right; right; left; [left | right]; eauto.
  - intros [= <-]. auto.
Qed.

Lemma py_app (a b : string) : py (a +:+ b) = py a ++ py b.
Proof. induction a as [|c a IH]; [reflexivity|]. simpl. now rewrite IH. Qed.

(** The characters of a number in decimal. *)
Lemma pretty_N_go_chars (x : N) : forall s,
  Forall (fun c => c ∈ py "0123456789-") (py s) ->
  Forall (fun c => c ∈ py "0123456789-") (py (pretty_N_go x s)).
Proof.
  induction (N.lt_wf_0 x) as [x _ IH]. intros s Hs.
  destruct (decide (x = 0%N)) as [->|Hx]; [now rewrite pretty_N_go_0|].
  rewrite pretty_N_go_step by lia. apply IH; [apply N.div_lt; lia|].
  simpl. constructor; [|exact Hs].
  unfold pretty_N_char. repeat case_match; set_solver.
Qed.

Lemma pretty_Z_chars (z : Z) :
  Forall (fun c => c ∈ py "0123456789-") (py (pretty z)).
Proof.
  assert (HN : forall n : N, Forall (fun c => c ∈ py "0123456789-") (py (pretty n))).
  { intros n. unfold pretty, pretty_N. destruct (decide (n = 0%N)).
    - repeat constructor.
    - apply pretty_N_go_chars. constructor. }
  destruct z as [|p|p]; unfold pretty, pretty_Z.
  - repeat constructor.
  - apply HN.
  - rewrite py_app. apply Forall_app. split; [|apply HN].
    repeat constructor.
Qed.

Lemma absent_char_not_contains (c : ascii) (s w : str) :
  c ∈ w -> c ∉ s -> contains s w = false.
Proof.
  intros Hw Hs. apply PyStrFacts.not_contains_occurs. intros (a & b & ->).
  apply Hs. rewrite !elem_of_app. auto.
Qed.

(** The message of a year out of range has no [x] and no [v], in any
    case of the letters: it mentions neither [expired] nor [invalid]. *)
Lemma year_out_of_range_mentions (year : Z) :
  mentions (year_out_of_range year) "expired" = false
  /\ mentions (year_out_of_range year) "invalid" = false.
Proof.
  assert (H : Forall (fun c => c <> "x"%char /\ c <> "v"%char)
                (map to_lower (py (year_out_of_range year)))).
  { unfold year_out_of_range. rewrite !py_app, !map_app, !Forall_app.
    split; [|split].
    - repeat constructor; discriminate.
    - apply Forall_map. eapply Forall_impl; [apply pretty_Z_chars|].
      intros c Hc. simpl in Hc.
      repeat (apply elem_of_cons in Hc as [->|Hc]; [split; discriminate|]).
      now apply elem_of_nil in Hc.
    - repeat constructor; discriminate. }
  unfold mentions. split.
  - apply (absent_char_not_contains "x"); [set_solver|].
    intros Hin. rewrite Forall_forall in H. now destruct (H _ Hin).
  - apply (absent_char_not_contains "v"); [set_solver|].
    intros Hin. rewrite Forall_forall in H. now destruct (H _ Hin).
Qed.

Lemma year_out_of_range_is_no_refusal (year : Z) :
  ~ (year_out_of_range year = "Authentication token has expired"
     \/ year_out_of_range year = "Invalid authentication token").
Proof. unfold year_out_of_range. intros [H|H]; discriminate H. Qed.

(** X27: the answers of [process_audio_file]. A token that
    [verify_token] refuses as expired or invalid gives the status 401
    with the message of the refusal; a token whose timestamps are
    outside the years of a datetime gives 400 with the message of that
    [ValueError]; any other refusal gives 500. A patient id that is not
    the one of the token gives 500, not the 403 raised for it. In these
    cases nothing is stored. Every other call gives [success]. *)
Theorem X27_answers_of_process_audio_file (sha256_hexdigest : str -> str)
    (st : app) (x : drawn) (audio : list Byte.byte) (patient_id : str)
    (credentials : token) :
  let res :=
    process_audio_file sha256_hexdigest st x audio patient_id credentials in
  match verify_token (now x) credentials with
  | Ok patient_info =>
      if bool_decide (Consent.patient_id patient_info
                      = _hash_patient_id sha256_hexdigest patient_id)
      then exists r, res.1 = Returns r /\ audio_status r = "success"
      else
        process_audio_file_try sha256_hexdigest st x audio patient_id
          credentials
        = (Throws (HTTPException 403 "Patient ID mismatch"), st)
        /\ res = (Throws (HTTPException 500 "Failed to process audio file"), st)
  | Raise (ValueError ve) =>
      if bool_decide (ve = "Authentication token has expired"
                      \/ ve = "Invalid authentication token")
      then res = (Throws (HTTPException 401 ve), st)
      else res = (Throws (HTTPException 400 ve), st)
           /\ exists year, ve = year_out_of_range year
  | Raise _ =>
      res = (Throws (HTTPException 500 "Failed to process audio file"), st)
  end.
Proof.
  intros res. subst res. unfold process_audio_file, process_audio_file_try.
  destruct (verify_token (now x) credentials) as [info|e] eqn:E.
  - destruct (bool_decide _); cbn [negb].
    + unfold create_consultation_session, Provenance.map_provenance.
      cbn [fst snd]. eauto.
    + now split.
  - apply verify_token_raises in E
      as [-> | [-> | [[[y ->] | [msg ->]] | [msg ->]]]].
    + reflexivity.
    + reflexivity.
    + rewrite bool_decide_eq_false_2 by apply year_out_of_range_is_no_refusal.
      destruct (year_out_of_range_mentions y) as [-> ->]. cbn [orb].
      split; [reflexivity | eauto].
    + reflexivity.
    + reflexivity.
Qed.

(** A token signed with the key of the code whose expiry is the second
    10^12 is answered with the status 400. *)
Example expiry_in_the_year_33658 :
  process_audio_file digest_of_test
    {| db_manager := empty_db; provenance_map := ∅ |}
    (mkDrawn 1700000100 "s1" 1700000101 "c1" 1700000102 1700000103
       1700000104 (py "2023-11-14T22:15:04"))
    [] (py "patient-17")
    (Signed {| p_patient_id := _hash_patient_id digest_of_test (py "patient-17");
               p_session_id := "session";
               p_consent := asdict (mkConsentFlags true true true false false);
               iat := 1700000000;
               exp := 1000000000000 |} secret_key)
  = (Throws (HTTPException 400 "year 33658 is out of range"),
     {| db_manager := empty_db; provenance_map := ∅ |}).
Proof. vm_compute. reflexivity. Qed.

Lemma mock_text_is_unchanged :
  redacted_text (PHIRedactor.redact_phi AudioProcessor.mock_text)
  = AudioProcessor.mock_text.
Proof. vm_compute. reflexivity. Qed.

Lemma update_of_a_created_session (d : db object) (sid : string) (r : nat)
    (data : gmap string (pyval object)) (now_s now_c now_u : Z) :
  sessions d !! sid = Some r -> consultations d !! sid = Some r ->
  let d' := update_consultation_session d sid data now_s now_c now_u in
  sessions d' !! sid = Some r /\ consultations d' !! sid = Some r
  /\ deref d' r = updated_record data (deref d r) now_u.
Proof.
  intros Hs Hc d'. subst d'. unfold update_consultation_session.
  rewrite Hs. cbv beta iota zeta. rewrite Hc. cbv beta iota zeta.
  destruct (merge_update_maps r r data now_u d) as (-> & -> & _).
  repeat split; try assumption. apply merge_update_consultation.
Qed.

(** X28: a token that [authenticate_patient] returned is good for
    [process_audio_file] under the same patient id from its issue until
    its expiry. The answer has the mock transcription and the id drawn
    for the session; the record of the session, one dict for [sessions]
    and [consultations], has the hash of the patient id, the redacted
    text and the status [completed]. (For a token whose timestamps no
    datetime can hold the call fails and stores nothing.) *)
Theorem X28_audio_of_an_authenticated_patient (sha256_hexdigest : str -> str)
    (st : app) (x : drawn) (audio : list Byte.byte) (patient_id : str)
    (now0 : Z) (uuid : string) (consent_flags : gmap string bool)
    (credentials : token) :
  Consent.authenticate_patient sha256_hexdigest now0 uuid patient_id
    consent_flags = Ok credentials ->
  (now0 <= now x < now0 + 3600)%Z ->
  let res :=
    process_audio_file sha256_hexdigest st x audio patient_id credentials in
  let ctx := get_consultation_context (db_manager res.2) (session_uuid x) in
  if datetime_ok now0 && datetime_ok (now0 + 3600)
  then
    exists r record,
      res.1 = Returns r
      /\ audio_session_id r = session_uuid x
      /\ audio_transcription r = AudioProcessor.mock_text
      /\ word_count (processing_metadata r) = 14
      /\ get_consultation_data (db_manager res.2) (session_uuid x) = Some record
      /\ ctx_consultation ctx = record
      /\ ctx_transcription ctx = default PNone (record !! "transcription")
      /\ record !! "patient_id"
         = Some (PStr (_hash_patient_id sha256_hexdigest patient_id))
      /\ record !! "redacted_text" = Some (PStr AudioProcessor.mock_text)
      /\ record !! "status" = Some (PStr (py "completed"))
      /\ record !! "created_at" = Some (PTime (created x))
      /\ record !! "updated_at" = Some (PTime (now_u x))
  else exists t, res = (Throws t, st).
Proof.
  intros Ha Hnow res ctx.
  apply authenticate_patient_inv in Ha as [_ ->].
  subst ctx res. unfold process_audio_file, process_audio_file_try.
  destruct (flags_of_dict consent_flags) as [b1 b2 b3 b4 b5].
  destruct (datetime_ok now0 && datetime_ok (now0 + 3600)) eqn:Ed.
  2:{ destruct (verify_token_issued_out_of_range sha256_hexdigest now0 uuid
                  patient_id b1 b2 b3 b4 b5 (now x)) as (e & -> & He);
        [lia | exact Ed |].
      destruct He as [[y ->] | [m ->]]; [|eauto].
      destruct (year_out_of_range_mentions y) as [-> ->]. cbn [orb]. eauto. }
  apply andb_true_iff in Ed as [Ed1 Ed2].
  rewrite (verify_token_issued sha256_hexdigest now0 uuid patient_id
             b1 b2 b3 b4 b5 (now x)) by (lia || assumption).
  cbn [Consent.patient_id]. rewrite bool_decide_eq_true_2 by reflexivity.
  cbn [negb].
  unfold Provenance.map_provenance, create_consultation_session,
    AudioProcessor.transcribe_audio.
  cbn [AudioProcessor.text AudioProcessor.timestamps AudioProcessor.metadata].
  rewrite mock_text_is_unchanged. cbv beta iota zeta.
  set (r0 := next_ref (db_manager st)).
  set (d1 := set_consultation (session_uuid x) r0 _).
  assert (Hs1 : sessions d1 !! session_uuid x = Some r0)
    by apply lookup_insert_eq.
  assert (Hc1 : consultations d1 !! session_uuid x = Some r0)
    by apply lookup_insert_eq.
  assert (Hd1 : deref d1 r0
                = session_data (session_uuid x) (created x)
                    (_hash_patient_id sha256_hexdigest patient_id)
                    PNone (PObj (ODict ∅))).
  { unfold deref. subst d1. cbn [dicts set_consultation set_session alloc_dict].
    now rewrite lookup_insert_eq. }
  match goal with
  | |- context [update_consultation_session d1 ?sid ?data ?a ?b ?c] =>
      destruct (update_of_a_created_session d1 sid _ data a b c Hs1 Hc1)
        as (Hs2 & Hc2 & Hd2)
  end.
  eexists _, _. cbn [fst snd db_manager].
  split; [reflexivity|]. split; [reflexivity|]. split; [reflexivity|].
  split; [vm_compute; reflexivity|].
  unfold get_consultation_data, get_consultation_context.
  cbn [ctx_consultation ctx_transcription].
  rewrite Hs2, Hc2, Hd2, Hd1.
  split; [reflexivity|]. split; [reflexivity|]. split; [reflexivity|].
  repeat split; vm_compute; reflexivity.
Qed.

Lemma X28_audio_of_an_authenticated_patient_witness :
  exists r record,
    (process_audio_file digest_of_test
       {| db_manager := empty_db; provenance_map := ∅ |}
       (mkDrawn 1700000100 "s1" 1700000101 "c1" 1700000102 1700000103
          1700000104 (py "2023-11-14T22:15:04"))
       [] (py "patient-17")
       (issued digest_of_test 1700000000 "session" (py "patient-17")
          (mkConsentFlags true true true false false))).1 = Returns r
    /\ audio_session_id r = "s1"
    /\ audio_transcription r = AudioProcessor.mock_text
    /\ word_count (processing_metadata r) = 14
    /\ get_consultation_data
         (db_manager
            (process_audio_file digest_of_test
               {| db_manager := empty_db; provenance_map := ∅ |}
               (mkDrawn 1700000100 "s1" 1700000101 "c1" 1700000102 1700000103
                  1700000104 (py "2023-11-14T22:15:04"))
               [] (py "patient-17")
               (issued digest_of_test 1700000000 "session" (py "patient-17")
                  (mkConsentFlags true true true false false))).2) "s1"
       = Some record
    /\ ctx_consultation
         (get_consultation_context
            (db_manager
               (process_audio_file digest_of_test
                  {| db_manager := empty_db; provenance_map := ∅ |}
                  (mkDrawn 1700000100 "s1" 1700000101 "c1" 1700000102
                     1700000103 1700000104 (py "2023-11-14T22:15:04"))
                  [] (py "patient-17")
                  (issued digest_of_test 1700000000 "session"
                     (py "patient-17")
                     (mkConsentFlags true true true false false))).2) "s1")
       = record
    /\ ctx_transcription
         (get_consultation_context
            (db_manager
               (process_audio_file digest_of_test
                  {| db_manager := empty_db; provenance_map := ∅ |}
                  (mkDrawn 1700000100 "s1" 1700000101 "c1" 1700000102
                     1700000103 1700000104 (py "2023-11-14T22:15:04"))
                  [] (py "patient-17")
                  (issued digest_of_test 1700000000 "session"
                     (py "patient-17")
                     (mkConsentFlags true true true false false))).2) "s1")
       = default PNone (record !! "transcription")
    /\ record !! "patient_id"
       = Some (PStr (_hash_patient_id digest_of_test (py "patient-17")))
    /\ record !! "redacted_text" = Some (PStr AudioProcessor.mock_text)
    /\ record !! "status" = Some (PStr (py "completed"))
    /\ record !! "created_at" = Some (PTime 1700000101)
    /\ record !! "updated_at" = Some (PTime 1700000104).
Proof.
  apply (X28_audio_of_an_authenticated_patient digest_of_test
           {| db_manager := empty_db; provenance_map := ∅ |}
           (mkDrawn 1700000100 "s1" 1700000101 "c1" 1700000102 1700000103
              1700000104 (py "2023-11-14T22:15:04"))
           [] (py "patient-17") 1700000000 "session"
           (consent_dict true true true false false)).
  - vm_compute. reflexivity.
  - cbn. lia.
Defined.

(** X29: [store_summaries] for a session made by
    [create_consultation_session] keeps the two summaries under the id
    drawn for them, and puts that id into the record of the session,
    which is the record that [get_consultation_data] reads. *)
Theorem X29_summaries_of_a_created_session {Any : Type} (d : db Any)
    (uuid summary_uuid : string) (now now' : Z) (patient_id : str)
    (transcription dossier clinician_summary patient_summary : pyval Any) :
  let d1 := (create_consultation_session d uuid now patient_id transcription
               dossier).2 in
  let d2 := store_summaries d1 summary_uuid now' uuid clinician_summary
              patient_summary in
  get_consultation_data d2 uuid
  = Some (<["summary_id" := PStr (py summary_uuid)]>
            (session_data uuid now patient_id transcription dossier))
  /\ match summaries d2 !! summary_uuid with
     | Some s =>
         s !! "session_id" = Some (PStr (py uuid))
         /\ s !! "clinician_summary" = Some clinician_summary
         /\ s !! "patient_summary" = Some patient_summary
     | None => False
     end.
Proof.
  intros d1 d2. subst d2 d1. unfold store_summaries, create_consultation_session.
  cbn [snd set_summary sessions set_consultation set_session alloc_dict].
  rewrite lookup_insert_eq. split.
  - unfold get_consultation_data, modify, deref.
    cbn [consultations dicts set_summary set_consultation set_session
         alloc_dict].
    rewrite !lookup_insert_eq. reflexivity.
  - cbn [summaries modify set_summary set_consultation set_session alloc_dict].
    rewrite lookup_insert_eq. repeat split.
Qed.

End HandlerProperties.
